(** * CoupJS: the room state machine and action-resolution engine of server.js

    A shallow embedding of the game engine (the functions between
    [shuffleDeck] and [nextTurn] of the server, and the socket handlers that
    drive them), followed by the properties of the specification that were
    checked against it.

    Conventions of the embedding.
    - JavaScript objects are records; a property that the code leaves
      [undefined] or sets to [null] is an [option] (or [false] / [0] where the
      code only ever tests it for truthiness or reads it through [|| 0]).
    - [room.players] is a list; a reference to a player object obtained with
      [find] is the index of the first match, and every mutation through that
      reference is an update of the list at that index.
    - The objects in the slots of [player.influences] keep their identity:
      [completeExchange] puts an object into every slot whose index was
      sent, also when an index was sent twice. The field [objects] of a
      player names the object in each slot, and a write through a slot
      ([writeSlot]) shows in every slot that holds the same object.
    - A lookup in an object literal used as a table ([ACTIONS[action]]) also
      finds the properties inherited from [Object.prototype].
    - [room.pendingResponses] (a [Set] of player ids) is a [gset string];
      [actionInProgress.responses] and [player.gameStats] (objects used as
      maps) are [gmap string _].
    - Numbers are [Z] (coins, counters) or [nat] (array indices); all values
      that occur are far below 2^53, so no rounding is involved.
    - A [TypeError] raised by a property access on [undefined] / [null] is the
      outcome [Fault], which carries the room as mutated up to the throw.
    - [Math.random] is an oracle: [shuffle n l] is the result of the n-th
      [sort(() => Math.random() - 0.5)] of the room on the array [l].
    - [setTimeout] / [clearTimeout] act on a table of armed timers kept next
      to the room; what a callback does when it fires is a function of its own.
    - [emitToRoom] (the broadcast) and the database are not part of the state;
      [Date.now()] stamps are left out of log entries. *)

From stdpp Require Import gmap strings list fin_maps pretty.
From Stdlib Require Import ZArith Sorted.

Open Scope Z_scope.
Open Scope string_scope.

(** ** Data model *)

Definition Card := string.

Module Influence.
Record t := mk { card : Card; revealed : bool }.
End Influence.

(** An entry of [ACTIONS]. *)
Module ActionData.
Record t := mk {
  name : option string;
  coins : option Z;
  cost : option Z;
  blockable : bool;
  blocker : option (list Card);
  challengeable : bool;
  card : option Card
}.
End ActionData.

(** What a client sends with [respondToAction]. *)
Module Response.
Record t := mk { type : string; blockCard : option Card }.
End Response.

(** The callbacks handed to [setTimeout]: the 12 s response window opened by
    [performAction], and the one opened by [handleBlock], which closes over
    the action name and the block card. *)
Inductive TimerCallback :=
| ActionWindow
| BlockWindow (actionName : string) (blockCard : option Card).

Module Player.
Record t := mk {
  id : string;
  socketId : string;
  name : string;
  anonymousName : option string;
  coins : Z;
  influences : list Influence.t;
  alive : bool;
  disconnected : bool;
  hasLeft : bool;
  mustRevealInfluence : bool;
  influencesToLose : Z;
  influenceLossCausedBy : option string;
  mustChooseExchange : bool;
  exchangeCards : option (list Card);
  mustChooseExamine : bool;
  mustShowCardToExaminer : bool;
  examineTargetId : option string;
  examinedBy : option string;
  examinedCard : option Card;
  examinedCardIndex : option nat;
  gameStats : option (gmap string Z);
  (* which objects the slots of [influences] hold: slots [i] and [j] hold
     the same JavaScript object exactly when this list has the same number
     at [i] and at [j]; a write through one of them then shows in both *)
  objects : list nat
}.

Definition set_coins (v : Z) (p : t) : t :=
  mk (id p) (socketId p) (name p) (anonymousName p) v (influences p) (alive p)
     (disconnected p) (hasLeft p) (mustRevealInfluence p) (influencesToLose p)
     (influenceLossCausedBy p) (mustChooseExchange p) (exchangeCards p)
     (mustChooseExamine p) (mustShowCardToExaminer p) (examineTargetId p) (examinedBy p)
     (examinedCard p) (examinedCardIndex p) (gameStats p) (objects p).
Definition set_influences (v : list Influence.t) (p : t) : t :=
  mk (id p) (socketId p) (name p) (anonymousName p) (coins p) v (alive p) (disconnected p)
     (hasLeft p) (mustRevealInfluence p) (influencesToLose p) (influenceLossCausedBy p)
     (mustChooseExchange p) (exchangeCards p) (mustChooseExamine p)
     (mustShowCardToExaminer p) (examineTargetId p) (examinedBy p) (examinedCard p)
     (examinedCardIndex p) (gameStats p) (objects p).
Definition set_alive (v : bool) (p : t) : t :=
  mk (id p) (socketId p) (name p) (anonymousName p) (coins p) (influences p) v
     (disconnected p) (hasLeft p) (mustRevealInfluence p) (influencesToLose p)
     (influenceLossCausedBy p) (mustChooseExchange p) (exchangeCards p)
     (mustChooseExamine p) (mustShowCardToExaminer p) (examineTargetId p) (examinedBy p)
     (examinedCard p) (examinedCardIndex p) (gameStats p) (objects p).
Definition set_disconnected (v : bool) (p : t) : t :=
  mk (id p) (socketId p) (name p) (anonymousName p) (coins p) (influences p) (alive p) v
     (hasLeft p) (mustRevealInfluence p) (influencesToLose p) (influenceLossCausedBy p)
     (mustChooseExchange p) (exchangeCards p) (mustChooseExamine p)
     (mustShowCardToExaminer p) (examineTargetId p) (examinedBy p) (examinedCard p)
     (examinedCardIndex p) (gameStats p) (objects p).
Definition set_mustRevealInfluence (v : bool) (p : t) : t :=
  mk (id p) (socketId p) (name p) (anonymousName p) (coins p) (influences p) (alive p)
     (disconnected p) (hasLeft p) v (influencesToLose p) (influenceLossCausedBy p)
     (mustChooseExchange p) (exchangeCards p) (mustChooseExamine p)
     (mustShowCardToExaminer p) (examineTargetId p) (examinedBy p) (examinedCard p)
     (examinedCardIndex p) (gameStats p) (objects p).
Definition set_influencesToLose (v : Z) (p : t) : t :=
  mk (id p) (socketId p) (name p) (anonymousName p) (coins p) (influences p) (alive p)
     (disconnected p) (hasLeft p) (mustRevealInfluence p) v (influenceLossCausedBy p)
     (mustChooseExchange p) (exchangeCards p) (mustChooseExamine p)
     (mustShowCardToExaminer p) (examineTargetId p) (examinedBy p) (examinedCard p)
     (examinedCardIndex p) (gameStats p) (objects p).
Definition set_influenceLossCausedBy (v : option string) (p : t) : t :=
  mk (id p) (socketId p) (name p) (anonymousName p) (coins p) (influences p) (alive p)
     (disconnected p) (hasLeft p) (mustRevealInfluence p) (influencesToLose p) v
     (mustChooseExchange p) (exchangeCards p) (mustChooseExamine p)
     (mustShowCardToExaminer p) (examineTargetId p) (examinedBy p) (examinedCard p)
     (examinedCardIndex p) (gameStats p) (objects p).
Definition set_mustChooseExchange (v : bool) (p : t) : t :=
  mk (id p) (socketId p) (name p) (anonymousName p) (coins p) (influences p) (alive p)
     (disconnected p) (hasLeft p) (mustRevealInfluence p) (influencesToLose p)
     (influenceLossCausedBy p) v (exchangeCards p) (mustChooseExamine p)
     (mustShowCardToExaminer p) (examineTargetId p) (examinedBy p) (examinedCard p)
     (examinedCardIndex p) (gameStats p) (objects p).
Definition set_exchangeCards (v : option (list Card)) (p : t) : t :=
  mk (id p) (socketId p) (name p) (anonymousName p) (coins p) (influences p) (alive p)
     (disconnected p) (hasLeft p) (mustRevealInfluence p) (influencesToLose p)
     (influenceLossCausedBy p) (mustChooseExchange p) v (mustChooseExamine p)
     (mustShowCardToExaminer p) (examineTargetId p) (examinedBy p) (examinedCard p)
     (examinedCardIndex p) (gameStats p) (objects p).
Definition set_mustChooseExamine (v : bool) (p : t) : t :=
  mk (id p) (socketId p) (name p) (anonymousName p) (coins p) (influences p) (alive p)
     (disconnected p) (hasLeft p) (mustRevealInfluence p) (influencesToLose p)
     (influenceLossCausedBy p) (mustChooseExchange p) (exchangeCards p) v
     (mustShowCardToExaminer p) (examineTargetId p) (examinedBy p) (examinedCard p)
     (examinedCardIndex p) (gameStats p) (objects p).
Definition set_mustShowCardToExaminer (v : bool) (p : t) : t :=
  mk (id p) (socketId p) (name p) (anonymousName p) (coins p) (influences p) (alive p)
     (disconnected p) (hasLeft p) (mustRevealInfluence p) (influencesToLose p)
     (influenceLossCausedBy p) (mustChooseExchange p) (exchangeCards p)
     (mustChooseExamine p) v (examineTargetId p) (examinedBy p) (examinedCard p)
     (examinedCardIndex p) (gameStats p) (objects p).
Definition set_examineTargetId (v : option string) (p : t) : t :=
  mk (id p) (socketId p) (name p) (anonymousName p) (coins p) (influences p) (alive p)
     (disconnected p) (hasLeft p) (mustRevealInfluence p) (influencesToLose p)
     (influenceLossCausedBy p) (mustChooseExchange p) (exchangeCards p)
     (mustChooseExamine p) (mustShowCardToExaminer p) v (examinedBy p) (examinedCard p)
     (examinedCardIndex p) (gameStats p) (objects p).
Definition set_examinedBy (v : option string) (p : t) : t :=
  mk (id p) (socketId p) (name p) (anonymousName p) (coins p) (influences p) (alive p)
     (disconnected p) (hasLeft p) (mustRevealInfluence p) (influencesToLose p)
     (influenceLossCausedBy p) (mustChooseExchange p) (exchangeCards p)
     (mustChooseExamine p) (mustShowCardToExaminer p) (examineTargetId p) v (examinedCard p)
     (examinedCardIndex p) (gameStats p) (objects p).
Definition set_examinedCard (v : option Card) (p : t) : t :=
  mk (id p) (socketId p) (name p) (anonymousName p) (coins p) (influences p) (alive p)
     (disconnected p) (hasLeft p) (mustRevealInfluence p) (influencesToLose p)
     (influenceLossCausedBy p) (mustChooseExchange p) (exchangeCards p)
     (mustChooseExamine p) (mustShowCardToExaminer p) (examineTargetId p) (examinedBy p) v
     (examinedCardIndex p) (gameStats p) (objects p).
Definition set_examinedCardIndex (v : option nat) (p : t) : t :=
  mk (id p) (socketId p) (name p) (anonymousName p) (coins p) (influences p) (alive p)
     (disconnected p) (hasLeft p) (mustRevealInfluence p) (influencesToLose p)
     (influenceLossCausedBy p) (mustChooseExchange p) (exchangeCards p)
     (mustChooseExamine p) (mustShowCardToExaminer p) (examineTargetId p) (examinedBy p)
     (examinedCard p) v (gameStats p) (objects p).
Definition set_gameStats (v : option (gmap string Z)) (p : t) : t :=
  mk (id p) (socketId p) (name p) (anonymousName p) (coins p) (influences p) (alive p)
     (disconnected p) (hasLeft p) (mustRevealInfluence p) (influencesToLose p)
     (influenceLossCausedBy p) (mustChooseExchange p) (exchangeCards p)
     (mustChooseExamine p) (mustShowCardToExaminer p) (examineTargetId p) (examinedBy p)
     (examinedCard p) (examinedCardIndex p) v (objects p).
Definition set_objects (v : list nat) (p : t) : t :=
  mk (id p) (socketId p) (name p) (anonymousName p) (coins p) (influences p) (alive p)
     (disconnected p) (hasLeft p) (mustRevealInfluence p) (influencesToLose p)
     (influenceLossCausedBy p) (mustChooseExchange p) (exchangeCards p)
     (mustChooseExamine p) (mustShowCardToExaminer p) (examineTargetId p) (examinedBy p)
     (examinedCard p) (examinedCardIndex p) (gameStats p) v.
End Player.

Module Spectator.
Record t := mk { id : string; socketId : string; name : string }.
End Spectator.

(** The record stored in [room.actionInProgress]. *)
Inductive Phase := Waiting | Block.

#[global] Instance Phase_eq_dec : EqDecision Phase.
Proof. solve_decision. Defined.

Module Action.
Record t := mk {
  action : string;
  playerId : string;
  playerName : string;
  targetId : option string;
  targetName : option string;
  canChallenge : bool;
  canBlock : bool;
  blocker : option (list Card);
  responses : gmap string Response.t;
  phase : Phase;
  totalResponders : Z;
  respondedCount : Z;
  blockableByTarget : bool;
  targetCanBlock : option string;
  pausedForDisconnection : bool;
  responseTimeout : option nat;
  blockerId : option string;
  blockCard : option Card
}.

Definition set_responses (v : gmap string Response.t) (a : t) : t :=
  mk (action a) (playerId a) (playerName a) (targetId a) (targetName a) (canChallenge a)
     (canBlock a) (blocker a) v (phase a) (totalResponders a) (respondedCount a)
     (blockableByTarget a) (targetCanBlock a) (pausedForDisconnection a) (responseTimeout a)
     (blockerId a) (blockCard a).
Definition set_phase (v : Phase) (a : t) : t :=
  mk (action a) (playerId a) (playerName a) (targetId a) (targetName a) (canChallenge a)
     (canBlock a) (blocker a) (responses a) v (totalResponders a) (respondedCount a)
     (blockableByTarget a) (targetCanBlock a) (pausedForDisconnection a) (responseTimeout a)
     (blockerId a) (blockCard a).
Definition set_totalResponders (v : Z) (a : t) : t :=
  mk (action a) (playerId a) (playerName a) (targetId a) (targetName a) (canChallenge a)
     (canBlock a) (blocker a) (responses a) (phase a) v (respondedCount a)
     (blockableByTarget a) (targetCanBlock a) (pausedForDisconnection a) (responseTimeout a)
     (blockerId a) (blockCard a).
Definition set_respondedCount (v : Z) (a : t) : t :=
  mk (action a) (playerId a) (playerName a) (targetId a) (targetName a) (canChallenge a)
     (canBlock a) (blocker a) (responses a) (phase a) (totalResponders a) v
     (blockableByTarget a) (targetCanBlock a) (pausedForDisconnection a) (responseTimeout a)
     (blockerId a) (blockCard a).
Definition set_blockableByTarget (v : bool) (a : t) : t :=
  mk (action a) (playerId a) (playerName a) (targetId a) (targetName a) (canChallenge a)
     (canBlock a) (blocker a) (responses a) (phase a) (totalResponders a) (respondedCount a)
     v (targetCanBlock a) (pausedForDisconnection a) (responseTimeout a) (blockerId a)
     (blockCard a).
Definition set_targetCanBlock (v : option string) (a : t) : t :=
  mk (action a) (playerId a) (playerName a) (targetId a) (targetName a) (canChallenge a)
     (canBlock a) (blocker a) (responses a) (phase a) (totalResponders a) (respondedCount a)
     (blockableByTarget a) v (pausedForDisconnection a) (responseTimeout a) (blockerId a)
     (blockCard a).
Definition set_pausedForDisconnection (v : bool) (a : t) : t :=
  mk (action a) (playerId a) (playerName a) (targetId a) (targetName a) (canChallenge a)
     (canBlock a) (blocker a) (responses a) (phase a) (totalResponders a) (respondedCount a)
     (blockableByTarget a) (targetCanBlock a) v (responseTimeout a) (blockerId a)
     (blockCard a).
Definition set_responseTimeout (v : option nat) (a : t) : t :=
  mk (action a) (playerId a) (playerName a) (targetId a) (targetName a) (canChallenge a)
     (canBlock a) (blocker a) (responses a) (phase a) (totalResponders a) (respondedCount a)
     (blockableByTarget a) (targetCanBlock a) (pausedForDisconnection a) v (blockerId a)
     (blockCard a).
Definition set_blockerId (v : option string) (a : t) : t :=
  mk (action a) (playerId a) (playerName a) (targetId a) (targetName a) (canChallenge a)
     (canBlock a) (blocker a) (responses a) (phase a) (totalResponders a) (respondedCount a)
     (blockableByTarget a) (targetCanBlock a) (pausedForDisconnection a) (responseTimeout a)
     v (blockCard a).
Definition set_blockCard (v : option Card) (a : t) : t :=
  mk (action a) (playerId a) (playerName a) (targetId a) (targetName a) (canChallenge a)
     (canBlock a) (blocker a) (responses a) (phase a) (totalResponders a) (respondedCount a)
     (blockableByTarget a) (targetCanBlock a) (pausedForDisconnection a) (responseTimeout a)
     (blockerId a) v.
End Action.

(** An entry of [room.gameLog]. Chat entries carry [isSpectator]. *)
Module LogEntry.
Record t := mk {
  message : string;
  type : string;
  character : option string;
  isSpectator : option bool
}.
End LogEntry.

(** An entry of [room.eliminationOrder]. *)
Module Elimination.
Record t := mk {
  playerId : string;
  playerName : string;
  coinsEarned : Z;
  eliminations : Z;
  placement : Z
}.
End Elimination.

Inductive RoomState := Lobby | Playing | Ended.

#[global] Instance RoomState_eq_dec : EqDecision RoomState.
Proof. solve_decision. Defined.

Module Room.
Record t := mk {
  code : string;
  state : RoomState;
  players : list Player.t;
  spectators : list Spectator.t;
  deck : list Card;
  currentPlayerIndex : nat;
  actionInProgress : option Action.t;
  gameLog : list LogEntry.t;
  pendingResponses : gset string;
  useInquisitor : bool;
  allowSpectators : bool;
  chatMode : string;
  password : option string;
  ranked : bool;
  anonymousMode : bool;
  responseTimeout : option nat;
  (* the timers armed by callbacks that close over this room, the next
     handle [setTimeout] returns, and the number of shuffles done so far *)
  timers : gmap nat TimerCallback;
  nextTimer : nat;
  shuffles : nat;
  eliminationOrder : list Elimination.t;
  winnerId : option string
}.

Definition set_state (v : RoomState) (r : t) : t :=
  mk (code r) v (players r) (spectators r) (deck r) (currentPlayerIndex r)
     (actionInProgress r) (gameLog r) (pendingResponses r) (useInquisitor r)
     (allowSpectators r) (chatMode r) (password r) (ranked r) (anonymousMode r)
     (responseTimeout r) (timers r) (nextTimer r) (shuffles r) (eliminationOrder r)
     (winnerId r).
Definition set_players (v : list Player.t) (r : t) : t :=
  mk (code r) (state r) v (spectators r) (deck r) (currentPlayerIndex r)
     (actionInProgress r) (gameLog r) (pendingResponses r) (useInquisitor r)
     (allowSpectators r) (chatMode r) (password r) (ranked r) (anonymousMode r)
     (responseTimeout r) (timers r) (nextTimer r) (shuffles r) (eliminationOrder r)
     (winnerId r).
Definition set_spectators (v : list Spectator.t) (r : t) : t :=
  mk (code r) (state r) (players r) v (deck r) (currentPlayerIndex r) (actionInProgress r)
     (gameLog r) (pendingResponses r) (useInquisitor r) (allowSpectators r) (chatMode r)
     (password r) (ranked r) (anonymousMode r) (responseTimeout r) (timers r) (nextTimer r)
     (shuffles r) (eliminationOrder r) (winnerId r).
Definition set_deck (v : list Card) (r : t) : t :=
  mk (code r) (state r) (players r) (spectators r) v (currentPlayerIndex r)
     (actionInProgress r) (gameLog r) (pendingResponses r) (useInquisitor r)
     (allowSpectators r) (chatMode r) (password r) (ranked r) (anonymousMode r)
     (responseTimeout r) (timers r) (nextTimer r) (shuffles r) (eliminationOrder r)
     (winnerId r).
Definition set_currentPlayerIndex (v : nat) (r : t) : t :=
  mk (code r) (state r) (players r) (spectators r) (deck r) v (actionInProgress r)
     (gameLog r) (pendingResponses r) (useInquisitor r) (allowSpectators r) (chatMode r)
     (password r) (ranked r) (anonymousMode r) (responseTimeout r) (timers r) (nextTimer r)
     (shuffles r) (eliminationOrder r) (winnerId r).
Definition set_actionInProgress (v : option Action.t) (r : t) : t :=
  mk (code r) (state r) (players r) (spectators r) (deck r) (currentPlayerIndex r) v
     (gameLog r) (pendingResponses r) (useInquisitor r) (allowSpectators r) (chatMode r)
     (password r) (ranked r) (anonymousMode r) (responseTimeout r) (timers r) (nextTimer r)
     (shuffles r) (eliminationOrder r) (winnerId r).
Definition set_gameLog (v : list LogEntry.t) (r : t) : t :=
  mk (code r) (state r) (players r) (spectators r) (deck r) (currentPlayerIndex r)
     (actionInProgress r) v (pendingResponses r) (useInquisitor r) (allowSpectators r)
     (chatMode r) (password r) (ranked r) (anonymousMode r) (responseTimeout r) (timers r)
     (nextTimer r) (shuffles r) (eliminationOrder r) (winnerId r).
Definition set_pendingResponses (v : gset string) (r : t) : t :=
  mk (code r) (state r) (players r) (spectators r) (deck r) (currentPlayerIndex r)
     (actionInProgress r) (gameLog r) v (useInquisitor r) (allowSpectators r) (chatMode r)
     (password r) (ranked r) (anonymousMode r) (responseTimeout r) (timers r) (nextTimer r)
     (shuffles r) (eliminationOrder r) (winnerId r).
Definition set_responseTimeout (v : option nat) (r : t) : t :=
  mk (code r) (state r) (players r) (spectators r) (deck r) (currentPlayerIndex r)
     (actionInProgress r) (gameLog r) (pendingResponses r) (useInquisitor r)
     (allowSpectators r) (chatMode r) (password r) (ranked r) (anonymousMode r) v (timers r)
     (nextTimer r) (shuffles r) (eliminationOrder r) (winnerId r).
Definition set_timers (v : gmap nat TimerCallback) (r : t) : t :=
  mk (code r) (state r) (players r) (spectators r) (deck r) (currentPlayerIndex r)
     (actionInProgress r) (gameLog r) (pendingResponses r) (useInquisitor r)
     (allowSpectators r) (chatMode r) (password r) (ranked r) (anonymousMode r)
     (responseTimeout r) v (nextTimer r) (shuffles r) (eliminationOrder r) (winnerId r).
Definition set_nextTimer (v : nat) (r : t) : t :=
  mk (code r) (state r) (players r) (spectators r) (deck r) (currentPlayerIndex r)
     (actionInProgress r) (gameLog r) (pendingResponses r) (useInquisitor r)
     (allowSpectators r) (chatMode r) (password r) (ranked r) (anonymousMode r)
     (responseTimeout r) (timers r) v (shuffles r) (eliminationOrder r) (winnerId r).
Definition set_shuffles (v : nat) (r : t) : t :=
  mk (code r) (state r) (players r) (spectators r) (deck r) (currentPlayerIndex r)
     (actionInProgress r) (gameLog r) (pendingResponses r) (useInquisitor r)
     (allowSpectators r) (chatMode r) (password r) (ranked r) (anonymousMode r)
     (responseTimeout r) (timers r) (nextTimer r) v (eliminationOrder r) (winnerId r).
Definition set_eliminationOrder (v : list Elimination.t) (r : t) : t :=
  mk (code r) (state r) (players r) (spectators r) (deck r) (currentPlayerIndex r)
     (actionInProgress r) (gameLog r) (pendingResponses r) (useInquisitor r)
     (allowSpectators r) (chatMode r) (password r) (ranked r) (anonymousMode r)
     (responseTimeout r) (timers r) (nextTimer r) (shuffles r) v (winnerId r).
Definition set_winnerId (v : option string) (r : t) : t :=
  mk (code r) (state r) (players r) (spectators r) (deck r) (currentPlayerIndex r)
     (actionInProgress r) (gameLog r) (pendingResponses r) (useInquisitor r)
     (allowSpectators r) (chatMode r) (password r) (ranked r) (anonymousMode r)
     (responseTimeout r) (timers r) (nextTimer r) (shuffles r) (eliminationOrder r) v.
End Room.

(** ** The card and action catalog *)

Definition CARDS : list Card :=
  ["Duke"; "Assassin"; "Captain"; "Ambassador"; "Contessa"].
Definition INQUISITOR_CARDS : list Card :=
  ["Duke"; "Assassin"; "Captain"; "Inquisitor"; "Contessa"].

(** The keys that every object literal inherits from [Object.prototype]. *)
Definition inheritedKeys : list string :=
  ["constructor"; "__defineGetter__"; "__defineSetter__"; "hasOwnProperty";
   "__lookupGetter__"; "__lookupSetter__"; "isPrototypeOf"; "propertyIsEnumerable";
   "toString"; "valueOf"; "__proto__"; "toLocaleString"].

(** What [ACTIONS[key]] finds under an inherited key: a function of
    [Object.prototype] (the prototype itself under [__proto__]). It is truthy
    and has none of the properties of an entry of the table; a function has a
    [name]. *)
Definition inherited (key : string) : ActionData.t :=
  ActionData.mk (if decide (key = "__proto__") then None
                 else if decide (key = "constructor") then Some "Object"
                 else Some key)
                None None false None false None.

(** [ACTIONS[action]]: the own properties of the table, then the inherited
    ones; any other string gives [undefined]. *)
Definition ACTIONS (action : string) : option ActionData.t :=
  if decide (action = "income") then
    Some (ActionData.mk (Some "Income") (Some 1) None false None false None)
  else if decide (action = "foreignAid") then
    Some (ActionData.mk (Some "Foreign Aid") (Some 2) None true (Some ["Duke"]) false None)
  else if decide (action = "tax") then
    Some (ActionData.mk (Some "Tax") (Some 3) None false None true (Some "Duke"))
  else if decide (action = "assassinate") then
    Some (ActionData.mk (Some "Assassinate") None (Some 3) true (Some ["Contessa"]) true
            (Some "Assassin"))
  else if decide (action = "steal") then
    Some (ActionData.mk (Some "Steal") (Some 2) None true
            (Some ["Captain"; "Ambassador"; "Inquisitor"]) true (Some "Captain"))
  else if decide (action = "exchange") then
    Some (ActionData.mk (Some "Exchange") None None false None true (Some "Ambassador"))
  else if decide (action = "examine") then
    Some (ActionData.mk (Some "Examine") None None false None true (Some "Inquisitor"))
  else if decide (action = "coup") then
    Some (ActionData.mk (Some "Coup") None (Some 7) false None false None)
  else if bool_decide (action ∈ inheritedKeys) then Some (inherited action)
  else None.

(** ** The engine monad: state passing over the room, with faults *)

Inductive Outcome (A : Type) : Type :=
| Done (a : A) (room : Room.t)
| Fault (room : Room.t).
Arguments Done {A} a room.
Arguments Fault {A} room.

Definition Engine (A : Type) : Type := Room.t → Outcome A.

#[global] Instance Engine_ret : MRet Engine := λ A a room, Done a room.
#[global] Instance Engine_bind : MBind Engine := λ A B f m room,
  match m room with
  | Done a room' => f a room'
  | Fault room' => Fault room'
  end.

Definition get : Engine Room.t := λ room, Done room room.
Definition modify (f : Room.t → Room.t) : Engine unit := λ room, Done tt (f room).
Definition throw {A : Type} : Engine A := λ room, Fault room.
Definition deref {A : Type} (o : option A) : Engine A :=
  match o with Some a => mret a | None => throw end.

(** The room an outcome leaves behind. *)
Definition roomOf {A : Type} (o : Outcome A) : Room.t :=
  match o with Done _ room => room | Fault room => room end.

(** What an operation returned, if it did. *)
Definition resultOf {A : Type} (o : Outcome A) : option A :=
  match o with Done a _ => Some a | Fault _ => None end.

(** The [{success, error?}] object the operations return. *)
Record Result := { success : bool; error : option string }.
Definition succeeded : Result := {| success := true; error := None |}.
Definition failed (e : string) : Result := {| success := false; error := Some e |}.

(** A reference to an element of [room.players]: the index [find] stopped
    at, or [None] for [undefined]. *)
Definition PlayerRef := option nat.

Definition getPlayerBySocketId (room : Room.t) (socketId : string) : PlayerRef :=
  fst <$> list_find (λ p, Player.socketId p = socketId) (Room.players room).

Definition getSpectatorBySocketId (room : Room.t) (socketId : string) : option nat :=
  fst <$> list_find (λ s, Spectator.socketId s = socketId) (Room.spectators room).

Definition getPlayerById (room : Room.t) (playerId : string) : PlayerRef :=
  fst <$> list_find (λ p, Player.id p = playerId) (Room.players room).

(** Reading through a reference ([ref.field]) and writing through it
    ([ref.field = v]); both throw on [undefined]. *)
Definition readP (ref : PlayerRef) : Engine Player.t :=
  i ← deref ref; room ← get; deref (Room.players room !! i).

Definition mutP (ref : PlayerRef) (f : Player.t → Player.t) : Engine unit :=
  i ← deref ref; modify (λ room, Room.set_players (alter f i (Room.players room)) room).

(** [if (p.gameStats) p.gameStats[k] += n] *)
Definition bumpStat (k : string) (n : Z) (p : Player.t) : Player.t :=
  Player.set_gameStats (alter (Z.add n) k <$> Player.gameStats p) p.

(** Pictographs at the head of some messages are left out of the text. *)
Definition addLogToRoom (message type : string) (character : option string) : Engine unit :=
  modify (λ room,
    Room.set_gameLog (Room.gameLog room ++ [LogEntry.mk message type character None]) room).

Definition setTimeout (cb : TimerCallback) : Engine nat :=
  room ← get;
  let h := Room.nextTimer room in
  modify (λ room, Room.set_nextTimer (S h) (Room.set_timers (<[h := cb]> (Room.timers room)) room));;
  mret h.

Definition clearTimeout (h : nat) : Engine unit :=
  modify (λ room, Room.set_timers (delete h (Room.timers room)) room).

Definition setAction (f : Action.t → Action.t) : Engine unit :=
  modify (λ room, Room.set_actionInProgress (f <$> Room.actionInProgress room) room).

Definition clearActionAndTimeout : Engine unit :=
  room ← get;
  match Room.responseTimeout room with
  | Some h => clearTimeout h;; modify (Room.set_responseTimeout None)
  | None => mret tt
  end;;
  room ← get;
  match Room.actionInProgress room ≫= Action.responseTimeout with
  | Some h => clearTimeout h;; setAction (Action.set_responseTimeout None)
  | None => mret tt
  end;;
  modify (Room.set_actionInProgress None).

Definition unrevealed (inf : Influence.t) : bool := negb (Influence.revealed inf).

(** Slots [i] and [j] of the player's hand hold the same object. *)
Definition sameObject (p : Player.t) (i j : nat) : bool :=
  bool_decide (i = j)
  || match Player.objects p !! i, Player.objects p !! j with
     | Some a, Some b => bool_decide (a = b)
     | _, _ => false
     end.

(** [player.influences[i].card = ...] and [player.influences[i].revealed =
    ...]: the write changes the object in slot [i], and so every slot that
    holds that object. *)
Definition writeSlot (f : Influence.t → Influence.t) (i : nat) (p : Player.t) : Player.t :=
  Player.set_influences
    (imap (λ j inf, if sameObject p i j then f inf else inf) (Player.influences p)) p.

(** [influences.some(inf => !inf.revealed && inf.card === card)]; the card
    compared with may be [undefined], which no card equals. *)
Definition holdsCard (p : Player.t) (card : option Card) : bool :=
  existsb (λ inf, unrevealed inf && bool_decide (Some (Influence.card inf) = card))
          (Player.influences p).

(** [room.deck.pop()]. Every call in the engine is guarded by a test of the
    deck's length, so the empty deck does not arise there; the model makes
    it a fault. *)
Definition popDeck : Engine Card :=
  room ← get;
  c ← deref (last (Room.deck room));
  modify (Room.set_deck (removelast (Room.deck room)));;
  mret c.

(** ** Turn advance *)

(** The [while] loop of [nextTurn]: [fuel] is [players.length - attempts]. *)
Fixpoint skipEliminated (players : list Player.t) (fuel next : nat) : option nat :=
  match players !! next with
  | None => None
  | Some p =>
      if Player.alive p then Some next
      else match fuel with
           | O => Some next
           | S fuel' => skipEliminated players fuel' ((next + 1) mod length players)%nat
           end
  end.

Definition nextTurn : Engine unit :=
  room ← get;
  let players := Room.players room in
  if existsb Player.mustChooseExchange players then mret tt
  else if existsb Player.mustRevealInfluence players then mret tt
  else if existsb Player.mustShowCardToExaminer players then mret tt
  else
    next ← deref (skipEliminated players (length players)
                    ((Room.currentPlayerIndex room + 1) mod length players)%nat);
    modify (Room.set_currentPlayerIndex next);;
    p ← readP (Some next);
    addLogToRoom ("--- " +:+ Player.name p +:+ "'s turn ---") "info" None.

(** ** Influence loss *)

Definition loseInfluence (playerId : string) (count : Z) (causedByPlayerId : option string)
  : Engine unit :=
  room ← get;
  match getPlayerById room playerId with
  | None => mret tt
  | Some i =>
      p ← readP (Some i);
      if (0 <? length (List.filter unrevealed (Player.influences p)))%nat then
        mutP (Some i) (λ p,
          Player.set_influenceLossCausedBy causedByPlayerId
            (Player.set_mustRevealInfluence true
               (Player.set_influencesToLose (Player.influencesToLose p + count) p)))
      else mret tt
  end.

(** ** Effect application *)

(** Truthiness of an id sent by a client: [undefined], [null] and the empty
    string are falsy. *)
Definition truthy (o : option string) : bool :=
  match o with
  | Some s => negb (bool_decide (s = ""))
  | None => false
  end.

Definition addCoins (n : Z) (p : Player.t) : Player.t :=
  Player.set_coins (Player.coins p + n) p.

(** The [switch] of [resolveAction]; the result tells whether the function
    returned from inside the switch (exchange and examine hand over to a
    player obligation and return early). *)
Definition applyEffect (action : Action.t) (actor target : PlayerRef) : Engine bool :=
  let kind := Action.action action in
  if decide (kind = "income") then
    mutP actor (addCoins 1);;
    mutP actor (bumpStat "coinsEarned" 1);;
    mutP actor (bumpStat "incomeTaken" 1);;
    mutP actor (bumpStat "actionsPerformed" 1);;
    a ← readP actor;
    addLogToRoom (Player.name a +:+ " takes Income and receives 1 coin") "success" (Some "Income");;
    mret false
  else if decide (kind = "foreignAid") then
    mutP actor (addCoins 2);;
    mutP actor (bumpStat "coinsEarned" 2);;
    mutP actor (bumpStat "foreignaidAccepted" 1);;
    mutP actor (bumpStat "actionsPerformed" 1);;
    a ← readP actor;
    addLogToRoom (Player.name a +:+ " receives 2 coins from Foreign Aid") "success" (Some "ForeignAid");;
    mret false
  else if decide (kind = "tax") then
    mutP actor (addCoins 3);;
    mutP actor (bumpStat "coinsEarned" 3);;
    mutP actor (bumpStat "taxSucceeded" 1);;
    mutP actor (bumpStat "actionsPerformed" 1);;
    a ← readP actor;
    addLogToRoom (Player.name a +:+ " receives 3 coins from Tax") "success" (Some "Duke");;
    mret false
  else if decide (kind = "steal") then
    match target with
    | Some _ =>
        t ← readP target;
        let stolen := Z.min 2 (Player.coins t) in
        mutP target (addCoins (- stolen));;
        mutP actor (addCoins stolen);;
        mutP actor (bumpStat "coinsEarned" stolen);;
        mutP actor (bumpStat "coinsStolen" stolen);;
        mutP target (bumpStat "coinsLost" stolen);;
        mutP actor (bumpStat "actionsPerformed" 1);;
        a ← readP actor;
        addLogToRoom (Player.name a +:+ " steals " +:+ pretty stolen +:+ " coin"
                        +:+ (if decide (stolen = 1) then "" else "s")
                        +:+ " from " +:+ Player.name t) "success" (Some "Captain");;
        mret false
    | None => mret false
    end
  else if decide (kind = "assassinate") then
    match target with
    | Some _ =>
        mutP actor (bumpStat "assassinationsSucceeded" 1);;
        mutP actor (bumpStat "actionsPerformed" 1);;
        t ← readP target;
        addLogToRoom (Player.name t +:+ " must lose an influence") "info" None;;
        loseInfluence (Player.id t) 1 (Some (Action.playerId action));;
        mret false
    | None => mret false
    end
  else if decide (kind = "exchange") then
    mutP actor (bumpStat "actionsPerformed" 1);;
    room ← get;
    if Room.useInquisitor room then
      (* Inquisitor mode: draw 1 card *)
      if (1 <=? length (Room.deck room))%nat then
        c ← popDeck;
        mutP actor (Player.set_exchangeCards (Some [c]));;
        mutP actor (Player.set_mustChooseExchange true);;
        a ← readP actor;
        addLogToRoom (Player.name a +:+ " draws 1 card to exchange") "info" (Some "Inquisitor");;
        modify (Room.set_actionInProgress None);;
        mret true
      else
        a ← readP actor;
        addLogToRoom (Player.name a +:+ " exchanges cards (not enough cards in deck)") "info" None;;
        mret false
    else
      (* Ambassador mode: draw 2 cards *)
      if (2 <=? length (Room.deck room))%nat then
        c1 ← popDeck;
        c2 ← popDeck;
        mutP actor (Player.set_exchangeCards (Some [c1; c2]));;
        mutP actor (Player.set_mustChooseExchange true);;
        a ← readP actor;
        addLogToRoom (Player.name a +:+ " draws 2 cards to exchange") "info" (Some "Ambassador");;
        modify (Room.set_actionInProgress None);;
        mret true
      else
        a ← readP actor;
        addLogToRoom (Player.name a +:+ " exchanges cards (not enough cards in deck)") "info" None;;
        mret false
  else if decide (kind = "examine") then
    mutP actor (bumpStat "actionsPerformed" 1);;
    match target with
    | Some _ =>
        t ← readP target;
        if (0 <? length (List.filter unrevealed (Player.influences t)))%nat then
          mutP actor (Player.set_examineTargetId (Some (Player.id t)));;
          mutP actor (Player.set_mustChooseExamine true);;
          mutP target (Player.set_mustShowCardToExaminer true);;
          a ← readP actor;
          mutP target (Player.set_examinedBy (Some (Player.id a)));;
          addLogToRoom (Player.name t +:+ " must show a card to " +:+ Player.name a)
                       "info" (Some "Inquisitor");;
          modify (Room.set_actionInProgress None);;
          mret true
        else
          addLogToRoom (Player.name t +:+ " has no cards to examine") "info" None;;
          mret false
    | None => mret false
    end
  else if decide (kind = "coup") then
    match target with
    | Some _ =>
        mutP actor (bumpStat "actionsPerformed" 1);;
        mutP actor (bumpStat "coupsEnacted" 1);;
        a ← readP actor;
        t ← readP target;
        addLogToRoom (Player.name a +:+ " launches a Coup against " +:+ Player.name t
                        +:+ " who must lose an influence") "info" (Some "Coup");;
        loseInfluence (Player.id t) 1 (Some (Player.id a));;
        mret false
    | None => mret false
    end
  else mret false.

Definition resolveAction : Engine unit :=
  room ← get;
  match Room.actionInProgress room with
  | None => mret tt
  | Some action =>
      actionData ← deref (ACTIONS (Action.action action));
      let actor := getPlayerById room (Action.playerId action) in
      let target :=
        if truthy (Action.targetId action)
        then Action.targetId action ≫= getPlayerById room
        else None in
      (* successful bluffs and defended claims of unchallenged actions *)
      (if ActionData.challengeable actionData
          && bool_decide (is_Some (ActionData.card actionData))
       then
         a ← readP actor;
         if holdsCard a (ActionData.card actionData)
         then mutP actor (bumpStat "claimsDefended" 1)
         else mutP actor (bumpStat "bluffsSucceeded" 1)
       else mret tt);;
      (* apply costs *)
      match ActionData.cost actionData with
      | Some cost =>
          mutP actor (addCoins (- cost));;
          mutP actor (bumpStat "coinsSpent" cost)
      | None => mret tt
      end;;
      (* apply effects *)
      returned ← applyEffect action actor target;
      if returned : bool then mret tt
      else clearActionAndTimeout;; nextTurn
  end.

(** ** Blocks *)

Definition mutPIfAny (ref : PlayerRef) (f : Player.t → Player.t) : Engine unit :=
  match ref with Some _ => mutP ref f | None => mret tt end.

(** [`${card}`] of a card that may be [undefined]. *)
Definition showCard (card : option Card) : string := default "undefined" card.

(** The statistics written when a block stands unchallenged. The source
    repeats this block in [respondToAction], in [handleBlock] and in the
    callback of the block window. *)
Definition blockStandsStats (blocker originalActor : PlayerRef) (actionName : string)
    (blockCard : option Card) : Engine unit :=
  match blocker with
  | Some _ =>
      b ← readP blocker;
      (if holdsCard b blockCard
       then mutP blocker (bumpStat "claimsDefended" 1)
       else mutP blocker (bumpStat "bluffsSucceeded" 1));;
      if decide (actionName = "steal") then mutP blocker (bumpStat "stealsBlocked" 1)
      else if decide (actionName = "assassinate") then mutP blocker (bumpStat "contessaSucceeded" 1)
      else if decide (actionName = "foreignAid") then mutP blocker (bumpStat "foreignaidblockSucceeded" 1)
      else mret tt
  | None => mret tt
  end;;
  if decide (actionName = "foreignAid") then mutPIfAny originalActor (bumpStat "foreignaidDenied" 1)
  else if decide (actionName = "assassinate") then mutPIfAny originalActor (bumpStat "assassinationsFailed" 1)
  else mret tt.

(** [p.alive && p.id !== exceptId && !p.disconnected], [exceptId] possibly
    undefined. *)
Definition canRespond (exceptId : option string) (p : Player.t) : bool :=
  Player.alive p && negb (bool_decide (Some (Player.id p) = exceptId))
  && negb (Player.disconnected p).

(** [p.alive && p.id !== exceptId && p.disconnected] *)
Definition awaitedOffline (exceptId : option string) (p : Player.t) : bool :=
  Player.alive p && negb (bool_decide (Some (Player.id p) = exceptId))
  && Player.disconnected p.

Definition offlineNames (exceptId : option string) (players : list Player.t) : string :=
  String.concat ", " (Player.name <$> List.filter (awaitedOffline exceptId) players).

Definition handleBlock (blockerId : string) (blockCard : option Card) : Engine unit :=
  room ← get;
  action ← deref (Room.actionInProgress room);
  let blocker := getPlayerById room blockerId in
  b ← readP blocker;
  (if decide (Action.action action = "foreignAid") then
     addLogToRoom (Player.name b +:+ " claims to be the " +:+ showCard blockCard
                     +:+ " and blocks Foreign Aid") "block" blockCard
   else
     addLogToRoom (Player.name b +:+ " claims to be the " +:+ showCard blockCard
                     +:+ " and blocks!") "block" blockCard);;
  (* now the block can be challenged by any player *)
  setAction (Action.set_phase Block);;
  setAction (Action.set_blockerId (Some blockerId));;
  setAction (Action.set_blockCard blockCard);;
  let eligibleChallengersList := List.filter (canRespond (Some blockerId)) (Room.players room) in
  modify (Room.set_pendingResponses (list_to_set (Player.id <$> eligibleChallengersList)));;
  setAction (Action.set_totalResponders (Z.of_nat (length eligibleChallengersList)));;
  setAction (Action.set_respondedCount 0);;
  if decide (length eligibleChallengersList = 0%nat) then
    (* nobody can challenge: the block succeeds immediately *)
    blockStandsStats blocker (getPlayerById room (Action.playerId action))
                     (Action.action action) blockCard;;
    (if decide (Action.action action = "foreignAid") then
       addLogToRoom "The block succeeds. Foreign Aid is blocked!" "success" blockCard
     else
       addLogToRoom "The block succeeds!" "success" blockCard);;
    clearActionAndTimeout;;
    nextTurn
  else if existsb (awaitedOffline (Some blockerId)) (Room.players room) then
    setAction (Action.set_pausedForDisconnection true);;
    addLogToRoom ("Waiting for " +:+ offlineNames (Some blockerId) (Room.players room)
                    +:+ " to reconnect to respond to block...") "info" None
  else
    match Room.responseTimeout room with
    | Some h => clearTimeout h;; modify (Room.set_responseTimeout None)
    | None => mret tt
    end;;
    timeoutId ← setTimeout (BlockWindow (Action.action action) blockCard);
    setAction (Action.set_responseTimeout (Some timeoutId));;
    modify (Room.set_responseTimeout (Some timeoutId))
  .

(** The callback of the block window: the block was not challenged in time. *)
Definition blockWindowElapsed (actionName : string) (blockCard : option Card) : Engine unit :=
  room ← get;
  match Room.actionInProgress room with
  | Some current =>
      match Action.phase current with
      | Block =>
          blockStandsStats (Action.blockerId current ≫= getPlayerById room)
                           (getPlayerById room (Action.playerId current))
                           actionName (Action.blockCard current);;
          (if decide (actionName = "foreignAid") then
             addLogToRoom "No one challenges the block. Foreign Aid is blocked!" "success" blockCard
           else
             addLogToRoom "No one challenges the block. The action is blocked!" "success" blockCard);;
          clearActionAndTimeout;;
          nextTurn
      | Waiting => mret tt
      end
  | None => mret tt
  end.

(** The callback of the response window of [performAction]: nobody
    responded in time. *)
Definition actionWindowElapsed : Engine unit :=
  room ← get;
  match Room.actionInProgress room with
  | Some current =>
      match Action.phase current with
      | Waiting =>
          (if decide (Action.action current = "foreignAid") then
             addLogToRoom "No one blocked Foreign Aid" "info" None
           else mret tt);;
          resolveAction
      | Block => mret tt
      end
  | None => mret tt
  end.

(** The event loop runs the callback of an armed timer; a handle that was
    cleared, or has fired already, does nothing. *)
Definition timerFires (h : nat) : Engine unit :=
  room ← get;
  match Room.timers room !! h with
  | Some cb =>
      modify (Room.set_timers (delete h (Room.timers room)));;
      match cb with
      | ActionWindow => actionWindowElapsed
      | BlockWindow actionName blockCard => blockWindowElapsed actionName blockCard
      end
  | None => mret tt
  end.

(** ** Declaring an action *)

Definition needsTarget (action : string) : bool :=
  bool_decide (action = "steal") || bool_decide (action = "assassinate")
  || bool_decide (action = "coup") || bool_decide (action = "examine").

Definition declarationLog (useInquisitor : bool) (action name : string) (targetName : option string)
  : Engine unit :=
  if decide (action = "foreignAid") then
    addLogToRoom (name +:+ " takes Foreign Aid") "action" (Some "ForeignAid")
  else if decide (action = "tax") then
    addLogToRoom (name +:+ " claims to be the Duke and uses Tax (+3 coins)") "action" (Some "Duke")
  else if decide (action = "assassinate") then
    t ← deref targetName;
    addLogToRoom (name +:+ " claims to be the Assassin and attempts to assassinate " +:+ t)
                 "action" (Some "Assassin")
  else if decide (action = "steal") then
    t ← deref targetName;
    addLogToRoom (name +:+ " claims to be the Captain and attempts to steal from " +:+ t)
                 "action" (Some "Captain")
  else if decide (action = "exchange") then
    let card := if useInquisitor then "Inquisitor" else "Ambassador" in
    addLogToRoom (name +:+ " claims to be the " +:+ card +:+ " and uses Exchange")
                 "action" (Some card)
  else if decide (action = "examine") then
    t ← deref targetName;
    addLogToRoom (name +:+ " claims to be the Inquisitor and examines " +:+ t)
                 "action" (Some "Inquisitor")
  else mret tt.

(** The part of [performAction] after the validation: the action record is
    created and either resolved at once or left waiting for responses. *)
Definition declareAction (player : Player.t) (actionData : ActionData.t) (action : string)
    (targetId : option string) (targetPlayer : option Player.t) : Engine Result :=
  room ← get;
  (* filter blockers based on game mode *)
  let blockers :=
    if ActionData.blockable actionData && Room.useInquisitor room
    then List.filter (λ card, negb (bool_decide (card = "Ambassador"))) <$> ActionData.blocker actionData
    else ActionData.blocker actionData in
  (* clear any existing timer from a previous action *)
  match Room.responseTimeout room with
  | Some h => clearTimeout h;; modify (Room.set_responseTimeout None)
  | None => mret tt
  end;;
  modify (Room.set_actionInProgress (Some
    {| Action.action := action;
       Action.playerId := Player.id player;
       Action.playerName := Player.name player;
       Action.targetId := targetId;
       Action.targetName := Player.name <$> targetPlayer;
       Action.canChallenge := ActionData.challengeable actionData;
       Action.canBlock := ActionData.blockable actionData;
       Action.blocker := blockers;
       Action.responses := ∅;
       Action.phase := Waiting;
       Action.totalResponders := 0;
       Action.respondedCount := 0;
       Action.blockableByTarget := false;
       Action.targetCanBlock := None;
       Action.pausedForDisconnection := false;
       Action.responseTimeout := None;
       Action.blockerId := None;
       Action.blockCard := None |}));;
  declarationLog (Room.useInquisitor room) action (Player.name player) (Player.name <$> targetPlayer);;
  if ActionData.challengeable actionData || ActionData.blockable actionData then
    (* who can respond: every other living, connected player *)
    let eligibleResponders := List.filter (canRespond (Some (Player.id player))) (Room.players room) in
    (if ActionData.blockable actionData && truthy targetId then
       (* only the target can block, anyone can still challenge *)
       setAction (Action.set_blockableByTarget true);;
       setAction (Action.set_targetCanBlock targetId)
     else mret tt);;
    modify (Room.set_pendingResponses (list_to_set (Player.id <$> eligibleResponders)));;
    setAction (Action.set_totalResponders (Z.of_nat (length eligibleResponders)));;
    setAction (Action.set_respondedCount 0);;
    if decide (length eligibleResponders = 0%nat) then
      (* no one can respond (all other players are disconnected): resolve immediately *)
      resolveAction;;
      mret succeeded
    else
      match targetPlayer with
      | Some t =>
          if Player.disconnected t then
            setAction (Action.set_pausedForDisconnection true);;
            addLogToRoom ("Waiting for " +:+ Player.name t
                            +:+ " to reconnect to respond to this action...") "info" None;;
            mret succeeded
          else
            timeoutId ← setTimeout ActionWindow;
            setAction (Action.set_responseTimeout (Some timeoutId));;
            modify (Room.set_responseTimeout (Some timeoutId));;
            mret succeeded
      | None =>
          timeoutId ← setTimeout ActionWindow;
          setAction (Action.set_responseTimeout (Some timeoutId));;
          modify (Room.set_responseTimeout (Some timeoutId));;
          mret succeeded
      end
  else
    (* no responses needed *)
    resolveAction;;
    mret succeeded.

(** [targetId ? getPlayerById(room, targetId) : null] *)
Definition lookupTarget (room : Room.t) (targetId : option string) : option Player.t :=
  if truthy targetId then
    match targetId ≫= getPlayerById room with
    | Some i => Room.players room !! i
    | None => None
    end
  else None.

Definition performAction (socketId action : string) (targetId : option string) : Engine Result :=
  room ← get;
  match getPlayerBySocketId room socketId with
  | None => mret (failed "Player not found")
  | Some i =>
      player ← readP (Some i);
      current ← deref (Room.players room !! Room.currentPlayerIndex room);
      if negb (bool_decide (Player.socketId current = socketId)) then
        mret (failed "Not your turn")
      else if bool_decide (is_Some (Room.actionInProgress room)) then
        mret (failed "Action already in progress")
      else if existsb Player.mustRevealInfluence (Room.players room) then
        mret (failed "Waiting for player to reveal influence")
      else if existsb Player.mustChooseExchange (Room.players room) then
        mret (failed "Waiting for exchange to complete")
      else if existsb Player.mustShowCardToExaminer (Room.players room) then
        mret (failed "Waiting for card to be shown")
      else if existsb Player.mustChooseExamine (Room.players room) then
        mret (failed "Waiting for examination to complete")
      else
        match ACTIONS action with
        | None => mret (failed "Invalid action")
        | Some actionData =>
            if match ActionData.cost actionData with
               | Some cost => bool_decide (Player.coins player < cost)
               | None => false
               end
            then mret (failed "Not enough coins")
            else if bool_decide (Player.coins player >= 10)
                    && negb (bool_decide (action = "coup"))
            then mret (failed "Must coup with 10+ coins")
            else
              let targetPlayer := lookupTarget room targetId in
              if needsTarget action && negb (bool_decide (is_Some targetPlayer))
              then mret (failed "Target required")
              else declareAction player actionData action targetId targetPlayer
        end
  end.

(** ** Challenges and responses *)

Definition findIndex {A : Type} (f : A → bool) (l : list A) : option nat :=
  fst <$> list_find (λ x, f x = true) l.

Definition claimed (card : option Card) (inf : Influence.t) : bool :=
  unrevealed inf && bool_decide (Some (Influence.card inf) = card).

Definition setCard (c : Card) (inf : Influence.t) : Influence.t :=
  Influence.mk c (Influence.revealed inf).

Section Engine.

(** [shuffle n l]: the array [l] after the n-th
    [sort(() => Math.random() - 0.5)] done on the room's deck. *)
Variable shuffle : nat → list Card → list Card.

Definition shuffleRoomDeck : Engine unit :=
  modify (λ room,
    Room.set_shuffles (S (Room.shuffles room))
      (Room.set_deck (shuffle (Room.shuffles room) (Room.deck room)) room)).

(** The claimant shows the claimed card, returns it to the deck and draws a
    new one (in [handleChallenge] and in [challengeBlock]). *)
Definition returnAndRedraw (who : PlayerRef) (card : option Card) : Engine unit :=
  p ← readP who;
  room ← get;
  match findIndex (claimed card) (Player.influences p), card with
  | Some cardIndex, Some c =>
      if (0 <? length (Room.deck room))%nat then
        drawn ← popDeck;
        mutP who (writeSlot (setCard drawn) cardIndex);;
        modify (λ room, Room.set_deck (c :: Room.deck room) room);;
        shuffleRoomDeck;;
        addLogToRoom (Player.name p +:+ " returns the card and draws a new one") "info" None
      else mret tt
  | _, _ => mret tt
  end.

Definition handleChallenge (challengerId : string) : Engine unit :=
  room ← get;
  action ← deref (Room.actionInProgress room);
  let challenger := getPlayerById room challengerId in
  let actor := getPlayerById room (Action.playerId action) in
  (* clear any existing timer since the challenge resolves the action *)
  match Action.responseTimeout action with
  | Some h => clearTimeout h;; setAction (Action.set_responseTimeout None)
  | None => mret tt
  end;;
  c ← readP challenger;
  a ← readP actor;
  addLogToRoom (Player.name c +:+ " challenges " +:+ Player.name a +:+ "!") "challenge" None;;
  actionData ← deref (ACTIONS (Action.action action));
  let card := ActionData.card actionData in
  if holdsCard a card then
    (* challenge failed: the challenger loses an influence *)
    addLogToRoom (Player.name a +:+ " reveals the " +:+ showCard card +:+ "! The challenge fails.")
                 "fail" card;;
    addLogToRoom (Player.name c +:+ " loses an influence") "info" None;;
    mutP challenger (bumpStat "failedChallenges" 1);;
    mutP actor (bumpStat "claimsDefended" 1);;
    loseInfluence challengerId 1 (Some (Action.playerId action));;
    returnAndRedraw actor card;;
    (let kind := Action.action action in
     let targetName := default "undefined" (Action.targetName action) in
     if decide (kind = "tax") then
       addLogToRoom (Player.name a +:+ " successfully uses Tax and takes 3 coins") "success" (Some "Duke")
     else if decide (kind = "steal") then
       addLogToRoom (Player.name a +:+ " successfully steals from " +:+ targetName)
                    "success" (Some "Captain")
     else if decide (kind = "assassinate") then
       addLogToRoom (Player.name a +:+ " successfully assassinates " +:+ targetName)
                    "success" (Some "Assassin")
     else if decide (kind = "exchange") then
       addLogToRoom (Player.name a +:+ " successfully exchanges cards") "success"
                    (Some (if Room.useInquisitor room then "Inquisitor" else "Ambassador"))
     else if decide (kind = "examine") then
       addLogToRoom (Player.name a +:+ " successfully examines " +:+ targetName)
                    "success" (Some "Inquisitor")
     else mret tt);;
    resolveAction
  else
    (* challenge succeeded: the actor was bluffing, the action fails *)
    addLogToRoom (Player.name a +:+ " doesn't have the " +:+ showCard card
                    +:+ "! The challenge succeeds.") "success" card;;
    addLogToRoom (Player.name a +:+ " loses an influence and the action fails") "info" None;;
    mutP challenger (bumpStat "successfulChallenges" 1);;
    mutP actor (bumpStat "bluffsCaught" 1);;
    (if decide (Action.action action = "tax") then mutP actor (bumpStat "taxFailed" 1)
     else if decide (Action.action action = "assassinate")
     then mutP actor (bumpStat "assassinationsFailed" 1)
     else mret tt);;
    loseInfluence (Action.playerId action) 1 (Some challengerId);;
    clearActionAndTimeout;;
    nextTurn.

(** The [pass] branch of [respondToAction]. *)
Definition allPassed : Engine unit :=
  room ← get;
  action ← deref (Room.actionInProgress room);
  match Action.phase action with
  | Block =>
      if decide (size (Room.pendingResponses room) = 0%nat) then
        if negb (existsb (awaitedOffline (Action.blockerId action)) (Room.players room)) then
          (* no disconnected players waiting: the block succeeds *)
          blockStandsStats (Action.blockerId action ≫= getPlayerById room)
                           (getPlayerById room (Action.playerId action))
                           (Action.action action) (Action.blockCard action);;
          (if decide (Action.action action = "foreignAid") then
             addLogToRoom "No one challenges the block. Foreign Aid is blocked!" "success"
                          (Action.blockCard action)
           else
             addLogToRoom "No one challenges the block. The action is blocked!" "success"
                          (Action.blockCard action));;
          clearActionAndTimeout;;
          nextTurn
        else if negb (Action.pausedForDisconnection action) then
          (* still waiting for disconnected players: pause *)
          setAction (Action.set_pausedForDisconnection true);;
          addLogToRoom ("Waiting for " +:+ offlineNames (Action.blockerId action) (Room.players room)
                          +:+ " to reconnect to respond to block...") "info" None;;
          match Action.responseTimeout action with
          | Some h => clearTimeout h;; setAction (Action.set_responseTimeout None)
          | None => mret tt
          end
        else mret tt
      else mret tt
  | Waiting =>
      if decide (size (Room.pendingResponses room) = 0%nat) then
        match lookupTarget room (Action.targetId action) with
        | Some targetPlayer =>
            if Player.disconnected targetPlayer then
              (* target is disconnected: pause and wait *)
              if negb (Action.pausedForDisconnection action) then
                setAction (Action.set_pausedForDisconnection true);;
                addLogToRoom ("Waiting for " +:+ Player.name targetPlayer
                                +:+ " to reconnect to respond to this action...") "info" None;;
                match Action.responseTimeout action with
                | Some h => clearTimeout h;; setAction (Action.set_responseTimeout None)
                | None => mret tt
                end
              else mret tt
            else
              (if decide (Action.action action = "foreignAid") then
                 addLogToRoom "No one blocked Foreign Aid" "info" None
               else mret tt);;
              resolveAction
        | None =>
            (if decide (Action.action action = "foreignAid") then
               addLogToRoom "No one blocked Foreign Aid" "info" None
             else mret tt);;
            resolveAction
        end
      else mret tt
  end.

Definition respondToAction (socketId : string) (response : Response.t) : Engine Result :=
  room ← get;
  match getPlayerBySocketId room socketId, Room.actionInProgress room with
  | Some i, Some action =>
      player ← readP (Some i);
      let me := Player.id player in
      (* verify this player is in the pending responses set *)
      if negb (bool_decide (me ∈ Room.pendingResponses room)) then
        mret (failed "Not eligible to respond")
      else if bool_decide (is_Some (Action.responses action !! me))
              (* [responses] is an object literal too *)
              || bool_decide (me ∈ inheritedKeys) then
        mret (failed "Already responded")
      else if bool_decide (Action.phase action = Waiting)
              && bool_decide (Action.playerId action = me) then
        mret (failed "Cannot respond to your own action")
      else if bool_decide (Action.phase action = Block)
              && bool_decide (Action.blockerId action = Some me) then
        mret (failed "Cannot respond to your own block")
      else if bool_decide (Response.type response = "block")
              && Action.blockableByTarget action
              && negb (bool_decide (Some me = Action.targetCanBlock action)) then
        mret (failed "Only the target can block this action")
      else
        setAction (λ a, Action.set_responses (<[me := response]> (Action.responses a)) a);;
        modify (λ room, Room.set_pendingResponses (Room.pendingResponses room ∖ {[me]}) room);;
        (* update responded count *)
        modify (λ room, Room.set_actionInProgress
          ((λ a, Action.set_respondedCount
                   (Action.totalResponders a - Z.of_nat (size (Room.pendingResponses room))) a)
             <$> Room.actionInProgress room) room);;
        (if decide (Response.type response = "challenge") then handleChallenge me
         else if decide (Response.type response = "block") then
           handleBlock me (Response.blockCard response)
         else if decide (Response.type response = "pass") then allPassed
         else mret tt);;
        mret succeeded
  | _, _ => mret (failed "Invalid response")
  end.

Definition challengeBlock (socketId : string) : Engine Result :=
  room ← get;
  (* [action.blockerId] is read before anything is checked *)
  action ← deref (Room.actionInProgress room);
  let challenger := getPlayerBySocketId room socketId in
  let blocker := Action.blockerId action ≫= getPlayerById room in
  let blockCard := Action.blockCard action in
  if negb (bool_decide (is_Some blocker)) || negb (truthy blockCard) then
    mret (failed "Invalid block challenge")
  else
    c ← readP challenger;
    if bool_decide (Some (Player.id c) = Action.blockerId action) then
      mret (failed "Cannot challenge your own block")
    else
      (* clear any existing timer since the challenge resolves the block *)
      match Action.responseTimeout action with
      | Some h => clearTimeout h;; setAction (Action.set_responseTimeout None)
      | None => mret tt
      end;;
      addLogToRoom (Player.name c +:+ " challenges the block!") "challenge" None;;
      b ← readP blocker;
      let kind := Action.action action in
      (if holdsCard b blockCard then
         (* challenge failed: the blocker had the card *)
         addLogToRoom (Player.name b +:+ " reveals the " +:+ showCard blockCard
                         +:+ "! The block challenge fails.") "fail" blockCard;;
         addLogToRoom (Player.name c +:+ " loses an influence") "info" None;;
         mutP challenger (bumpStat "failedChallenges" 1);;
         mutP blocker (bumpStat "claimsDefended" 1);;
         (if decide (kind = "steal") then mutP blocker (bumpStat "stealsBlocked" 1)
          else if decide (kind = "assassinate") then mutP blocker (bumpStat "contessaSucceeded" 1)
          else if decide (kind = "foreignAid") then mutP blocker (bumpStat "foreignaidblockSucceeded" 1)
          else mret tt);;
         (let originalActor := getPlayerById room (Action.playerId action) in
          if decide (kind = "foreignAid") then mutPIfAny originalActor (bumpStat "foreignaidDenied" 1)
          else if decide (kind = "assassinate")
          then mutPIfAny originalActor (bumpStat "assassinationsFailed" 1)
          else mret tt);;
         loseInfluence (Player.id c) 1 (Action.blockerId action);;
         returnAndRedraw blocker blockCard;;
         (if decide (kind = "foreignAid") then
            addLogToRoom "The block stands. Foreign Aid is blocked!" "success" blockCard
          else
            addLogToRoom "The block stands. The action is blocked!" "success" blockCard);;
         clearActionAndTimeout;;
         nextTurn
       else
         (* challenge succeeded: the blocker was bluffing *)
         addLogToRoom (Player.name b +:+ " doesn't have the " +:+ showCard blockCard
                         +:+ "! The block challenge succeeds.") "success" blockCard;;
         addLogToRoom (Player.name b +:+ " loses an influence and the action proceeds") "info" None;;
         mutP challenger (bumpStat "successfulChallenges" 1);;
         mutP blocker (bumpStat "bluffsCaught" 1);;
         (if bool_decide (kind = "assassinate") && bool_decide (blockCard = Some "Contessa")
          then mutP blocker (bumpStat "contessaFailed" 1)
          else if bool_decide (kind = "foreignAid") && bool_decide (blockCard = Some "Duke")
          then mutP blocker (bumpStat "foreignaidblockFailed" 1)
          else mret tt);;
         loseInfluence (Player.id b) 1 (Some (Player.id c));;
         (if decide (kind = "foreignAid") then
            addLogToRoom "Foreign Aid proceeds" "success" (Some "ForeignAid")
          else if decide (kind = "assassinate") then
            addLogToRoom "The assassination proceeds" "success" (Some "Assassin")
          else if decide (kind = "steal") then
            addLogToRoom "The steal proceeds" "success" (Some "Captain")
          else mret tt);;
         resolveAction);;
      mret succeeded.

(** ** Player obligations *)

(** [l.filter((_, idx) => f(idx))] *)
Definition filterByIndex {A : Type} (f : nat → bool) (l : list A) : list A :=
  omap (λ '(i, x), if f i then Some x else None) (imap pair l).

Definition exchangeOffer (exchangeCards : list Card) : list Influence.t :=
  (λ card, Influence.mk card false) <$> exchangeCards.

(** The [n] objects that [exchangeCards.map(card => ({ card, revealed: false }))]
    creates: they are new, none of them is an object of the hand. *)
Definition newObjects (objects : list nat) (n : nat) : list nat :=
  seq (S (max_list objects)) n.

(** [keepIndices] is the array of numbers the client sent. *)
Definition completeExchange (playerId : string) (keepIndices : list Z) : Engine Result :=
  room ← get;
  let ref := getPlayerById room playerId in
  match ref ≫= (Room.players room !!.) with
  | None => mret (failed "Not in exchange mode")
  | Some player =>
      if negb (Player.mustChooseExchange player) then mret (failed "Not in exchange mode")
      else
        exchangeCards ← deref (Player.exchangeCards player);
        (* keep the same number as current influences *)
        let cardsToKeep := length (Player.influences player) in
        if negb (bool_decide (length keepIndices = cardsToKeep)) then
          mret (failed ("Must choose exactly " +:+ pretty cardsToKeep +:+ " cards to keep"))
        else
          let allCards := (Player.influences player ++ exchangeOffer exchangeCards)%list in
          let allObjects :=
            (Player.objects player
               ++ newObjects (Player.objects player) (length exchangeCards))%list in
          (* validate indices *)
          if existsb (λ idx, bool_decide (idx < 0) || bool_decide (idx >= Z.of_nat (length allCards)))
                     keepIndices
          then mret (failed "Invalid card indices")
          else
            (* every index is in range here, so no lookup is undefined *)
            let keptCards := omap (λ idx, allCards !! Z.to_nat idx) keepIndices in
            let keptObjects := omap (λ idx, allObjects !! Z.to_nat idx) keepIndices in
            (* return the rest to the deck (just the card names) *)
            let returnedCards :=
              Influence.card <$>
                filterByIndex (λ idx, negb (bool_decide (Z.of_nat idx ∈ keepIndices))) allCards in
            modify (λ room, Room.set_deck (Room.deck room ++ returnedCards) room);;
            shuffleRoomDeck;;
            mutP ref (Player.set_influences keptCards);;
            mutP ref (Player.set_objects keptObjects);;
            mutP ref (Player.set_exchangeCards None);;
            mutP ref (Player.set_mustChooseExchange false);;
            mutP ref (bumpStat "influenceExchanged" 1);;
            addLogToRoom (Player.name player +:+ " completes the exchange") "success"
                         (Some (if Room.useInquisitor room then "Inquisitor" else "Ambassador"));;
            nextTurn;;
            mret succeeded
  end.

Definition showCardToExaminer (playerId : string) (cardIndex : Z) : Engine Result :=
  room ← get;
  let ref := getPlayerById room playerId in
  match ref ≫= (Room.players room !!.) with
  | None => mret (failed "Not required to show card")
  | Some player =>
      if negb (Player.mustShowCardToExaminer player) then mret (failed "Not required to show card")
      else if bool_decide (cardIndex < 0)
              || bool_decide (cardIndex >= Z.of_nat (length (Player.influences player)))
      then mret (failed "Invalid card index")
      else
        influence ← deref (Player.influences player !! Z.to_nat cardIndex);
        if Influence.revealed influence then mret (failed "Cannot show revealed card")
        else
          (* store the shown card on the examiner *)
          let examiner := Player.examinedBy player ≫= getPlayerById room in
          mutPIfAny examiner (Player.set_examinedCard (Some (Influence.card influence)));;
          mutPIfAny examiner (Player.set_examinedCardIndex (Some (Z.to_nat cardIndex)));;
          mutP ref (Player.set_mustShowCardToExaminer false);;
          mutP ref (Player.set_examinedBy None);;
          e ← readP examiner;
          addLogToRoom (Player.name player +:+ " shows a card to " +:+ Player.name e)
                       "info" (Some "Inquisitor");;
          mret succeeded
  end.

Fixpoint insertByPlacement (e : Elimination.t) (l : list Elimination.t) : list Elimination.t :=
  match l with
  | [] => [e]
  | x :: l' =>
      if (Elimination.placement e <=? Elimination.placement x)%Z then e :: l
      else x :: insertByPlacement e l'
  end.

(** [eliminationOrder.sort((a, b) => a.placement - b.placement)], a stable
    sort. *)
Definition sortByPlacement (l : list Elimination.t) : list Elimination.t :=
  foldr insertByPlacement [] l.

(** [stats?.[k] || 0] *)
Definition statOf (p : Player.t) (k : string) : Z :=
  default 0 (Player.gameStats p ≫= (.!! k)).

Definition eliminationEntry (p : Player.t) (placement : Z) : Elimination.t :=
  {| Elimination.playerId := Player.id p;
     Elimination.playerName := Player.name p;
     Elimination.coinsEarned := statOf p "coinsEarned";
     Elimination.eliminations := statOf p "playersEliminated";
     Elimination.placement := placement |}.

(** The game ends when a single player is left alive; saving the results is
    the database's part. *)
Definition checkWinCondition : Engine unit :=
  room ← get;
  match List.filter Player.alive (Room.players room) with
  | [winner] =>
      modify (Room.set_winnerId (Some (Player.id winner)));;
      modify (λ room, Room.set_eliminationOrder
                        (sortByPlacement (Room.eliminationOrder room ++ [eliminationEntry winner 1]))
                        room);;
      addLogToRoom (Player.name winner +:+ " wins the game!") "success" None;;
      modify (Room.set_state Ended)
  | _ => mret tt
  end.

Definition reveal (inf : Influence.t) : Influence.t := Influence.mk (Influence.card inf) true.

Definition revealInfluence (playerId : string) (cardIndex : Z) : Engine Result :=
  room ← get;
  let ref := getPlayerById room playerId in
  match ref ≫= (Room.players room !!.) with
  | None => mret (failed "Not required to reveal influence")
  | Some player =>
      if negb (Player.mustRevealInfluence player) then
        mret (failed "Not required to reveal influence")
      else if bool_decide (cardIndex < 0)
              || bool_decide (cardIndex >= Z.of_nat (length (Player.influences player)))
      then mret (failed "Invalid card index")
      else
        influence ← deref (Player.influences player !! Z.to_nat cardIndex);
        if Influence.revealed influence then mret (failed "Card already revealed")
        else
          mutP ref (writeSlot reveal (Z.to_nat cardIndex));;
          mutP ref (λ p, Player.set_influencesToLose
                           ((if decide (Player.influencesToLose p = 0) then 1
                             else Player.influencesToLose p) - 1) p);;
          mutP ref (bumpStat "influencesLost" 1);;
          addLogToRoom (Player.name player +:+ " reveals and loses their " +:+ Influence.card influence)
                       "info" (Some (Influence.card influence));;
          p ← readP ref;
          if negb (existsb unrevealed (Player.influences p)) then
            mutP ref (Player.set_alive false);;
            mutP ref (Player.set_mustRevealInfluence false);;
            mutP ref (Player.set_influencesToLose 0);;
            room ← get;
            (* elimination order: lower placement = eliminated later *)
            let alivePlayers :=
              length (List.filter (λ q, Player.alive q
                                        && negb (bool_decide (Player.id q = Player.id p)))
                                  (Room.players room)) in
            q ← readP ref;
            modify (λ room, Room.set_eliminationOrder
                              (Room.eliminationOrder room
                                 ++ [eliminationEntry q (Z.of_nat alivePlayers + 1)]) room);;
            (* who eliminated this player *)
            (if truthy (Player.influenceLossCausedBy p) then
               mutPIfAny (Player.influenceLossCausedBy p ≫= getPlayerById room)
                         (bumpStat "playersEliminated" 1)
             else mret tt);;
            addLogToRoom (Player.name p +:+ " is eliminated from the game!") "info" None;;
            checkWinCondition;;
            mret succeeded
          else if bool_decide (Player.influencesToLose p > 0) then
            (* more influences need to be lost *)
            mret succeeded
          else
            mutP ref (Player.set_mustRevealInfluence false);;
            room ← get;
            (if negb (existsb Player.mustRevealInfluence (Room.players room)) then
               (* all reveals complete, continue game *)
               modify (Room.set_actionInProgress None);;
               nextTurn
             else mret tt);;
            mret succeeded
  end.

(** ** Disconnection *)

(** What the [disconnect] handler does to one room when the socket
    [socketId] goes away. The forfeit timer it starts for a player of a
    running game lives in a table of its own ([disconnectionTimers]) and is
    not part of the room. *)
Definition onDisconnect (socketId : string) : Engine unit :=
  room ← get;
  match getPlayerBySocketId room socketId with
  | Some playerIndex =>
      player ← readP (Some playerIndex);
      if bool_decide (Room.state room = Playing) && negb (Player.hasLeft player) then
        (* start the grace period for reconnection *)
        mutP (Some playerIndex) (Player.set_disconnected true);;
        addLogToRoom (Player.name player +:+ " disconnected. Waiting 30 seconds to reconnect...")
                     "info" None
      else if bool_decide (Room.state room = Playing) && Player.hasLeft player then
        (* already left during an active game: stays visible *)
        mret tt
      else
        (* in the lobby, just remove them *)
        modify (λ room, Room.set_players (delete playerIndex (Room.players room)) room)
  | None =>
      match getSpectatorBySocketId room socketId with
      | Some spectatorIndex =>
          modify (λ room, Room.set_spectators (delete spectatorIndex (Room.spectators room)) room)
      | None => mret tt
      end
  end.

End Engine.

(** ** View projection *)

(** A card as a client sees it: [{card, revealed}], or [{revealed: false}]
    with no [card] property for a face-down card. *)
Module InfluenceView.
Record t := mk { card : option Card; revealed : bool }.
End InfluenceView.

(** An element of [players] in the projected state. The account fields
    ([username], [isGuest], [userId], [stats]) are copied from the identity
    provider's record and are left out. *)
Module PlayerView.
Record t := mk {
  id : string;
  name : string;
  coins : Z;
  influenceCount : nat;
  disconnected : bool;
  hasLeft : bool;
  influences : list InfluenceView.t;
  alive : bool;
  mustRevealInfluence : bool;
  influencesToLose : Z;
  mustChooseExchange : bool;
  mustChooseExamine : bool;
  mustShowCardToExaminer : bool;
  examineTargetId : option string;
  examinedCard : option Card;
  exchangeCards : option (list Card);
  isMe : bool
}.
End PlayerView.

Module SpectatorView.
Record t := mk { id : string; name : string; isMe : bool }.
End SpectatorView.

Module GameState.
Record t := mk {
  roomCode : string;
  state : RoomState;
  useInquisitor : bool;
  allowSpectators : bool;
  chatMode : string;
  hasPassword : bool;
  ranked : bool;
  anonymousMode : bool;
  deckSize : nat;
  isSpectator : bool;
  players : list PlayerView.t;
  spectators : list SpectatorView.t;
  currentPlayerIndex : nat;
  currentPlayerId : option string;
  actionInProgress : option Action.t;
  gameLog : list LogEntry.t;
  myPlayerId : option string
}.
End GameState.

Definition faceUp (inf : Influence.t) : InfluenceView.t :=
  InfluenceView.mk (Some (Influence.card inf)) (Influence.revealed inf).

Definition faceDown : InfluenceView.t := InfluenceView.mk None false.

(** [inf.revealed ? inf : { revealed: false }] *)
Definition hideUnrevealed (inf : Influence.t) : InfluenceView.t :=
  if Influence.revealed inf then faceUp inf else faceDown.

Definition visibleLog (chatMode : string) (isSpectator : bool) (log : LogEntry.t) : bool :=
  if negb (bool_decide (LogEntry.type log = "chat")) then true
  else if bool_decide (chatMode = "none") then false
  else if bool_decide (chatMode = "unified") then true
  else if bool_decide (chatMode = "separate") then
    if isSpectator then true
    else bool_decide (LogEntry.isSpectator log = Some false)
  else true.

Definition projectPlayer (room : Room.t) (socketId : string) (isSpectator : bool) (p : Player.t)
  : PlayerView.t :=
  let mine := bool_decide (Player.socketId p = socketId) && negb isSpectator in
  {| PlayerView.id := Player.id p;
     PlayerView.name :=
       match Room.anonymousMode room, Room.state room, Player.anonymousName p with
       | true, Playing, Some anonymous =>
           if decide (anonymous = "") then Player.name p else anonymous
       | _, _, _ => Player.name p
       end;
     PlayerView.coins := Player.coins p;
     PlayerView.influenceCount := length (Player.influences p);
     PlayerView.disconnected := Player.disconnected p;
     PlayerView.hasLeft := Player.hasLeft p;
     (* spectators can see all cards, players can only see their own cards *)
     PlayerView.influences :=
       if mine || isSpectator then faceUp <$> Player.influences p
       else hideUnrevealed <$> Player.influences p;
     PlayerView.alive := Player.alive p;
     PlayerView.mustRevealInfluence := Player.mustRevealInfluence p;
     PlayerView.influencesToLose := Player.influencesToLose p;
     PlayerView.mustChooseExchange := Player.mustChooseExchange p;
     PlayerView.mustChooseExamine := Player.mustChooseExamine p;
     PlayerView.mustShowCardToExaminer := Player.mustShowCardToExaminer p;
     PlayerView.examineTargetId := Player.examineTargetId p;
     PlayerView.examinedCard := if mine then Player.examinedCard p else None;
     PlayerView.exchangeCards := if mine then Player.exchangeCards p else None;
     PlayerView.isMe := mine |}.

Definition getPublicGameState (room : Room.t) (socketId : string) (isSpectator : bool)
  : GameState.t :=
  let player := getPlayerBySocketId room socketId ≫= (Room.players room !!.) in
  {| GameState.roomCode := Room.code room;
     GameState.state := Room.state room;
     GameState.useInquisitor := Room.useInquisitor room;
     GameState.allowSpectators := Room.allowSpectators room;
     GameState.chatMode := Room.chatMode room;
     GameState.hasPassword := truthy (Room.password room);
     GameState.ranked := Room.ranked room;
     GameState.anonymousMode := Room.anonymousMode room;
     GameState.deckSize := length (Room.deck room);
     GameState.isSpectator := isSpectator;
     GameState.players := projectPlayer room socketId isSpectator <$> Room.players room;
     GameState.spectators :=
       (λ s, SpectatorView.mk (Spectator.id s) (Spectator.name s)
               (bool_decide (Spectator.socketId s = socketId) && isSpectator))
         <$> Room.spectators room;
     GameState.currentPlayerIndex := Room.currentPlayerIndex room;
     GameState.currentPlayerId := Player.id <$> Room.players room !! Room.currentPlayerIndex room;
     (* the timeout reference is removed before sending *)
     GameState.actionInProgress := Action.set_responseTimeout None <$> Room.actionInProgress room;
     GameState.gameLog := List.filter (visibleLog (Room.chatMode room) isSpectator) (Room.gameLog room);
     GameState.myPlayerId := Player.id <$> player |}.

(** The quantity of the card-conservation invariant: the deck, every
    player's influence slots, and the cards of a pending exchange offer. *)
Definition cardsHeld (p : Player.t) : nat :=
  (length (Player.influences p) + length (default [] (Player.exchangeCards p)))%nat.

Definition totalCards (room : Room.t) : nat :=
  (length (Room.deck room) + sum_list (cardsHeld <$> Room.players room))%nat.

(** ** Concrete rooms

    The states used as test inputs below: players as [startGame] deals them
    (two face-down cards, two coins, statistics at their initial values). *)

Definition initialStats : gmap string Z :=
  list_to_map
    [("coinsEarned", 2); ("coinsSpent", 0); ("coinsLost", 0); ("coinsStolen", 0);
     ("influencesLost", 0); ("actionsPerformed", 0); ("incomeTaken", 0);
     ("coupsEnacted", 0); ("playersEliminated", 0);
     ("successfulChallenges", 0); ("failedChallenges", 0); ("claimsDefended", 0);
     ("bluffsCaught", 0); ("bluffsSucceeded", 0);
     ("taxSucceeded", 0); ("taxFailed", 0); ("foreignaidAccepted", 0);
     ("foreignaidDenied", 0); ("foreignaidblockSucceeded", 0);
     ("foreignaidblockFailed", 0); ("stealsBlocked", 0);
     ("assassinationsSucceeded", 0); ("assassinationsFailed", 0);
     ("contessaSucceeded", 0); ("contessaFailed", 0);
     ("influenceExchanged", 0); ("influenceExamined", 0); ("influenceForced", 0)].

Definition dealt (id name : string) (card1 card2 : Card) : Player.t :=
  {| Player.id := id; Player.socketId := "socket-" +:+ id; Player.name := name;
     Player.anonymousName := None; Player.coins := 2;
     Player.influences := [Influence.mk card1 false; Influence.mk card2 false];
     Player.alive := true; Player.disconnected := false; Player.hasLeft := false;
     Player.mustRevealInfluence := false; Player.influencesToLose := 0;
     Player.influenceLossCausedBy := None;
     Player.mustChooseExchange := false; Player.exchangeCards := None;
     Player.mustChooseExamine := false; Player.mustShowCardToExaminer := false;
     Player.examineTargetId := None; Player.examinedBy := None;
     Player.examinedCard := None; Player.examinedCardIndex := None;
     Player.gameStats := Some initialStats; Player.objects := [0; 1]%nat |}.

Definition playing (useInquisitor : bool) (players : list Player.t) (deck : list Card) : Room.t :=
  {| Room.code := "ROOM01"; Room.state := Playing; Room.players := players;
     Room.spectators := []; Room.deck := deck; Room.currentPlayerIndex := 0;
     Room.actionInProgress := None; Room.gameLog := []; Room.pendingResponses := ∅;
     Room.useInquisitor := useInquisitor; Room.allowSpectators := true;
     Room.chatMode := "separate"; Room.password := None; Room.ranked := true;
     Room.anonymousMode := false; Room.responseTimeout := None;
     Room.timers := ∅; Room.nextTimer := 0; Room.shuffles := 0;
     Room.eliminationOrder := []; Room.winnerId := None |}.

Definition alice : Player.t := dealt "a" "Alice" "Duke" "Captain".
Definition bob : Player.t := dealt "b" "Bob" "Contessa" "Assassin".
Definition carol : Player.t := dealt "c" "Carol" "Ambassador" "Duke".

(** Two players, the eleven other cards in the deck. *)
Definition duel : Room.t :=
  playing false [alice; bob]
    ["Duke"; "Duke"; "Assassin"; "Assassin"; "Captain"; "Captain";
     "Ambassador"; "Ambassador"; "Ambassador"; "Contessa"; "Contessa"].

(** Three players. *)
Definition trio : Room.t :=
  playing false [alice; bob; carol]
    ["Duke"; "Assassin"; "Assassin"; "Captain"; "Captain";
     "Ambassador"; "Ambassador"; "Contessa"; "Contessa"].

Definition pass : Response.t := Response.mk "pass" None.
Definition challenge : Response.t := Response.mk "challenge" None.
Definition block (card : Card) : Response.t := Response.mk "block" (Some card).

(** Lighter test rooms: the same deals as [duel] and [trio], the players
    without a statistics record (as they are before [startGame] creates
    it; every update of the statistics is guarded by its presence). *)
Definition seated (p : Player.t) : Player.t := Player.set_gameStats None p.

Definition table2 : Room.t := playing false [seated alice; seated bob] (Room.deck duel).

Definition table3 : Room.t :=
  playing false [seated alice; seated bob; seated carol] (Room.deck trio).

(** A deterministic stand-in for the random sort. *)
Definition noShuffle : nat → list Card → list Card := λ _ deck, deck.

(** * Properties *)

(** ** The monad *)

Lemma bind_Done {A B : Type} (m : Engine A) (f : A → Engine B) r a r1 :
  m r = Done a r1 → (m ≫= f) r = f a r1.
Proof. unfold mbind, Engine_bind. by intros ->. Qed.

Lemma bind_Fault {A B : Type} (m : Engine A) (f : A → Engine B) r r1 :
  m r = Fault r1 → (m ≫= f) r = Fault r1.
Proof. unfold mbind, Engine_bind. by intros ->. Qed.

Lemma bind_Done_inv {A B : Type} (m : Engine A) (f : A → Engine B) r b r' :
  (m ≫= f) r = Done b r' → ∃ a r1, m r = Done a r1 ∧ f a r1 = Done b r'.
Proof. unfold mbind, Engine_bind. destruct (m r); [eauto | discriminate]. Qed.

(** ** Frames: what an operation leaves alone

    A frame is a view of the room, made of a per-player part [pproj] and a
    room part [rproj], that no elementary update of the listed fields
    changes. [keeps] says that an engine computation leaves the view as it
    found it, whether it returns or throws. *)

Class Frame {Y Z : Type} (pproj : Player.t → Y) (rproj : Room.t → Z) : Prop := {
  frame_gameLog v r : rproj (Room.set_gameLog v r) = rproj r;
  frame_timers v r : rproj (Room.set_timers v r) = rproj r;
  frame_actionInProgress v r : rproj (Room.set_actionInProgress v r) = rproj r;
  frame_currentPlayerIndex v r : rproj (Room.set_currentPlayerIndex v r) = rproj r;
  frame_responseTimeout v r : rproj (Room.set_responseTimeout v r) = rproj r;
  frame_deck v r : rproj (Room.set_deck v r) = rproj r;
  frame_shuffles v r : rproj (Room.set_shuffles v r) = rproj r;
  frame_players v r : rproj (Room.set_players v r) = rproj r;
  frame_influences v p : pproj (Player.set_influences v p) = pproj p;
  frame_mustRevealInfluence v p : pproj (Player.set_mustRevealInfluence v p) = pproj p;
  frame_influencesToLose v p : pproj (Player.set_influencesToLose v p) = pproj p;
  frame_influenceLossCausedBy v p : pproj (Player.set_influenceLossCausedBy v p) = pproj p;
  frame_mustChooseExchange v p : pproj (Player.set_mustChooseExchange v p) = pproj p;
  frame_exchangeCards v p : pproj (Player.set_exchangeCards v p) = pproj p;
  frame_mustChooseExamine v p : pproj (Player.set_mustChooseExamine v p) = pproj p;
  frame_mustShowCardToExaminer v p : pproj (Player.set_mustShowCardToExaminer v p) = pproj p;
  frame_examineTargetId v p : pproj (Player.set_examineTargetId v p) = pproj p;
  frame_examinedBy v p : pproj (Player.set_examinedBy v p) = pproj p;
  frame_gameStats v p : pproj (Player.set_gameStats v p) = pproj p
}.

(** A frame that coin movements do not disturb either. *)
Class CoinFrame {Y : Type} (pproj : Player.t → Y) : Prop :=
  frame_coins v p : pproj (Player.set_coins v p) = pproj p.

(** A frame that opening a response window does not disturb. *)
Class WindowFrame {Z : Type} (rproj : Room.t → Z) : Prop := {
  frame_pendingResponses v r : rproj (Room.set_pendingResponses v r) = rproj r;
  frame_nextTimer v r : rproj (Room.set_nextTimer v r) = rproj r
}.

Definition view {Y Z : Type} (pproj : Player.t → Y) (rproj : Room.t → Z) (r : Room.t) : list Y * Z :=
  (pproj <$> Room.players r, rproj r).

Definition keeps {Y Z A : Type} (pproj : Player.t → Y) (rproj : Room.t → Z) (m : Engine A) : Prop :=
  ∀ r, view pproj rproj (roomOf (m r)) = view pproj rproj r.

Section Frames.
Context {Y Z : Type} (pproj : Player.t → Y) (rproj : Room.t → Z) `{!Frame pproj rproj}.

Local Abbreviation keeps := (keeps pproj rproj).
Local Abbreviation view := (view pproj rproj).

Lemma keeps_ret {A : Type} (a : A) : keeps (mret a).
Proof. by intros r. Qed.

Lemma keeps_get : keeps get.
Proof. by intros r. Qed.

Lemma keeps_throw {A : Type} : keeps (@throw A).
Proof. by intros r. Qed.

Lemma keeps_deref {A : Type} (o : option A) : keeps (deref o).
Proof. by destruct o. Qed.

Lemma keeps_bind {A B : Type} (m : Engine A) (f : A → Engine B) :
  keeps m → (∀ a, keeps (f a)) → keeps (m ≫= f).
Proof.
  intros Hm Hf r. specialize (Hm r). unfold mbind, Engine_bind.
  destruct (m r) as [a r1|r1]; simpl in *; [|done].
  by rewrite Hf.
Qed.

Lemma keeps_modify (f : Room.t → Room.t) :
  (∀ r, view (f r) = view r) → keeps (modify f).
Proof. intros Hf r. apply Hf. Qed.

Lemma keeps_readP ref : keeps (readP ref).
Proof.
  unfold readP. apply keeps_bind; [apply keeps_deref|]. intros i.
  apply keeps_bind; [apply keeps_get|]. intros r. apply keeps_deref.
Qed.

Lemma keeps_mutP ref (f : Player.t → Player.t) :
  (∀ p, pproj (f p) = pproj p) → keeps (mutP ref f).
Proof.
  intros Hf. unfold mutP. apply keeps_bind; [apply keeps_deref|]. intros i.
  apply keeps_modify. intros r. unfold view. simpl. rewrite frame_players. f_equal.
  apply list_eq. intros j. rewrite !list_lookup_fmap.
  destruct (decide (i = j)) as [->|Hne].
  - rewrite list_lookup_alter_eq. destruct (Room.players r !! j); simpl; [|done].
    by rewrite Hf.
  - by rewrite list_lookup_alter_ne.
Qed.

Lemma keeps_mutPIfAny ref (f : Player.t → Player.t) :
  (∀ p, pproj (f p) = pproj p) → keeps (mutPIfAny ref f).
Proof. intros Hf. destruct ref; [by apply keeps_mutP | apply keeps_ret]. Qed.

Lemma frame_bumpStat k n p : pproj (bumpStat k n p) = pproj p.
Proof. apply frame_gameStats. Qed.

Lemma keeps_addLogToRoom message type character : keeps (addLogToRoom message type character).
Proof. apply keeps_modify. intros r. unfold view. simpl. by rewrite frame_gameLog. Qed.

Lemma keeps_clearTimeout h : keeps (clearTimeout h).
Proof. apply keeps_modify. intros r. unfold view. simpl. by rewrite frame_timers. Qed.

Lemma keeps_setAction f : keeps (setAction f).
Proof. apply keeps_modify. intros r. unfold view. simpl. by rewrite frame_actionInProgress. Qed.

Lemma keeps_set_actionInProgress v : keeps (modify (Room.set_actionInProgress v)).
Proof. apply keeps_modify. intros r. unfold view. simpl. by rewrite frame_actionInProgress. Qed.

Lemma keeps_set_responseTimeout v : keeps (modify (Room.set_responseTimeout v)).
Proof. apply keeps_modify. intros r. unfold view. simpl. by rewrite frame_responseTimeout. Qed.

Lemma keeps_set_currentPlayerIndex v : keeps (modify (Room.set_currentPlayerIndex v)).
Proof. apply keeps_modify. intros r. unfold view. simpl. by rewrite frame_currentPlayerIndex. Qed.

Lemma keeps_popDeck : keeps popDeck.
Proof.
  unfold popDeck. apply keeps_bind; [apply keeps_get|]. intros r.
  apply keeps_bind; [apply keeps_deref|]. intros c.
  apply keeps_bind; [|intros; apply keeps_ret].
  apply keeps_modify. intros r'. unfold view. simpl. by rewrite frame_deck.
Qed.

End Frames.

(** One step of a structural proof of [keeps]: split binds and branches,
    close the elementary updates with the frame. *)
Ltac frame_player :=
  intros ?; cbv beta; unfold addCoins, bumpStat, writeSlot;
  repeat first [ rewrite frame_gameStats
               | rewrite frame_influences | rewrite frame_mustRevealInfluence
               | rewrite frame_influencesToLose | rewrite frame_influenceLossCausedBy
               | rewrite frame_mustChooseExchange | rewrite frame_exchangeCards
               | rewrite frame_mustChooseExamine | rewrite frame_mustShowCardToExaminer
               | rewrite frame_examineTargetId | rewrite frame_examinedBy
               | rewrite frame_coins ];
  reflexivity.

Create HintDb keeps discriminated.

Ltac frame_room :=
  intros ?; unfold view; f_equal; try reflexivity;
  repeat first [ rewrite frame_gameLog | rewrite frame_timers
               | rewrite frame_actionInProgress | rewrite frame_currentPlayerIndex
               | rewrite frame_responseTimeout | rewrite frame_deck
               | rewrite frame_shuffles | rewrite frame_players
               | rewrite frame_pendingResponses | rewrite frame_nextTimer ];
  reflexivity.

Ltac keeps_step :=
  first
    [ solve [typeclasses eauto]
    | apply keeps_ret | apply keeps_get | apply keeps_throw | apply keeps_deref
    | apply keeps_readP
    | apply keeps_addLogToRoom
    | apply keeps_clearTimeout
    | apply keeps_setAction
    | apply keeps_popDeck
    | apply keeps_mutP; [typeclasses eauto .. | frame_player]
    | apply keeps_mutPIfAny; [typeclasses eauto .. | frame_player]
    | solve [eauto 2 with keeps typeclass_instances]
    | apply keeps_modify; frame_room
    | apply keeps_bind; [| intros ?]
    | progress cbv zeta
    | match goal with
      | |- keeps _ _ (if ?b then _ else _) => destruct b
      | |- keeps _ _ (match ?x with _ => _ end) => destruct x
      end ].

Ltac keeps_auto := repeat keeps_step.

Section FrameLemmas.
Context {Y Z : Type} (pproj : Player.t → Y) (rproj : Room.t → Z) `{!Frame pproj rproj}.

Local Abbreviation keeps := (keeps pproj rproj).

Lemma keeps_clearActionAndTimeout : keeps clearActionAndTimeout.
Proof. unfold clearActionAndTimeout. keeps_auto. Qed.

Lemma keeps_nextTurn : keeps nextTurn.
Proof. unfold nextTurn. keeps_auto. Qed.

Lemma keeps_loseInfluence playerId count causedBy : keeps (loseInfluence playerId count causedBy).
Proof. unfold loseInfluence. keeps_auto. Qed.

Lemma keeps_blockStandsStats blocker originalActor actionName blockCard :
  keeps (blockStandsStats blocker originalActor actionName blockCard).
Proof. unfold blockStandsStats. keeps_auto. Qed.

End FrameLemmas.

#[global] Hint Resolve keeps_clearActionAndTimeout keeps_nextTurn keeps_loseInfluence
  keeps_blockStandsStats : keeps.

Section MoreFrameLemmas.
Context {Y Z : Type} (pproj : Player.t → Y) (rproj : Room.t → Z) `{!Frame pproj rproj}.
Variable shuffle : nat → list Card → list Card.

Local Abbreviation keeps := (keeps pproj rproj).

Lemma keeps_shuffleRoomDeck : keeps (shuffleRoomDeck shuffle).
Proof. unfold shuffleRoomDeck. keeps_auto. Qed.

Lemma keeps_returnAndRedraw who card : keeps (returnAndRedraw shuffle who card).
Proof. unfold returnAndRedraw. pose proof keeps_shuffleRoomDeck. keeps_auto. Qed.

Lemma keeps_blockWindowElapsed actionName blockCard :
  keeps (blockWindowElapsed actionName blockCard).
Proof. unfold blockWindowElapsed. keeps_auto. Qed.

Lemma keeps_setTimeout `{!WindowFrame rproj} cb : keeps (setTimeout cb).
Proof. unfold setTimeout. keeps_auto. Qed.

Lemma keeps_handleBlock `{!WindowFrame rproj} blockerId blockCard :
  keeps (handleBlock blockerId blockCard).
Proof. unfold handleBlock. pose proof keeps_setTimeout. keeps_auto. Qed.

Lemma keeps_applyEffect `{!CoinFrame pproj} action actor target :
  keeps (applyEffect action actor target).
Proof. unfold applyEffect. keeps_auto. Qed.

Lemma keeps_resolveAction `{!CoinFrame pproj} : keeps resolveAction.
Proof. unfold resolveAction. pose proof keeps_applyEffect. keeps_auto. Qed.

Lemma keeps_allPassed `{!CoinFrame pproj} : keeps allPassed.
Proof. unfold allPassed. pose proof keeps_resolveAction. keeps_auto. Qed.

End MoreFrameLemmas.

#[global] Hint Resolve keeps_shuffleRoomDeck keeps_returnAndRedraw keeps_blockWindowElapsed
  keeps_setTimeout keeps_handleBlock keeps_applyEffect keeps_resolveAction keeps_allPassed
  : keeps.

(** The two frames used below: the coin balances, and the identities of
    the seats together with the set of players still owed a response. *)
Definition coinsOf (r : Room.t) : list Z := Player.coins <$> Room.players r.

Definition seat (p : Player.t) : string * string := (Player.id p, Player.socketId p).

#[global] Instance coins_frame : Frame Player.coins (λ _, tt).
Proof. by split. Qed.

#[global] Instance coins_window_frame : WindowFrame (λ _ : Room.t, tt).
Proof. by split. Qed.

#[global] Instance seat_frame : Frame seat Room.pendingResponses.
Proof. by split. Qed.

#[global] Instance seat_coin_frame : CoinFrame seat.
Proof. by intros v p. Qed.

Lemma keeps_coinsOf {A : Type} (m : Engine A) r :
  keeps Player.coins (λ _, tt) m → coinsOf (roomOf (m r)) = coinsOf r.
Proof. intros H. specialize (H r). unfold view in H. by simplify_eq. Qed.

(** ** Symbolic execution *)

Lemma bind_get {B : Type} (f : Room.t → Engine B) r : (get ≫= f) r = f r r.
Proof. reflexivity. Qed.

Lemma bind_ret {A B : Type} (a : A) (f : A → Engine B) r : (mret a ≫= f) r = f a r.
Proof. reflexivity. Qed.

Lemma bind_modify {B : Type} (g : Room.t → Room.t) (f : unit → Engine B) r :
  (modify g ≫= f) r = f tt (g r).
Proof. reflexivity. Qed.

Lemma bind_deref_Some {A B : Type} (a : A) (f : A → Engine B) r :
  (deref (Some a) ≫= f) r = f a r.
Proof. reflexivity. Qed.

Lemma bind_deref_None {A B : Type} (f : A → Engine B) r :
  (deref None ≫= f) r = Fault r.
Proof. reflexivity. Qed.

Lemma bind_assoc {A B C : Type} (m : Engine A) (f : A → Engine B) (g : B → Engine C) r :
  ((m ≫= f) ≫= g) r = (m ≫= λ a, f a ≫= g) r.
Proof. unfold mbind, Engine_bind. by destruct (m r). Qed.

Lemma readP_Some i p r : Room.players r !! i = Some p → readP (Some i) r = Done p r.
Proof. intros H. unfold readP. rewrite bind_deref_Some, bind_get, H. reflexivity. Qed.

Lemma readP_None i r : Room.players r !! i = None → readP (Some i) r = Fault r.
Proof. intros H. unfold readP. rewrite bind_deref_Some, bind_get, H. reflexivity. Qed.

Lemma mutP_Some i f r :
  mutP (Some i) f r = Done tt (Room.set_players (alter f i (Room.players r)) r).
Proof. reflexivity. Qed.

(** [find] returns an element of the array. *)
Lemma getPlayerBySocketId_Some r socketId i :
  getPlayerBySocketId r socketId = Some i →
  ∃ p, Room.players r !! i = Some p ∧ Player.socketId p = socketId.
Proof.
  unfold getPlayerBySocketId. intros H.
  destruct (list_find _ _) as [[j p]|] eqn:Hf; simplify_eq/=.
  apply list_find_Some in Hf as (? & ? & _). eauto.
Qed.

Lemma getPlayerById_Some r playerId i :
  getPlayerById r playerId = Some i →
  ∃ p, Room.players r !! i = Some p ∧ Player.id p = playerId.
Proof.
  unfold getPlayerById. intros H.
  destruct (list_find _ _) as [[j p]|] eqn:Hf; simplify_eq/=.
  apply list_find_Some in Hf as (? & ? & _). eauto.
Qed.

Lemma bind_addLogToRoom {B : Type} message type character (f : unit → Engine B) r :
  (addLogToRoom message type character ≫= f) r
  = f tt (Room.set_gameLog (Room.gameLog r ++ [LogEntry.mk message type character None]) r).
Proof. reflexivity. Qed.

Lemma bind_clearTimeout {B : Type} h (f : unit → Engine B) r :
  (clearTimeout h ≫= f) r = f tt (Room.set_timers (delete h (Room.timers r)) r).
Proof. reflexivity. Qed.

Lemma bind_setAction {B : Type} g (f : unit → Engine B) r :
  (setAction g ≫= f) r
  = f tt (Room.set_actionInProgress (g <$> Room.actionInProgress r) r).
Proof. reflexivity. Qed.

Lemma fmap_alter_same {A B : Type} (proj : A → B) (f : A → A) k (l : list A) :
  (∀ x, proj (f x) = proj x) → proj <$> alter f k l = proj <$> l.
Proof.
  intros H. rewrite (list_fmap_alter proj f id) by (apply Forall_forall; auto).
  by apply list_alter_id.
Qed.

(** ** What an operation returns *)

(** [returns v m]: whenever [m] returns, it returns [v]. *)
Definition returns {A : Type} (v : A) (m : Engine A) : Prop :=
  ∀ r, match m r with Done a _ => a = v | Fault _ => True end.

Lemma returns_ret {A : Type} (v : A) : returns v (mret v).
Proof. by intros r. Qed.

Lemma returns_bind {A B : Type} (v : B) (m : Engine A) (f : A → Engine B) :
  (∀ a, returns v (f a)) → returns v (m ≫= f).
Proof.
  intros Hf r. unfold mbind, Engine_bind. destruct (m r) as [a r1|]; [|done]. apply Hf.
Qed.

Ltac returns_auto :=
  repeat first
    [ apply returns_ret
    | apply returns_bind; intros ?
    | progress cbv zeta
    | match goal with
      | |- returns _ (if ?b then _ else _) => destruct b
      | |- returns _ (match ?x with _ => _ end) => destruct x
      end ].

(** Once the validation has passed, [performAction] can only succeed. *)
Lemma declareAction_succeeds player actionData action targetId targetPlayer :
  returns succeeded (declareAction player actionData action targetId targetPlayer).
Proof. unfold declareAction. returns_auto. Qed.

(** ** The rejections of [performAction] *)

(** The state of [trio] after Alice has declared Tax: the action is
    pending, Bob and Carol may respond. *)
Definition taxPending : Room.t := roomOf (performAction "socket-a" "tax" None trio).

(** C4, as stated, fails: with an action pending, a caller whose turn it
    is not is turned away with 'Not your turn', not with 'Action already in
    progress'. *)
Lemma performAction_out_of_turn_counterexample :
  ¬ (∀ r socketId action targetId,
       is_Some (Room.actionInProgress r) →
       performAction socketId action targetId r
       = Done (failed "Action already in progress") r).
Proof.
  intros H.
  specialize (H taxPending "socket-b" "income" None).
  assert (is_Some (Room.actionInProgress taxPending)) as Hp by (vm_compute; eauto).
  specialize (H Hp). vm_compute in H. discriminate H.
Qed.

(** C4 (amended): while an action is in progress, [performAction] is
    rejected for every caller, action and target and leaves the room exactly
    as it was, so a second action record is never created. The error is
    'Action already in progress' when the caller is the player whose turn it
    is; a caller who is not a player gets 'Player not found' and a player out
    of turn gets 'Not your turn', because those two checks come first. *)
Theorem performAction_while_action_pending r socketId action targetId current :
  is_Some (Room.actionInProgress r) →
  Room.players r !! Room.currentPlayerIndex r = Some current →
  performAction socketId action targetId r =
    Done (failed (if decide (getPlayerBySocketId r socketId = None) then "Player not found"
                  else if decide (Player.socketId current = socketId)
                       then "Action already in progress"
                       else "Not your turn")) r.
Proof.
  intros Hpending Hcurrent. unfold performAction. rewrite bind_get.
  destruct (getPlayerBySocketId r socketId) as [i|] eqn:Hi; [|done].
  apply getPlayerBySocketId_Some in Hi as (p & Hp & _).
  rewrite (bind_Done _ _ _ _ _ (readP_Some _ _ _ Hp)).
  rewrite Hcurrent, bind_deref_Some.
  rewrite decide_False by done.
  destruct (decide (Player.socketId current = socketId)) as [Heq|Hne].
  - rewrite bool_decide_eq_true_2 by done. simpl.
    by rewrite bool_decide_eq_true_2.
  - by rewrite bool_decide_eq_false_2.
Qed.

Lemma performAction_while_action_pending_witness :
  is_Some (Room.actionInProgress taxPending)
  ∧ Room.players taxPending !! Room.currentPlayerIndex taxPending = Some alice
  ∧ performAction "socket-a" "income" None taxPending
    = Done (failed "Action already in progress") taxPending.
Proof.
  assert (is_Some (Room.actionInProgress taxPending)) as H1 by (vm_compute; eauto).
  assert (Room.players taxPending !! Room.currentPlayerIndex taxPending = Some alice) as H2
    by reflexivity.
  split; [exact H1|]. split; [exact H2|].
  exact (performAction_while_action_pending taxPending "socket-a" "income" None alice H1 H2).
Defined.

(** C9: a player holding ten coins or more who declares anything but a
    coup is rejected with an error and the room is left as it was; and no
    coup declaration is ever answered with the mandatory-coup error. *)
Theorem mandatory_coup (r : Room.t) (socketId action : string) (targetId : option string)
    (i : nat) (player current : Player.t) :
  getPlayerBySocketId r socketId = Some i →
  Room.players r !! i = Some player →
  Room.players r !! Room.currentPlayerIndex r = Some current →
  (10 ≤ Player.coins player)%Z →
  (action ≠ "coup" → ∃ e, performAction socketId action targetId r = Done (failed e) r)
  ∧ (∀ r', performAction socketId "coup" targetId r
           ≠ Done (failed "Must coup with 10+ coins") r').
Proof.
  intros Hi Hp Hcurrent Hcoins. split.
  - intros Hne. unfold performAction. rewrite bind_get, Hi.
    rewrite (bind_Done _ _ _ _ _ (readP_Some _ _ _ Hp)).
    rewrite Hcurrent, bind_deref_Some.
    repeat match goal with
           | |- ∃ e, (if ?b then _ else _) r = _ => destruct b; [by eexists|]
           end.
    destruct (ACTIONS action) as [actionData|]; [|by eexists].
    match goal with
    | |- ∃ e, (if ?b then _ else _) r = _ => destruct b; [by eexists|]
    end.
    rewrite bool_decide_eq_true_2 by lia.
    rewrite bool_decide_eq_false_2 by done. by eexists.
  - intros r' H. unfold performAction in H. rewrite bind_get, Hi in H.
    rewrite (bind_Done _ _ _ _ _ (readP_Some _ _ _ Hp)) in H.
    rewrite Hcurrent, bind_deref_Some in H.
    repeat match type of H with
           | (if ?b then _ else _) r = _ => destruct b; [discriminate H|]
           end.
    change (ACTIONS "coup") with (Some (ActionData.mk (Some "Coup") None (Some 7) false None false None)) in H.
    cbv iota beta in H. simpl ActionData.cost in H.
    match type of H with
    | (if ?b then _ else _) r = _ => destruct b; [discriminate H|]
    end.
    rewrite (bool_decide_eq_true_2 ("coup" = "coup")) in H by done.
    rewrite andb_false_r in H.
    match type of H with
    | (if ?b then _ else _) r = _ => destruct b; [discriminate H|]
    end.
    pose proof (declareAction_succeeds player
                  (ActionData.mk (Some "Coup") None (Some 7) false None false None)
                  "coup" targetId (lookupTarget r targetId) r) as Hs.
    rewrite H in Hs. discriminate Hs.
Qed.

(** Alice with ten coins, at her turn. *)
Definition wealthy : Room.t := playing false [Player.set_coins 10 alice; bob] (Room.deck duel).

Lemma mandatory_coup_witness :
  (∃ e, performAction "socket-a" "income" None wealthy = Done (failed e) wealthy)
  ∧ (∃ r', performAction "socket-a" "coup" (Some "b") wealthy = Done succeeded r'
           ∧ Player.coins <$> Room.players r' = [3; 2]).
Proof.
  split.
  - refine (proj1 (mandatory_coup wealthy "socket-a" "income" None 0
                     (Player.set_coins 10 alice) (Player.set_coins 10 alice) _ _ _ _) _).
    + reflexivity.
    + reflexivity.
    + reflexivity.
    + vm_compute. discriminate.
    + discriminate.
  - eexists. split; vm_compute; reflexivity.
Defined.

(** ** Challenging a block with no action in progress *)

(** C10 fails on the code: [challengeBlock] reads [action.blockerId]
    before checking anything, so with no action in progress it throws
    instead of returning a failure result. *)
Theorem challengeBlock_without_action_faults shuffle socketId r :
  Room.actionInProgress r = None →
  challengeBlock shuffle socketId r = Fault r.
Proof. intros H. unfold challengeBlock. by rewrite bind_get, H. Qed.

Lemma challengeBlock_without_action_faults_witness :
  Room.actionInProgress duel = None
  ∧ challengeBlock noShuffle "socket-b" duel = Fault duel.
Proof.
  split; [reflexivity|].
  apply challengeBlock_without_action_faults. reflexivity.
Defined.

(** The sibling operation does check: [respondToAction] answers
    'Invalid response' in the same state. *)
Lemma respondToAction_without_action shuffle socketId response r :
  Room.actionInProgress r = None →
  respondToAction shuffle socketId response r = Done (failed "Invalid response") r.
Proof.
  intros H. unfold respondToAction. rewrite bind_get, H.
  by destruct (getPlayerBySocketId r socketId).
Qed.

(** ** Turn advance and outstanding obligations *)

(** An Inquisitor game: Alice holds the Inquisitor. *)
Definition inquisition : Room.t :=
  playing true
    [dealt "a" "Alice" "Inquisitor" "Captain"; bob; dealt "c" "Carol" "Contessa" "Duke"]
    ["Duke"; "Duke"; "Assassin"; "Assassin"; "Captain"; "Captain";
     "Inquisitor"; "Inquisitor"; "Contessa"].

Section ExamineOutstanding.
Variable shuffle : nat → list Card → list Card.

(** Alice examines Bob; Carol challenges and is wrong, so she owes a
    reveal; Bob shows his first card. Alice has not yet decided the
    examination. *)
Definition bobHasShown : Room.t :=
  roomOf ((performAction "socket-a" "examine" (Some "b");;
           respondToAction shuffle "socket-c" challenge;;
           showCardToExaminer "b" 0) inquisition).

(** Carol then reveals her first card. *)
Definition carolHasRevealed : Room.t := roomOf (revealInfluence "c" 0 bobHasShown).

(** C5 fails on the code: [nextTurn] tests three of the four obligations;
    [mustChooseExamine] is not among them. In the state reached above the
    examination is still outstanding, and yet the reveal moves the turn from
    Alice to Bob, and a further [nextTurn] moves it on to Carol.
    [performAction], in contrast, does test all four. *)
Theorem nextTurn_ignores_outstanding_examine :
  Room.currentPlayerIndex bobHasShown = 0%nat
  ∧ existsb Player.mustChooseExamine (Room.players bobHasShown) = true
  ∧ existsb Player.mustChooseExamine (Room.players carolHasRevealed) = true
  ∧ Room.currentPlayerIndex carolHasRevealed = 1%nat
  ∧ Room.currentPlayerIndex (roomOf (nextTurn carolHasRevealed)) = 2%nat
  ∧ resultOf (performAction "socket-b" "income" None carolHasRevealed)
    = Some (failed "Waiting for examination to complete").
Proof. repeat split; vm_compute; reflexivity. Qed.

End ExamineOutstanding.

(** ** Card conservation and [completeExchange] *)

Section Exchange.
Variable shuffle : nat → list Card → list Card.

(** Alice declares Exchange in [trio], Bob and Carol pass, and she is
    offered the two cards drawn from the deck. *)
Definition exchangeOffered : Room.t :=
  roomOf ((performAction "socket-a" "exchange" None;;
           respondToAction shuffle "socket-b" pass;;
           respondToAction shuffle "socket-c" pass) trio).

(** C2 fails on the code: [completeExchange] checks the number of indices
    and their range, but not that they are distinct. Keeping index 0 twice
    gives Alice two cards and returns three to the deck: sixteen cards. *)
Theorem completeExchange_duplicate_indices :
  (∀ n deck, length (shuffle n deck) = length deck) →
  Room.state exchangeOffered = Playing
  ∧ totalCards exchangeOffered = 15%nat
  ∧ ∃ r', completeExchange shuffle "a" [0; 0] exchangeOffered = Done succeeded r'
          ∧ Room.state r' = Playing
          ∧ totalCards r' = 16%nat.
Proof.
  intros Hlen. split; [reflexivity|]. split; [reflexivity|].
  eexists. split; [vm_compute; reflexivity|]. split; [reflexivity|].
  unfold totalCards. simpl. by rewrite Hlen.
Qed.

(** Alice has lost her Duke, which lies face-up; she declares Exchange
    and Bob passes. *)
Definition veteranOffered : Room.t :=
  roomOf ((performAction "socket-a" "exchange" None;;
           respondToAction shuffle "socket-b" pass)
            (playing false
               [Player.set_influences [Influence.mk "Duke" true; Influence.mk "Captain" false] alice;
                bob]
               (Room.deck duel))).

(** C3 fails on the code: the revealed card is one of the cards
    [completeExchange] lets the player give back. Keeping indices 1 and 2
    puts the face-up Duke into the deck and leaves Alice with two face-down
    cards. *)
Theorem completeExchange_returns_revealed_card :
  (∀ n deck, shuffle n deck ≡ₚ deck) →
  (Player.influences <$> Room.players veteranOffered !! 0%nat)
  = Some [Influence.mk "Duke" true; Influence.mk "Captain" false]
  ∧ length (filter (λ card, card = "Duke") (Room.deck veteranOffered)) = 2%nat
  ∧ ∃ r', completeExchange shuffle "a" [1; 2] veteranOffered = Done succeeded r'
          ∧ (Player.influences <$> Room.players r' !! 0%nat)
            = Some [Influence.mk "Captain" false; Influence.mk "Contessa" false]
          ∧ length (filter (λ card, card = "Duke") (Room.deck r')) = 3%nat.
Proof.
  intros Hperm. split; [reflexivity|]. split; [reflexivity|].
  eexists. split; [vm_compute; reflexivity|]. split; [reflexivity|].
  simpl. by rewrite Hperm.
Qed.

End Exchange.

Lemma completeExchange_duplicate_indices_witness :
  (∀ n deck, length (noShuffle n deck) = length deck)
  ∧ ∃ r', completeExchange noShuffle "a" [0; 0] (exchangeOffered noShuffle) = Done succeeded r'
          ∧ totalCards r' = 16%nat.
Proof.
  assert (∀ n deck, length (noShuffle n deck) = length deck) as H by reflexivity.
  split; [exact H|].
  destruct (completeExchange_duplicate_indices noShuffle H) as (_ & _ & r' & Hr & _ & Ht).
  exists r'. split; [exact Hr | exact Ht].
Defined.

Lemma completeExchange_returns_revealed_card_witness :
  (∀ n deck, noShuffle n deck ≡ₚ deck)
  ∧ ∃ r', completeExchange noShuffle "a" [1; 2] (veteranOffered noShuffle) = Done succeeded r'
          ∧ length (filter (λ card, card = "Duke") (Room.deck r')) = 3%nat.
Proof.
  assert (∀ n deck, noShuffle n deck ≡ₚ deck) as H by reflexivity.
  split; [exact H|].
  destruct (completeExchange_returns_revealed_card noShuffle H) as (_ & _ & r' & Hr & _ & Hd).
  exists r'. split; [exact Hr | exact Hd].
Defined.

(** ** View projection *)

(** C1: in the state projected for an observer, every player's cards are
    listed slot by slot. A revealed card is shown face-up to every observer.
    An unrevealed card of another player is shown to a player who is not a
    spectator as [{revealed: false}], without its role; its role appears
    exactly when the observer is the owner or a spectator. The cards a
    player was offered in an exchange or was shown in an examination are
    likewise absent from every other player's view. *)
Theorem getPublicGameState_hides_unrevealed (room : Room.t) (socketId : string)
    (isSpectator : bool) (i : nat) (p : Player.t) :
  Room.players room !! i = Some p →
  ∃ v, GameState.players (getPublicGameState room socketId isSpectator) !! i = Some v
    ∧ length (PlayerView.influences v) = length (Player.influences p)
    ∧ (isSpectator = false → Player.socketId p ≠ socketId →
       PlayerView.examinedCard v = None ∧ PlayerView.exchangeCards v = None)
    ∧ ∀ j inf, Player.influences p !! j = Some inf →
        ∃ shown, PlayerView.influences v !! j = Some shown
          ∧ (Influence.revealed inf = true →
             shown = InfluenceView.mk (Some (Influence.card inf)) true)
          ∧ (Influence.revealed inf = false →
             isSpectator = false → Player.socketId p ≠ socketId →
             shown = InfluenceView.mk None false)
          ∧ (Influence.revealed inf = false →
             isSpectator = true ∨ Player.socketId p = socketId →
             shown = InfluenceView.mk (Some (Influence.card inf)) false).
Proof.
  intros Hp. exists (projectPlayer room socketId isSpectator p).
  split; [by simpl; rewrite list_lookup_fmap, Hp|].
  split.
  { simpl. destruct (_ || _); by rewrite length_fmap. }
  split.
  { intros -> Hne. simpl. by rewrite bool_decide_eq_false_2. }
  intros j inf Hinf. simpl PlayerView.influences.
  destruct (decide (Player.socketId p = socketId)) as [Heq|Hne].
  - rewrite bool_decide_eq_true_2 by done.
    exists (faceUp inf). split.
    { destruct isSpectator; simpl; by rewrite list_lookup_fmap, Hinf. }
    unfold faceUp. split; [by intros ->|]. split; [done|]. by intros ->.
  - rewrite bool_decide_eq_false_2 by done. destruct isSpectator; simpl.
    + exists (faceUp inf). split; [by rewrite list_lookup_fmap, Hinf|].
      unfold faceUp. split; [by intros ->|]. split; [done|]. by intros ->.
    + exists (hideUnrevealed inf). split; [by rewrite list_lookup_fmap, Hinf|].
      unfold hideUnrevealed, faceUp, faceDown.
      split; [by intros ->|]. split; [by intros ->|].
      intros _ [?|?]; done.
Qed.

(** Bob's view of [duel]: Alice's two cards are face-down. *)
Lemma getPublicGameState_hides_unrevealed_witness :
  Room.players duel !! 0%nat = Some alice
  ∧ (PlayerView.influences <$> GameState.players (getPublicGameState duel "socket-b" false) !! 0%nat)
    = Some [InfluenceView.mk None false; InfluenceView.mk None false].
Proof.
  assert (Room.players duel !! 0%nat = Some alice) as H by reflexivity.
  split; [exact H|].
  destruct (getPublicGameState_hides_unrevealed duel "socket-b" false 0 alice H)
    as (v & Hv & _). reflexivity.
Defined.

(** ** Resolution clears the action record *)

Lemma nextTurn_actionInProgress r :
  Room.actionInProgress (roomOf (nextTurn r)) = Room.actionInProgress r.
Proof.
  unfold nextTurn. rewrite bind_get. cbv zeta.
  repeat match goal with
         | |- context [if ?b then _ else _] => destruct b; [reflexivity|]
         end.
  destruct (skipEliminated _ _ _) as [next|]; [|reflexivity].
  rewrite bind_deref_Some, bind_modify.
  destruct (Room.players (Room.set_currentPlayerIndex next r) !! next) as [p|] eqn:Hp.
  - by rewrite (bind_Done _ _ _ _ _ (readP_Some _ _ _ Hp)).
  - by rewrite (bind_Fault _ _ _ _ (readP_None _ _ Hp)).
Qed.

Lemma clearActionAndTimeout_clears r :
  ∃ r', clearActionAndTimeout r = Done tt r' ∧ Room.actionInProgress r' = None.
Proof.
  unfold clearActionAndTimeout, clearTimeout, setAction, modify, get, mbind, mret,
    Engine_bind, Engine_ret.
  destruct (Room.responseTimeout r) as [h|]; simpl;
    match goal with
    | |- context [match ?x with Some _ => _ | None => _ end] => destruct x
    end; eexists; split; reflexivity.
Qed.

(** Splitting a run that returned into its steps, from the head on. *)
Ltac split_run H :=
  repeat first
    [ progress cbv zeta in H
    | match type of H with
      | mret _ _ = Done _ _ => fail 1
      | (if ?b then _ else _) _ = Done _ _ => destruct b
      | (match ?x with _ => _ end) _ = Done _ _ => destruct x
      | (_ ≫= _) _ = Done _ _ =>
          let Hm := fresh "Hstep" in
          apply bind_Done_inv in H as (? & ? & Hm & H)
      end ].

(** When [applyEffect] reports an early return, it has cleared the action. *)
Lemma applyEffect_returned action actor target r r' :
  applyEffect action actor target r = Done true r' →
  Room.actionInProgress r' = None.
Proof.
  intros H. unfold applyEffect in H.
  split_run H; try discriminate H;
    unfold mret, Engine_ret in H; injection H as <-;
    match goal with
    | Hm : modify (Room.set_actionInProgress None) _ = Done _ ?r1
      |- Room.actionInProgress ?r1 = None => unfold modify in Hm; by injection Hm as _ <-
    end.
Qed.

Lemma resolveAction_clears r r' :
  resolveAction r = Done tt r' → Room.actionInProgress r' = None.
Proof.
  intros H. unfold resolveAction in H. rewrite bind_get in H.
  destruct (Room.actionInProgress r) as [action|] eqn:Ha; [|by injection H as <-].
  apply bind_Done_inv in H as (actionData & r1 & _ & H). cbv zeta in H.
  apply bind_Done_inv in H as (? & r2 & _ & H).
  apply bind_Done_inv in H as (? & r3 & _ & H).
  apply bind_Done_inv in H as (returned & r4 & Heffect & H).
  destruct returned.
  - injection H as <-. by eapply applyEffect_returned.
  - apply bind_Done_inv in H as ([] & r5 & Hclear & Hnext).
    destruct (clearActionAndTimeout_clears r4) as (r5' & Hclear' & Hnone).
    rewrite Hclear' in Hclear. injection Hclear as <-.
    pose proof (nextTurn_actionInProgress r5') as Hkeep.
    rewrite Hnext in Hkeep. simpl in Hkeep. by rewrite Hkeep.
Qed.

(** ** Responding twice *)

Lemma getPlayerBySocketId_seat r r' socketId :
  seat <$> Room.players r' = seat <$> Room.players r →
  getPlayerBySocketId r' socketId = getPlayerBySocketId r socketId.
Proof.
  intros H. unfold getPlayerBySocketId.
  assert (∀ l : list Player.t,
            fst <$> list_find (λ p, Player.socketId p = socketId) l
            = fst <$> list_find (λ s : string * string, s.2 = socketId) (seat <$> l)) as Hfind.
  { intros l. rewrite list_find_fmap. by destruct (list_find _ l) as [[??]|]. }
  by rewrite !Hfind, H.
Qed.

Lemma lookup_seat r r' i p :
  seat <$> Room.players r' = seat <$> Room.players r →
  Room.players r !! i = Some p →
  ∃ p', Room.players r' !! i = Some p' ∧ seat p' = seat p.
Proof.
  intros H Hp.
  assert ((seat <$> Room.players r') !! i = Some (seat p)) as Hi
    by (by rewrite H, list_lookup_fmap, Hp).
  rewrite list_lookup_fmap in Hi.
  destruct (Room.players r' !! i) as [p'|]; [|discriminate Hi].
  exists p'. split; [done|]. unfold seat in *. simpl in Hi. congruence.
Qed.

(** The state a response is recorded in, before it takes effect. *)
Definition recorded (me : string) (response : Response.t) (r : Room.t) : Room.t :=
  let r1 := Room.set_actionInProgress
              ((λ a, Action.set_responses (<[me := response]> (Action.responses a)) a)
                 <$> Room.actionInProgress r) r in
  let r2 := Room.set_pendingResponses (Room.pendingResponses r1 ∖ {[me]}) r1 in
  Room.set_actionInProgress
    ((λ a, Action.set_respondedCount
             (Action.totalResponders a - Z.of_nat (size (Room.pendingResponses r2))) a)
       <$> Room.actionInProgress r2) r2.

(** An accepted pass is recorded and then handled by [allPassed]. *)
Lemma respondToAction_pass_accepted shuffle socketId r r' :
  respondToAction shuffle socketId pass r = Done succeeded r' →
  ∃ i p, getPlayerBySocketId r socketId = Some i
    ∧ Room.players r !! i = Some p
    ∧ Player.id p ∈ Room.pendingResponses r
    ∧ allPassed (recorded (Player.id p) pass r) = Done tt r'.
Proof.
  intros H. unfold respondToAction in H. rewrite bind_get in H.
  destruct (getPlayerBySocketId r socketId) as [i|] eqn:Hi; [|discriminate H].
  destruct (Room.actionInProgress r) as [a|] eqn:Ha; [|discriminate H].
  destruct (getPlayerBySocketId_Some _ _ _ Hi) as (p & Hp & _).
  rewrite (bind_Done _ _ _ _ _ (readP_Some _ _ _ Hp)) in H. cbv zeta in H.
  destruct (decide (Player.id p ∈ Room.pendingResponses r)) as [Hin|Hnin];
    [rewrite bool_decide_eq_true_2 in H by done
    |rewrite bool_decide_eq_false_2 in H by done; discriminate H].
  repeat match type of H with
         | (if ?b then _ else _) r = _ => destruct b; [discriminate H|]
         end.
  exists i, p. split; [done|]. split; [done|]. split; [done|].
  unfold setAction in H. rewrite !bind_modify in H.
  change (Response.type pass) with "pass" in H.
  repeat case_decide; try congruence.
  apply bind_Done_inv in H as ([] & r1 & Hall & Hret).
  injection Hret as <-. exact Hall.
Qed.

(** After a player's pass has been accepted, any further response of
    that player is rejected and the room stays as it is. *)
Lemma second_response_rejected shuffle (socketId : string) (again : Response.t)
    (r r' : Room.t) :
  respondToAction shuffle socketId pass r = Done succeeded r' →
  respondToAction shuffle socketId again r'
  = Done (failed (if decide (Room.actionInProgress r' = None)
                  then "Invalid response" else "Not eligible to respond")) r'.
Proof.
  intros H. apply respondToAction_pass_accepted in H as (i & p & Hi & Hp & Hin & Hall).
  pose proof (keeps_allPassed seat Room.pendingResponses
                (recorded (Player.id p) pass r)) as Hk.
  rewrite Hall in Hk. unfold view in Hk. simpl in Hk.
  injection Hk as Hseats Hpending.
  unfold respondToAction. rewrite bind_get.
  rewrite (getPlayerBySocketId_seat r r') by done. rewrite Hi.
  destruct (Room.actionInProgress r') as [a'|]; [|done].
  destruct (lookup_seat r r' i p Hseats Hp) as (p' & Hp' & Hseat).
  rewrite (bind_Done _ _ _ _ _ (readP_Some _ _ _ Hp')). cbv zeta.
  assert (Player.id p' = Player.id p) as -> by (by injection Hseat).
  rewrite Hpending. rewrite bool_decide_eq_false_2; cycle 1.
  { rewrite elem_of_difference, elem_of_singleton. by intros [_ []]. }
  change (negb false) with true. cbv iota.
  by destruct (decide (Some a' = None)).
Qed.

(** In [taxPending], Bob's pass is accepted (Carol has yet to respond). *)
Lemma bob_passes :
  ∃ r', respondToAction noShuffle "socket-b" pass taxPending = Done succeeded r'
    ∧ resultOf (respondToAction noShuffle "socket-b" pass r')
      = Some (failed "Not eligible to respond").
Proof. eexists. split; vm_compute; reflexivity. Qed.

(** C7, as stated, fails: a player who passes twice is turned away the
    second time with 'Not eligible to respond' (the first pass removed
    the player from the pending set, and that test comes first), not with
    'Already responded'. *)
Lemma second_pass_counterexample :
  ¬ (∀ shuffle socketId r r',
       respondToAction shuffle socketId pass r = Done succeeded r' →
       respondToAction shuffle socketId pass r' = Done (failed "Already responded") r').
Proof.
  intros H. destruct bob_passes as (r' & H1 & H2).
  rewrite (H _ _ _ _ H1) in H2. discriminate H2.
Qed.

(** A response on record bars any further response of that player. *)
Lemma recorded_response_rejected shuffle socketId (again : Response.t) r i p a first :
  getPlayerBySocketId r socketId = Some i →
  Room.players r !! i = Some p →
  Room.actionInProgress r = Some a →
  Action.responses a !! Player.id p = Some first →
  respondToAction shuffle socketId again r
  = Done (failed (if bool_decide (Player.id p ∈ Room.pendingResponses r)
                  then "Already responded" else "Not eligible to respond")) r.
Proof.
  intros Hi Hp Ha Hfirst. unfold respondToAction. rewrite bind_get, Hi, Ha.
  rewrite (bind_Done _ _ _ _ _ (readP_Some _ _ _ Hp)). cbv zeta.
  destruct (bool_decide (Player.id p ∈ Room.pendingResponses r)); [|done].
  cbn [negb]. by rewrite Hfirst, bool_decide_eq_true_2 by eauto.
Qed.

(** [remembers m]: when [m] returns, the players sit where they sat, and if
    an action is in progress, it was in progress before, and the responses
    recorded in it are the same. *)
Definition remembers {A : Type} (m : Engine A) : Prop :=
  ∀ r x r', m r = Done x r' →
    seat <$> Room.players r' = seat <$> Room.players r
    ∧ ∀ a', Room.actionInProgress r' = Some a' →
        ∃ a, Room.actionInProgress r = Some a ∧ Action.responses a' = Action.responses a.

Lemma remembers_ret {A : Type} (v : A) : remembers (mret v).
Proof. intros r x r' H. injection H as _ <-. eauto. Qed.

Lemma remembers_get : remembers get.
Proof. intros r x r' H. injection H as _ <-. eauto. Qed.

Lemma remembers_throw {A : Type} : remembers (@throw A).
Proof. intros r x r' H. discriminate H. Qed.

Lemma remembers_deref {A : Type} (o : option A) : remembers (deref o).
Proof. intros r x r' H. destruct o; [|discriminate H]. injection H as _ <-. eauto. Qed.

Lemma remembers_bind {A B : Type} (m : Engine A) (f : A → Engine B) :
  remembers m → (∀ x, remembers (f x)) → remembers (m ≫= f).
Proof.
  intros Hm Hf r y r' H.
  apply bind_Done_inv in H as (x & r1 & H1 & H2).
  destruct (Hf x r1 y r' H2) as [Hseat2 Hact2].
  destruct (Hm r x r1 H1) as [Hseat1 Hact1].
  split; [congruence|]. intros a' Ha'.
  destruct (Hact2 a' Ha') as (a1 & Ha1 & Heq1).
  destruct (Hact1 a1 Ha1) as (a & Ha & Heq).
  exists a. split; [done|]. congruence.
Qed.

Lemma remembers_modify (g : Room.t → Room.t) :
  (∀ r, seat <$> Room.players (g r) = seat <$> Room.players r) →
  (∀ r, Room.actionInProgress (g r) = None
        ∨ Action.responses <$> Room.actionInProgress (g r)
          = Action.responses <$> Room.actionInProgress r) →
  remembers (modify g).
Proof.
  intros Hseat Hg r x r' H. injection H as _ <-. split; [done|]. intros a' Ha'.
  destruct (Hg r) as [Hnone|Hsame]; [congruence|].
  rewrite Ha' in Hsame. destruct (Room.actionInProgress r) as [a|]; [|discriminate Hsame].
  exists a. split; [done|]. by injection Hsame.
Qed.

Lemma remembers_resolveAction : remembers resolveAction.
Proof.
  intros r [] r' H. split.
  - pose proof (keeps_resolveAction seat Room.pendingResponses r) as Hk.
    rewrite H in Hk. by injection Hk.
  - intros a' Ha'. apply resolveAction_clears in H. congruence.
Qed.

Create HintDb remembers discriminated.

Ltac remembers_step :=
  first
    [ apply remembers_ret | apply remembers_get | apply remembers_throw
    | apply remembers_deref | apply remembers_resolveAction
    | solve [eauto 2 with remembers]
    | apply remembers_modify;
        [ intros ?; first [reflexivity | simpl; apply fmap_alter_same; intros ?; reflexivity]
        | let r0 := fresh "r" in
          intros r0; first [by left | right; simpl; by destruct (Room.actionInProgress r0)] ]
    | apply remembers_bind; [| intros ?]
    | progress cbv zeta
    | match goal with
      | |- remembers (if ?b then _ else _) => destruct b
      | |- remembers (match ?x with _ => _ end) => destruct x
      end
    | progress unfold readP, mutP, mutPIfAny, addLogToRoom, setTimeout, clearTimeout,
        setAction, popDeck ].

Ltac remembers_auto := repeat remembers_step.

Lemma remembers_clearActionAndTimeout : remembers clearActionAndTimeout.
Proof. unfold clearActionAndTimeout. remembers_auto. Qed.

Lemma remembers_nextTurn : remembers nextTurn.
Proof. unfold nextTurn. remembers_auto. Qed.

Lemma remembers_loseInfluence playerId count causedBy :
  remembers (loseInfluence playerId count causedBy).
Proof. unfold loseInfluence. remembers_auto. Qed.

Lemma remembers_blockStandsStats blocker originalActor actionName blockCard :
  remembers (blockStandsStats blocker originalActor actionName blockCard).
Proof. unfold blockStandsStats. remembers_auto. Qed.

Lemma remembers_checkWinCondition : remembers checkWinCondition.
Proof. unfold checkWinCondition. remembers_auto. Qed.

#[global] Hint Resolve remembers_clearActionAndTimeout remembers_nextTurn remembers_loseInfluence
  remembers_blockStandsStats remembers_checkWinCondition : remembers.

Lemma remembers_allPassed : remembers allPassed.
Proof. unfold allPassed. remembers_auto. Qed.

Lemma remembers_handleBlock blockerId blockCard : remembers (handleBlock blockerId blockCard).
Proof. unfold handleBlock. remembers_auto. Qed.

Lemma remembers_timerFires h : remembers (timerFires h).
Proof. unfold timerFires, actionWindowElapsed, blockWindowElapsed. remembers_auto. Qed.

Lemma remembers_showCardToExaminer playerId cardIndex :
  remembers (showCardToExaminer playerId cardIndex).
Proof. unfold showCardToExaminer. remembers_auto. Qed.

Lemma remembers_revealInfluence playerId cardIndex :
  remembers (revealInfluence playerId cardIndex).
Proof. unfold revealInfluence. remembers_auto. Qed.

(** A declaration made while an action is in progress changes nothing. *)
Lemma performAction_during_action socketId action targetId r res r' :
  performAction socketId action targetId r = Done res r' →
  is_Some (Room.actionInProgress r) → r' = r.
Proof.
  intros H Hsome. unfold performAction in H. rewrite bind_get in H.
  destruct (getPlayerBySocketId r socketId) as [i|]; [|by injection H as _ <-].
  destruct (Room.players r !! i) as [p|] eqn:Hp;
    [rewrite (bind_Done _ _ _ _ _ (readP_Some _ _ _ Hp)) in H
    |rewrite (bind_Fault _ _ _ _ (readP_None _ _ Hp)) in H; discriminate H].
  destruct (Room.players r !! Room.currentPlayerIndex r) as [current|]; [|discriminate H].
  rewrite bind_deref_Some in H.
  destruct (negb _); [by injection H as _ <-|].
  rewrite bool_decide_eq_true_2 in H by done. by injection H as _ <-.
Qed.

(** A connection that drops during a game changes neither the action in
    progress nor the seats. *)
Lemma onDisconnect_seats socketId r :
  Room.state r = Playing →
  Room.actionInProgress (roomOf (onDisconnect socketId r)) = Room.actionInProgress r
  ∧ seat <$> Room.players (roomOf (onDisconnect socketId r)) = seat <$> Room.players r.
Proof.
  intros Hstate. unfold onDisconnect. rewrite bind_get.
  destruct (getPlayerBySocketId r socketId) as [i|] eqn:Hi.
  - destruct (getPlayerBySocketId_Some _ _ _ Hi) as (p & Hp & _).
    rewrite (bind_Done _ _ _ _ _ (readP_Some _ _ _ Hp)), Hstate.
    rewrite bool_decide_eq_true_2 by done. simpl andb.
    destruct (Player.hasLeft p); simpl; [done|].
    split; [done|]. by apply fmap_alter_same.
  - by destruct (getSpectatorBySocketId r socketId).
Qed.

Section Remembered.
Variable shuffle : nat → list Card → list Card.

Lemma remembers_returnAndRedraw who card : remembers (returnAndRedraw shuffle who card).
Proof. unfold returnAndRedraw, shuffleRoomDeck. remembers_auto. Qed.

Hint Resolve remembers_returnAndRedraw : remembers.

Lemma remembers_handleChallenge challengerId : remembers (handleChallenge shuffle challengerId).
Proof. unfold handleChallenge. remembers_auto. Qed.

Lemma remembers_challengeBlock socketId : remembers (challengeBlock shuffle socketId).
Proof. unfold challengeBlock. remembers_auto. Qed.

Lemma remembers_completeExchange playerId keepIndices :
  remembers (completeExchange shuffle playerId keepIndices).
Proof. unfold completeExchange, shuffleRoomDeck. remembers_auto. Qed.

(** A response leaves the players where they sit, and if an action is in
    progress afterwards, every response that was on record still is. *)
Lemma respondToAction_keeps_record socketId response r res r' :
  respondToAction shuffle socketId response r = Done res r' →
  seat <$> Room.players r' = seat <$> Room.players r
  ∧ ∀ a', Room.actionInProgress r' = Some a' →
      ∃ a, Room.actionInProgress r = Some a
        ∧ ∀ k v, Action.responses a !! k = Some v → Action.responses a' !! k = Some v.
Proof.
  intros H.
  assert (r' = r → seat <$> Room.players r' = seat <$> Room.players r
          ∧ ∀ a', Room.actionInProgress r' = Some a' →
              ∃ a, Room.actionInProgress r = Some a
                ∧ ∀ k v, Action.responses a !! k = Some v → Action.responses a' !! k = Some v)
    as Hsame by (intros ->; eauto).
  unfold respondToAction in H. rewrite bind_get in H.
  destruct (getPlayerBySocketId r socketId) as [i|] eqn:Hi;
    [|injection H as _ <-; by apply Hsame].
  destruct (Room.actionInProgress r) as [a|] eqn:Ha; [|injection H as _ <-; by apply Hsame].
  destruct (getPlayerBySocketId_Some _ _ _ Hi) as (p & Hp & _).
  rewrite (bind_Done _ _ _ _ _ (readP_Some _ _ _ Hp)) in H. cbv zeta in H.
  destruct (negb _); [injection H as _ <-; by apply Hsame|].
  destruct (bool_decide (is_Some (Action.responses a !! Player.id p)) || _) eqn:Hanswered;
    [injection H as _ <-; by apply Hsame|].
  apply orb_false_iff in Hanswered as [Hanswered _].
  apply bool_decide_eq_false in Hanswered.
  repeat match type of H with
         | (if ?b then _ else _) _ = _ => destruct b; [injection H as _ <-; by apply Hsame|]
         end.
  rewrite bind_setAction, !bind_modify in H.
  apply bind_Done_inv in H as ([] & r1 & Hbranch & Hret). injection Hret as _ <-.
  assert (remembers (if decide (Response.type response = "challenge")
                     then handleChallenge shuffle (Player.id p)
                     else if decide (Response.type response = "block")
                          then handleBlock (Player.id p) (Response.blockCard response)
                          else if decide (Response.type response = "pass") then allPassed
                               else mret tt)) as Hrem.
  { repeat case_decide; auto using remembers_handleChallenge, remembers_handleBlock,
      remembers_allPassed, remembers_ret. }
  destruct (Hrem _ _ _ Hbranch) as [Hseat Hact]. split; [exact Hseat|].
  intros a' Ha'. destruct (Hact a' Ha') as (a1 & Ha1 & Heq).
  exists a. split; [done|]. intros k v Hk.
  simpl in Ha1. rewrite Ha in Ha1. simpl in Ha1. injection Ha1 as <-.
  rewrite Heq. simpl. rewrite lookup_insert_ne; [done|].
  intros <-. destruct Hanswered. eauto.
Qed.

(** What can happen in a room once an action has been declared: responses,
    challenges of a block, timers firing, connections dropping, players
    meeting their obligations, and further declarations, which are turned
    away while the action is in progress. *)
Inductive afterwards : Room.t → Room.t → Prop :=
  | after_response socketId response r res r' :
      respondToAction shuffle socketId response r = Done res r' → afterwards r r'
  | after_challengeBlock socketId r res r' :
      challengeBlock shuffle socketId r = Done res r' → afterwards r r'
  | after_timer h r r' :
      timerFires h r = Done tt r' → afterwards r r'
  | after_reveal playerId cardIndex r res r' :
      revealInfluence playerId cardIndex r = Done res r' → afterwards r r'
  | after_exchange playerId keepIndices r res r' :
      completeExchange shuffle playerId keepIndices r = Done res r' → afterwards r r'
  | after_show playerId cardIndex r res r' :
      showCardToExaminer playerId cardIndex r = Done res r' → afterwards r r'
  | after_disconnect socketId r r' :
      Room.state r = Playing →
      onDisconnect socketId r = Done tt r' → afterwards r r'
  | after_declaration socketId action targetId r res r' :
      is_Some (Room.actionInProgress r) →
      performAction socketId action targetId r = Done res r' → afterwards r r'.

Lemma afterwards_keeps_record r r' :
  rtc afterwards r r' →
  seat <$> Room.players r' = seat <$> Room.players r
  ∧ ∀ a', Room.actionInProgress r' = Some a' →
      ∃ a, Room.actionInProgress r = Some a
        ∧ ∀ k v, Action.responses a !! k = Some v → Action.responses a' !! k = Some v.
Proof.
  assert (∀ {A} (m : Engine A) r x r', remembers m → m r = Done x r' →
            seat <$> Room.players r' = seat <$> Room.players r
            ∧ ∀ a', Room.actionInProgress r' = Some a' →
                ∃ a, Room.actionInProgress r = Some a
                  ∧ ∀ k v, Action.responses a !! k = Some v
                           → Action.responses a' !! k = Some v) as Hweaken.
  { intros A m r0 x r0' Hm H. destruct (Hm _ _ _ H) as [Hseat Hact]. split; [done|].
    intros a' Ha'. destruct (Hact a' Ha') as (a & Ha & Heq). exists a. split; [done|].
    intros k v. by rewrite Heq. }
  induction 1 as [r|r r1 r' Hstep _ [IHseat IHact]]; [eauto|].
  assert (seat <$> Room.players r1 = seat <$> Room.players r
          ∧ ∀ a1, Room.actionInProgress r1 = Some a1 →
              ∃ a, Room.actionInProgress r = Some a
                ∧ ∀ k v, Action.responses a !! k = Some v
                         → Action.responses a1 !! k = Some v) as [Hseat Hact].
  { destruct Hstep as [????? H|???? H|??? H|????? H|????? H|????? H|??? Hstate H|?????? Hsome H].
    - by eapply respondToAction_keeps_record.
    - eapply Hweaken; [apply remembers_challengeBlock|exact H].
    - eapply Hweaken; [apply remembers_timerFires|exact H].
    - eapply Hweaken; [apply remembers_revealInfluence|exact H].
    - eapply Hweaken; [apply remembers_completeExchange|exact H].
    - eapply Hweaken; [apply remembers_showCardToExaminer|exact H].
    - pose proof (onDisconnect_seats socketId r Hstate) as Hd. rewrite H in Hd.
      simpl in Hd. destruct Hd as [Hact Hseat]. split; [done|].
      intros a1 Ha1. exists a1. split; [congruence|done].
    - apply performAction_during_action in H as ->; eauto. }
  split; [congruence|]. intros a' Ha'.
  destruct (IHact a' Ha') as (a1 & Ha1 & Hmono1).
  destruct (Hact a1 Ha1) as (a & Ha & Hmono).
  exists a. split; [done|]. eauto.
Qed.

End Remembered.

(** An accepted pass is on record in the room it leaves, unless it has
    resolved the action. *)
Lemma pass_stays_recorded shuffle socketId r r' a' :
  respondToAction shuffle socketId pass r = Done succeeded r' →
  Room.actionInProgress r' = Some a' →
  ∃ i p, getPlayerBySocketId r socketId = Some i
    ∧ Room.players r !! i = Some p
    ∧ seat <$> Room.players r' = seat <$> Room.players r
    ∧ Action.responses a' !! Player.id p = Some pass.
Proof.
  intros H Ha'.
  assert (∃ a, Room.actionInProgress r = Some a) as [a Ha].
  { unfold respondToAction in H. rewrite bind_get in H.
    destruct (getPlayerBySocketId r socketId); [|discriminate H].
    destruct (Room.actionInProgress r); [eauto|discriminate H]. }
  apply respondToAction_pass_accepted in H as (i & p & Hi & Hp & Hin & Hall).
  destruct (remembers_allPassed _ _ _ Hall) as [Hseat Hact].
  destruct (Hact a' Ha') as (a1 & Ha1 & Heq).
  exists i, p. split; [done|]. split; [done|]. split; [exact Hseat|].
  rewrite Heq. unfold recorded in Ha1. simpl in Ha1. rewrite Ha in Ha1. simpl in Ha1.
  injection Ha1 as <-. simpl. apply lookup_insert_eq.
Qed.

(** Alice's Foreign Aid in [table3], waiting for Bob and Carol. *)
Definition aidPending : Room.t := roomOf (performAction "socket-a" "foreignAid" None table3).

(** C7 (amended): a player whose pass has been accepted cannot respond a
    second time, and the attempt is not counted: it changes neither the
    recorded responses nor the pending set nor anything else in the room.
    Right after the pass the error is 'Not eligible to respond' (the pass
    removed the player from the pending set, and that test comes first), or
    'Invalid response' if the pass resolved the action; it is not 'Already
    responded'. Later on, whatever has happened in the room since the pass
    (responses of anybody, challenges of a block, timers, dropped
    connections, reveals, exchanges, shown cards, declarations turned away),
    as long as an action is in progress a further response of the player is
    rejected from the unchanged room: with 'Already responded' exactly when
    the player is in the pending set again (a block by another player
    refills the set and keeps the recorded responses), with 'Not eligible to
    respond' otherwise. *)
Theorem respondToAction_second_pass shuffle (socketId : string) (again : Response.t) :
  (∀ r r', respondToAction shuffle socketId pass r = Done succeeded r' →
     ∃ e, respondToAction shuffle socketId again r' = Done (failed e) r'
       ∧ (e = "Not eligible to respond"
          ∨ e = "Invalid response" ∧ Room.actionInProgress r' = None)
       ∧ e ≠ "Already responded")
  ∧ (∀ r r' r'',
       respondToAction shuffle socketId pass r = Done succeeded r' →
       rtc (afterwards shuffle) r' r'' →
       is_Some (Room.actionInProgress r'') →
       ∃ i p, getPlayerBySocketId r socketId = Some i
         ∧ Room.players r !! i = Some p
         ∧ respondToAction shuffle socketId again r''
           = Done (failed (if bool_decide (Player.id p ∈ Room.pendingResponses r'')
                           then "Already responded" else "Not eligible to respond")) r'').
Proof.
  split.
  - intros r r' H. eexists. split; [exact (second_response_rejected _ _ _ r r' H)|].
    destruct (decide (Room.actionInProgress r' = None)); split; auto; discriminate.
  - intros r r' r'' H Hlater [a'' Ha''].
    destruct (afterwards_keeps_record _ _ _ Hlater) as [Hseat Hact].
    destruct (Hact a'' Ha'') as (a' & Ha' & Hmono).
    destruct (pass_stays_recorded _ _ _ _ _ H Ha') as (i & p & Hi & Hp & Hseat' & Hpass).
    exists i, p. split; [done|]. split; [done|].
    assert (seat <$> Room.players r'' = seat <$> Room.players r) as Hseats by congruence.
    destruct (lookup_seat r r'' i p Hseats Hp) as (p'' & Hp'' & Hsame).
    assert (Player.id p'' = Player.id p) as Hid by (by injection Hsame).
    rewrite <- Hid.
    apply (recorded_response_rejected shuffle socketId again r'' i p'' a'' pass);
      [by rewrite (getPlayerBySocketId_seat r r'') | done | done |].
    rewrite Hid. by apply Hmono.
Qed.

(** Bob passes on Alice's Foreign Aid and tries again; then Carol blocks
    with the Duke, and Bob tries once more. *)
Lemma respondToAction_second_pass_witness :
  ∃ r1 r2,
    respondToAction noShuffle "socket-b" pass aidPending = Done succeeded r1
    ∧ respondToAction noShuffle "socket-b" pass r1
      = Done (failed "Not eligible to respond") r1
    ∧ respondToAction noShuffle "socket-c" (block "Duke") r1 = Done succeeded r2
    ∧ is_Some (Room.actionInProgress r2)
    ∧ respondToAction noShuffle "socket-b" pass r2 = Done (failed "Already responded") r2.
Proof.
  destruct (respondToAction_second_pass noShuffle "socket-b" pass) as [Hfirst Hlater].
  eexists _, _. split; [vm_compute; reflexivity|].
  split.
  { match goal with
    | |- respondToAction _ _ _ ?r1 = _ =>
        destruct (Hfirst aidPending r1) as (e & He & [->|[_ Hnone]] & _);
          [vm_compute; reflexivity | exact He | vm_compute in Hnone; discriminate Hnone]
    end. }
  match goal with
  | |- respondToAction _ _ _ ?r1 = Done _ ?r2 ∧ _ =>
      assert (respondToAction noShuffle "socket-c" (block "Duke") r1 = Done succeeded r2)
        as Hblock by (vm_compute; reflexivity);
      assert (is_Some (Room.actionInProgress r2)) as Hsome by (vm_compute; eauto);
      split; [exact Hblock|]; split; [exact Hsome|];
      destruct (Hlater aidPending r1 r2) as (i & p & Hi & Hp & Hagain);
        [vm_compute; reflexivity
        | apply rtc_once; exact (after_response _ _ _ _ _ _ Hblock)
        | exact Hsome |]
  end.
  vm_compute in Hi. injection Hi as <-. vm_compute in Hp. injection Hp as <-.
  exact Hagain.
Defined.

(** ** Coins are spent only when the effect is applied *)

(** [spares m]: when [m] returns, either no coin has moved or the action
    has been resolved (its record is cleared). *)
Definition spares {A : Type} (m : Engine A) : Prop :=
  ∀ r a r', m r = Done a r' →
    coinsOf r' = coinsOf r ∨ Room.actionInProgress r' = None.

Lemma keeps_Done {Y Z A : Type} (pproj : Player.t → Y) (rproj : Room.t → Z)
    (m : Engine A) r a r' :
  keeps pproj rproj m → m r = Done a r' → view pproj rproj r' = view pproj rproj r.
Proof. intros Hk H. specialize (Hk r). by rewrite H in Hk. Qed.

Lemma keeps_coins_Done {A : Type} (m : Engine A) r a r' :
  keeps Player.coins (λ _, tt) m → m r = Done a r' → coinsOf r' = coinsOf r.
Proof. intros Hk H. pose proof (keeps_coinsOf m r Hk) as Hc. by rewrite H in Hc. Qed.

Lemma spares_keeps {A : Type} (m : Engine A) :
  keeps Player.coins (λ _, tt) m → spares m.
Proof. intros Hk r a r' H. left. by eapply keeps_coins_Done. Qed.

Lemma spares_bind {A B : Type} (m : Engine A) (f : A → Engine B) :
  keeps Player.coins (λ _, tt) m → (∀ a, spares (f a)) → spares (m ≫= f).
Proof.
  intros Hm Hf r b r' H.
  apply bind_Done_inv in H as (a & r1 & H1 & H2).
  rewrite <- (keeps_coins_Done m r a r1 Hm H1). by eapply Hf.
Qed.

Lemma spares_resolveAction : spares resolveAction.
Proof. intros r [] r' H. right. by apply (resolveAction_clears r). Qed.

Lemma spares_then_ret {A B : Type} (m : Engine A) (v : B) :
  spares m → spares (m ≫= λ _, mret v).
Proof.
  intros Hm r b r' H.
  apply bind_Done_inv in H as (a & r1 & H1 & H2).
  injection H2 as _ <-. by eapply Hm.
Qed.

Create HintDb spares discriminated.

Ltac spares_step :=
  first
    [ solve [eauto 1 with spares]
    | apply spares_resolveAction
    | apply spares_then_ret; apply spares_resolveAction
    | apply spares_bind; [solve [keeps_auto] | intros ?]
    | progress cbv zeta
    | match goal with
      | |- spares (if ?b then _ else _) => destruct b
      | |- spares (match ?x with _ => _ end) => destruct x
      | |- spares (_ ≫= _) => fail 1
      end
    | apply spares_keeps; solve [keeps_auto] ].

Ltac spares_auto := repeat spares_step.

Lemma spares_declareAction player actionData action targetId targetPlayer :
  spares (declareAction player actionData action targetId targetPlayer).
Proof.
  unfold declareAction, declarationLog.
  pose proof (keeps_setTimeout Player.coins (λ _, tt)).
  spares_auto.
Qed.

#[global] Hint Resolve spares_declareAction : spares.

Lemma spares_performAction socketId action targetId :
  spares (performAction socketId action targetId).
Proof.
  unfold performAction. spares_auto.
Qed.

Section WithoutEffect.
Variable shuffle : nat → list Card → list Card.

Lemma spares_handleChallenge challengerId : spares (handleChallenge shuffle challengerId).
Proof. unfold handleChallenge. spares_auto. Qed.

Lemma spares_allPassed : spares allPassed.
Proof. unfold allPassed. spares_auto. Qed.

Lemma spares_respondToAction socketId response :
  spares (respondToAction shuffle socketId response).
Proof.
  unfold respondToAction.
  pose proof spares_handleChallenge. pose proof spares_allPassed.
  repeat first
    [ solve [auto 1]
    | apply spares_bind; [solve [keeps_auto] | intros ?]
    | apply spares_then_ret
    | progress cbv zeta
    | match goal with
      | |- spares (if ?b then _ else _) => destruct b
      | |- spares (match ?x with _ => _ end) => destruct x
      end
    | apply spares_keeps; solve [keeps_auto] ].
Qed.

(** The initiator of the pending action does not hold the card the action
    claims. *)
Definition actorBluffs (r : Room.t) : bool :=
  match Room.actionInProgress r with
  | Some a =>
      match ACTIONS (Action.action a),
            getPlayerById r (Action.playerId a) ≫= (Room.players r !!.) with
      | Some actionData, Some actor => negb (holdsCard actor (ActionData.card actionData))
      | _, _ => false
      end
  | None => false
  end.

(** The blocker of the pending action holds the card the block claims. *)
Definition blockerHoldsCard (r : Room.t) : bool :=
  match Room.actionInProgress r with
  | Some a =>
      match Action.blockerId a ≫= getPlayerById r with
      | Some i =>
          match Room.players r !! i with
          | Some blocker => holdsCard blocker (Action.blockCard a)
          | None => false
          end
      | None => false
      end
  | None => false
  end.

Definition inBlockPhase (r : Room.t) : bool :=
  match Room.actionInProgress r with
  | Some a => bool_decide (Action.phase a = Block)
  | None => false
  end.

Lemma readP_cases ref r :
  readP ref r = Fault r
  ∨ ∃ i p, ref = Some i ∧ Room.players r !! i = Some p ∧ readP ref r = Done p r.
Proof.
  destruct ref as [i|]; [|by left].
  destruct (Room.players r !! i) as [p|] eqn:Hp.
  - right. exists i, p. split; [done|]. split; [done|]. by apply readP_Some.
  - left. by apply readP_None.
Qed.

(** A challenge against a bluffing initiator moves no coin. *)
Lemma handleChallenge_caught challengerId r :
  actorBluffs r = true →
  coinsOf (roomOf (handleChallenge shuffle challengerId r)) = coinsOf r.
Proof.
  unfold actorBluffs. intros H.
  destruct (Room.actionInProgress r) as [a|] eqn:Ha; [|discriminate H].
  destruct (ACTIONS (Action.action a)) as [ad|] eqn:Had; [|discriminate H].
  destruct (getPlayerById r (Action.playerId a)) as [k|] eqn:Hk; [|discriminate H].
  simpl in H.
  destruct (Room.players r !! k) as [actor|] eqn:Hactor; [|discriminate H].
  apply negb_true_iff in H.
  unfold handleChallenge. rewrite bind_get, Ha, bind_deref_Some. cbv zeta.
  rewrite Hk, Had.
  match goal with |- context [ _ ≫= ?f ] => set (rest := f) end.
  assert (∀ r1, Room.players r1 = Room.players r →
                coinsOf (roomOf (rest tt r1)) = coinsOf r) as Hrest.
  { intros r1 Hplayers. subst rest. cbv beta.
    destruct (readP_cases (getPlayerById r challengerId) r1)
      as [HF|(j & c & _ & _ & HD)].
    { rewrite (bind_Fault _ _ _ _ HF). unfold coinsOf. simpl. by rewrite Hplayers. }
    rewrite (bind_Done _ _ _ _ _ HD).
    rewrite (bind_Done _ _ _ _ _ (readP_Some k actor r1 ltac:(by rewrite Hplayers))).
    rewrite bind_addLogToRoom, bind_deref_Some. rewrite H.
    etrans; [apply keeps_coinsOf; keeps_auto|].
    unfold coinsOf. simpl. by rewrite Hplayers. }
  destruct (Action.responseTimeout a) as [h|].
  - rewrite bind_assoc, bind_clearTimeout, bind_setAction.
    by apply Hrest.
  - rewrite bind_ret. by apply Hrest.
Qed.

(** A challenge against a blocker who holds the card moves no coin. *)
Lemma challengeBlock_defended socketId r :
  blockerHoldsCard r = true →
  coinsOf (roomOf (challengeBlock shuffle socketId r)) = coinsOf r.
Proof.
  unfold blockerHoldsCard. intros H.
  destruct (Room.actionInProgress r) as [a|] eqn:Ha; [|discriminate H].
  destruct (Action.blockerId a ≫= getPlayerById r) as [k|] eqn:Hk; [|discriminate H].
  simpl in H.
  destruct (Room.players r !! k) as [blocker|] eqn:Hblocker; [|discriminate H].
  unfold challengeBlock. rewrite bind_get, Ha, bind_deref_Some. cbv zeta.
  rewrite Hk.
  destruct (negb (bool_decide (is_Some (Some k))) || negb (truthy (Action.blockCard a)));
    [reflexivity|].
  destruct (readP_cases (getPlayerBySocketId r socketId) r) as [HF|(j & c & _ & _ & HD)].
  { by rewrite (bind_Fault _ _ _ _ HF). }
  rewrite (bind_Done _ _ _ _ _ HD).
  destruct (bool_decide (Some (Player.id c) = Action.blockerId a)); [reflexivity|].
  match goal with |- context [ _ ≫= ?f ] => set (rest := f) end.
  assert (∀ r1, Room.players r1 = Room.players r →
                coinsOf (roomOf (rest tt r1)) = coinsOf r) as Hrest.
  { intros r1 Hplayers. subst rest. cbv beta.
    rewrite bind_addLogToRoom.
    match goal with
    | |- context [ (readP (Some k) ≫= _) ?r2 ] =>
        assert (Room.players r2 !! k = Some blocker) as Hb2
          by (by simpl; rewrite Hplayers);
        rewrite (bind_Done _ _ r2 _ _ (readP_Some k blocker r2 Hb2))
    end.
    cbv zeta. rewrite H.
    etrans; [apply keeps_coinsOf; keeps_auto|].
    unfold coinsOf. simpl. by rewrite Hplayers. }
  destruct (Action.responseTimeout a) as [h|].
  - rewrite bind_assoc, bind_clearTimeout, bind_setAction.
    by apply Hrest.
  - rewrite bind_ret. by apply Hrest.
Qed.

(** Passes in the block phase move no coin, whether the block stands, is
    paused or is still waited on. *)
Lemma allPassed_block r :
  inBlockPhase r = true →
  coinsOf (roomOf (allPassed r)) = coinsOf r.
Proof.
  unfold inBlockPhase. intros H.
  destruct (Room.actionInProgress r) as [a|] eqn:Ha; [|discriminate H].
  apply bool_decide_eq_true in H.
  unfold allPassed. rewrite bind_get, Ha, bind_deref_Some, H.
  apply keeps_coinsOf. keeps_auto.
Qed.

(** The block window closing moves no coin. *)
Lemma timerFires_block h actionName blockCard r :
  Room.timers r !! h = Some (BlockWindow actionName blockCard) →
  coinsOf (roomOf (timerFires h r)) = coinsOf r.
Proof.
  intros H. unfold timerFires. rewrite bind_get, H, bind_modify.
  etrans; [apply keeps_coinsOf; apply keeps_blockWindowElapsed; typeclasses eauto|].
  reflexivity.
Qed.

End WithoutEffect.

(** * Further properties of the engine *)

(** ** Rejections change nothing *)

(** Reading a hypothesis [m r = Done res r'] through the guards of an
    operation: each guard either returned a failure from the untouched room
    or let the run go on. *)
Ltac through_guards H :=
  repeat match type of H with
         | mret _ _ = Done _ _ => fail 1
         | (if ?b then _ else _) _ = Done _ _ => destruct b eqn:?
         | (match ?x with _ => _ end) _ = Done _ _ => destruct x eqn:?
         | (get ≫= _) _ = Done _ _ => rewrite bind_get in H
         | (deref (Some _) ≫= _) _ = Done _ _ => rewrite bind_deref_Some in H
         | (deref None ≫= _) _ = Done _ _ => discriminate H
         | (deref ?o ≫= _) _ = Done _ _ => destruct o eqn:?
         | _ => progress cbv zeta in H
         end.

Lemma succeeded_not_failure res : res = succeeded → success res = false → False.
Proof. by intros ->. Qed.

Lemma returned_succeeded {A : Type} (m : Engine A) (v : A) r a r' :
  returns v m → m r = Done a r' → a = v.
Proof. intros Hm H. specialize (Hm r). by rewrite H in Hm. Qed.

Lemma performAction_rejected socketId action targetId r res r' :
  performAction socketId action targetId r = Done res r' →
  success res = false → r' = r.
Proof.
  intros H Hf. unfold performAction in H. rewrite bind_get in H.
  destruct (getPlayerBySocketId r socketId) as [i|] eqn:Hi; [|by injection H as _ <-].
  destruct (getPlayerBySocketId_Some _ _ _ Hi) as (p & Hp & _).
  rewrite (bind_Done _ _ _ _ _ (readP_Some _ _ _ Hp)) in H.
  through_guards H; try (by injection H as _ <-).
  exfalso. eapply succeeded_not_failure; [|exact Hf].
  eapply returned_succeeded; [apply declareAction_succeeds | exact H].
Qed.

Section Rejections.
Variable shuffle : nat → list Card → list Card.

Lemma respondToAction_rejected socketId response r res r' :
  respondToAction shuffle socketId response r = Done res r' →
  success res = false → r' = r.
Proof.
  intros H Hf. unfold respondToAction in H. rewrite bind_get in H.
  destruct (getPlayerBySocketId r socketId) as [i|] eqn:Hi; [|by injection H as _ <-].
  destruct (Room.actionInProgress r) as [a|] eqn:Ha; [|by injection H as _ <-].
  destruct (getPlayerBySocketId_Some _ _ _ Hi) as (p & Hp & _).
  rewrite (bind_Done _ _ _ _ _ (readP_Some _ _ _ Hp)) in H.
  through_guards H; try (by injection H as _ <-).
  exfalso. eapply succeeded_not_failure; [|exact Hf].
  eapply returned_succeeded; [|exact H]. returns_auto.
Qed.

Lemma challengeBlock_rejected socketId r res r' :
  challengeBlock shuffle socketId r = Done res r' →
  success res = false → r' = r.
Proof.
  intros H Hf. unfold challengeBlock in H.
  through_guards H; try (by injection H as _ <-).
  apply bind_Done_inv in H as (c & r1 & Hc & H).
  destruct (readP_cases (getPlayerBySocketId r socketId) r)
    as [HF|(j & c' & _ & _ & HD)]; [congruence|].
  rewrite HD in Hc. injection Hc as <- <-.
  through_guards H; try (by injection H as _ <-).
  exfalso. eapply succeeded_not_failure; [|exact Hf].
  eapply returned_succeeded; [|exact H]. returns_auto.
Qed.

Lemma completeExchange_rejected playerId keepIndices r res r' :
  completeExchange shuffle playerId keepIndices r = Done res r' →
  success res = false → r' = r.
Proof.
  intros H Hf. unfold completeExchange in H.
  through_guards H; try (by injection H as _ <-).
  exfalso. eapply succeeded_not_failure; [|exact Hf].
  eapply returned_succeeded; [|exact H]. returns_auto.
Qed.

End Rejections.

Lemma showCardToExaminer_rejected playerId cardIndex r res r' :
  showCardToExaminer playerId cardIndex r = Done res r' →
  success res = false → r' = r.
Proof.
  intros H Hf. unfold showCardToExaminer in H.
  through_guards H; try (by injection H as _ <-).
  exfalso. eapply succeeded_not_failure; [|exact Hf].
  eapply returned_succeeded; [|exact H]. returns_auto.
Qed.

Lemma revealInfluence_rejected playerId cardIndex r res r' :
  revealInfluence playerId cardIndex r = Done res r' →
  success res = false → r' = r.
Proof.
  intros H Hf. unfold revealInfluence in H.
  through_guards H; try (by injection H as _ <-).
  exfalso. eapply succeeded_not_failure; [|exact Hf].
  eapply returned_succeeded; [|exact H]. returns_auto.
Qed.

(** X1: a declaration, a response or a block challenge that is answered
    with a failure result has changed nothing: the room is the one it was
    called on. *)
Theorem rejected_intents_change_nothing shuffle :
  (∀ socketId action targetId r res r',
     performAction socketId action targetId r = Done res r' →
     success res = false → r' = r)
  ∧ (∀ socketId response r res r',
       respondToAction shuffle socketId response r = Done res r' →
       success res = false → r' = r)
  ∧ (∀ socketId r res r',
       challengeBlock shuffle socketId r = Done res r' →
       success res = false → r' = r).
Proof.
  split; [exact performAction_rejected|].
  split; [exact (respondToAction_rejected shuffle) | exact (challengeBlock_rejected shuffle)].
Qed.

(** Bob declares Income in [table2] when it is Alice's turn. *)
Lemma rejected_intents_change_nothing_witness :
  ∃ res r', performAction "socket-b" "income" None table2 = Done res r'
    ∧ success res = false ∧ r' = table2.
Proof.
  eexists _, _. split; [vm_compute; reflexivity|]. split; [reflexivity|].
  refine (proj1 (rejected_intents_change_nothing noShuffle)
            "socket-b" "income" None table2 _ _ _ _).
  - vm_compute; reflexivity.
  - reflexivity.
Defined.

(** X2: the same holds for the operations that discharge an obligation:
    a failure result of [completeExchange], [showCardToExaminer] or
    [revealInfluence] comes with an untouched room. *)
Theorem rejected_obligations_change_nothing shuffle :
  (∀ playerId keepIndices r res r',
     completeExchange shuffle playerId keepIndices r = Done res r' →
     success res = false → r' = r)
  ∧ (∀ playerId cardIndex r res r',
       showCardToExaminer playerId cardIndex r = Done res r' →
       success res = false → r' = r)
  ∧ (∀ playerId cardIndex r res r',
       revealInfluence playerId cardIndex r = Done res r' →
       success res = false → r' = r).
Proof.
  split; [exact (completeExchange_rejected shuffle)|].
  split; [exact showCardToExaminer_rejected | exact revealInfluence_rejected].
Qed.

(** Alice is asked to reveal a card in [table2] although she owes none. *)
Lemma rejected_obligations_change_nothing_witness :
  ∃ res r', revealInfluence "a" 0 table2 = Done res r'
    ∧ success res = false ∧ r' = table2.
Proof.
  eexists _, _. split; [vm_compute; reflexivity|]. split; [reflexivity|].
  refine (proj2 (proj2 (rejected_obligations_change_nothing noShuffle))
            "a" 0 table2 _ _ _ _).
  - vm_compute; reflexivity.
  - reflexivity.
Defined.

(** ** Resolution *)

(** X3: when [resolveAction] returns, no action is in progress any more,
    whichever effect was applied and also when the effect handed over to an
    exchange or an examination. *)
Theorem resolveAction_releases_action (r r' : Room.t) :
  resolveAction r = Done tt r' → Room.actionInProgress r' = None.
Proof. apply resolveAction_clears. Qed.

(** Alice has declared Tax in [table3]. *)
Definition taxDeclared : Room.t := roomOf (performAction "socket-a" "tax" None table3).

Lemma resolveAction_releases_action_witness :
  ∃ r', resolveAction taxDeclared = Done tt r' ∧ Room.actionInProgress r' = None.
Proof.
  eexists. split; [vm_compute; reflexivity|].
  apply (resolveAction_releases_action taxDeclared). vm_compute; reflexivity.
Defined.

(** ** Steps that do not reach the effect *)

Lemma roomOf_then_ret {A B : Type} (m : Engine A) (v : B) r :
  roomOf ((m ≫= λ _, mret v) r) = roomOf (m r).
Proof. unfold mbind, Engine_bind. by destruct (m r). Qed.

Section Cancelled.
Variable shuffle : nat → list Card → list Card.

(** What [respondToAction] does once a response has passed the checks. *)
Lemma respondToAction_accepted socketId response r i a p :
  getPlayerBySocketId r socketId = Some i →
  Room.actionInProgress r = Some a →
  Room.players r !! i = Some p →
  respondToAction shuffle socketId response r = Done
    (failed "Not eligible to respond") r
  ∨ respondToAction shuffle socketId response r = Done (failed "Already responded") r
  ∨ respondToAction shuffle socketId response r
    = Done (failed "Cannot respond to your own action") r
  ∨ respondToAction shuffle socketId response r
    = Done (failed "Cannot respond to your own block") r
  ∨ respondToAction shuffle socketId response r
    = Done (failed "Only the target can block this action") r
  ∨ respondToAction shuffle socketId response r
    = ((if decide (Response.type response = "challenge") then
          handleChallenge shuffle (Player.id p)
        else if decide (Response.type response = "block") then
          handleBlock (Player.id p) (Response.blockCard response)
        else if decide (Response.type response = "pass") then allPassed
        else mret tt) ≫= λ _, mret succeeded)
        (recorded (Player.id p) response r).
Proof.
  intros Hi Ha Hp. unfold respondToAction. rewrite bind_get, Hi, Ha.
  rewrite (bind_Done _ _ _ _ _ (readP_Some _ _ _ Hp)). cbv zeta.
  destruct (negb _); [by left|].
  destruct (_ || _); [by right; left|].
  destruct (_ && _); [by right; right; left|].
  destruct (_ && _); [by right; right; right; left|].
  destruct (_ && _); [by right; right; right; right; left|].
  do 5 right. reflexivity.
Qed.

Lemma actorBluffs_recorded me response r :
  actorBluffs (recorded me response r) = actorBluffs r.
Proof. unfold actorBluffs. simpl. by destruct (Room.actionInProgress r). Qed.

Lemma inBlockPhase_recorded me response r :
  inBlockPhase (recorded me response r) = inBlockPhase r.
Proof. unfold inBlockPhase. simpl. by destruct (Room.actionInProgress r). Qed.

Lemma respondToAction_caught socketId response r :
  Response.type response = "challenge" →
  actorBluffs r = true →
  coinsOf (roomOf (respondToAction shuffle socketId response r)) = coinsOf r.
Proof.
  intros Htype Hbluff.
  destruct (getPlayerBySocketId r socketId) as [i|] eqn:Hi;
    [|by unfold respondToAction; rewrite bind_get, Hi].
  destruct (Room.actionInProgress r) as [a|] eqn:Ha;
    [|by unfold respondToAction; rewrite bind_get, Hi, Ha].
  destruct (getPlayerBySocketId_Some _ _ _ Hi) as (p & Hp & _).
  destruct (respondToAction_accepted socketId response r i a p Hi Ha Hp)
    as [E|[E|[E|[E|[E|E]]]]]; rewrite E; try reflexivity.
  rewrite roomOf_then_ret. rewrite decide_True by done.
  rewrite handleChallenge_caught by (by rewrite actorBluffs_recorded).
  reflexivity.
Qed.

Lemma respondToAction_block_passed socketId response r :
  Response.type response = "pass" →
  inBlockPhase r = true →
  coinsOf (roomOf (respondToAction shuffle socketId response r)) = coinsOf r.
Proof.
  intros Htype Hblock.
  destruct (getPlayerBySocketId r socketId) as [i|] eqn:Hi;
    [|by unfold respondToAction; rewrite bind_get, Hi].
  destruct (Room.actionInProgress r) as [a|] eqn:Ha;
    [|by unfold respondToAction; rewrite bind_get, Hi, Ha].
  destruct (getPlayerBySocketId_Some _ _ _ Hi) as (p & Hp & _).
  destruct (respondToAction_accepted socketId response r i a p Hi Ha Hp)
    as [E|[E|[E|[E|[E|E]]]]]; rewrite E; try reflexivity.
  rewrite roomOf_then_ret.
  rewrite decide_False by (rewrite Htype; discriminate).
  rewrite decide_False by (rewrite Htype; discriminate).
  rewrite decide_True by done.
  rewrite allPassed_block by (by rewrite inBlockPhase_recorded).
  reflexivity.
Qed.

Lemma respondToAction_blocked socketId response r :
  Response.type response = "block" →
  coinsOf (roomOf (respondToAction shuffle socketId response r)) = coinsOf r.
Proof.
  intros Htype.
  destruct (getPlayerBySocketId r socketId) as [i|] eqn:Hi;
    [|by unfold respondToAction; rewrite bind_get, Hi].
  destruct (Room.actionInProgress r) as [a|] eqn:Ha;
    [|by unfold respondToAction; rewrite bind_get, Hi, Ha].
  destruct (getPlayerBySocketId_Some _ _ _ Hi) as (p & Hp & _).
  destruct (respondToAction_accepted socketId response r i a p Hi Ha Hp)
    as [E|[E|[E|[E|[E|E]]]]]; rewrite E; try reflexivity.
  rewrite roomOf_then_ret.
  rewrite decide_False by (rewrite Htype; discriminate).
  rewrite decide_True by done.
  etrans; [apply keeps_coinsOf; apply keeps_handleBlock; typeclasses eauto|].
  reflexivity.
Qed.

(** One step of the engine in which the pending action does not reach its
    effect: it is declared and left waiting; it is answered and still
    waiting; its initiator is caught bluffing; it is blocked; the block is
    passed on, defended against a challenge, or its window closes. *)
Inductive withoutEffect : Room.t → Room.t → Prop :=
| we_declared socketId action targetId r res r' :
    performAction socketId action targetId r = Done res r' →
    is_Some (Room.actionInProgress r') →
    withoutEffect r r'
| we_answered socketId response r res r' :
    respondToAction shuffle socketId response r = Done res r' →
    is_Some (Room.actionInProgress r') →
    withoutEffect r r'
| we_caught socketId response r res r' :
    Response.type response = "challenge" →
    actorBluffs r = true →
    respondToAction shuffle socketId response r = Done res r' →
    withoutEffect r r'
| we_blocked socketId response r res r' :
    Response.type response = "block" →
    respondToAction shuffle socketId response r = Done res r' →
    withoutEffect r r'
| we_block_passed socketId response r res r' :
    Response.type response = "pass" →
    inBlockPhase r = true →
    respondToAction shuffle socketId response r = Done res r' →
    withoutEffect r r'
| we_block_defended socketId r res r' :
    blockerHoldsCard r = true →
    challengeBlock shuffle socketId r = Done res r' →
    withoutEffect r r'
| we_block_window h actionName blockCard r r' :
    Room.timers r !! h = Some (BlockWindow actionName blockCard) →
    timerFires h r = Done tt r' →
    withoutEffect r r'.

Lemma withoutEffect_coins r r' : withoutEffect r r' → coinsOf r' = coinsOf r.
Proof.
  destruct 1 as [s a t r res r' H Hp|s resp r res r' H Hp|s resp r res r' Ht Hb H
                |s resp r res r' Ht H|s resp r res r' Ht Hb H|s r res r' Hb H
                |h n c r r' Ht H].
  - destruct (spares_performAction s a t r res r' H) as [?|Hn]; [done|].
    rewrite Hn in Hp. by destruct Hp.
  - destruct (spares_respondToAction shuffle s resp r res r' H) as [?|Hn]; [done|].
    rewrite Hn in Hp. by destruct Hp.
  - pose proof (respondToAction_caught s resp r Ht Hb) as Hc. by rewrite H in Hc.
  - pose proof (respondToAction_blocked s resp r Ht) as Hc. by rewrite H in Hc.
  - pose proof (respondToAction_block_passed s resp r Ht Hb) as Hc. by rewrite H in Hc.
  - pose proof (challengeBlock_defended shuffle s r Hb) as Hc. by rewrite H in Hc.
  - pose proof (timerFires_block h n c r Ht) as Hc. by rewrite H in Hc.
Qed.

End Cancelled.

(** X4: along any run of steps that do not reach the effect, from the
    declaration of an action to its cancellation, nobody's coin balance
    changes: the cost of an assassination or a coup is not taken at
    declaration, nor when the initiator is caught bluffing, nor when a block
    stands. *)
Theorem no_coin_moves_before_effect shuffle (r r' : Room.t) :
  rtc (withoutEffect shuffle) r r' → coinsOf r' = coinsOf r.
Proof.
  induction 1 as [|r r1 r' Hstep _ IH]; [done|].
  rewrite IH. by eapply withoutEffect_coins.
Qed.

(** Alice declares Exchange in [table3] without holding the Ambassador, and
    Bob challenges. *)
Lemma no_coin_moves_before_effect_witness :
  ∃ r', rtc (withoutEffect noShuffle) table3 r'
    ∧ Room.actionInProgress r' = None
    ∧ coinsOf r' = coinsOf table3.
Proof.
  assert (∃ r1 r2,
            performAction "socket-a" "exchange" None table3 = Done succeeded r1
            ∧ is_Some (Room.actionInProgress r1)
            ∧ actorBluffs r1 = true
            ∧ respondToAction noShuffle "socket-b" challenge r1 = Done succeeded r2
            ∧ Room.actionInProgress r2 = None) as (r1 & r2 & H1 & H2 & H3 & H4 & H5).
  { eexists _, _. split; [vm_compute; reflexivity|].
    split; [vm_compute; eexists; reflexivity|].
    split; [vm_compute; reflexivity|].
    split; vm_compute; reflexivity. }
  assert (rtc (withoutEffect noShuffle) table3 r2) as Hrun.
  { eapply rtc_l; [exact (we_declared _ _ _ _ _ _ _ H1 H2)|].
    eapply rtc_l; [|apply rtc_refl].
    exact (we_caught noShuffle "socket-b" challenge r1 succeeded r2 eq_refl H3 H4). }
  exists r2. split; [exact Hrun|]. split; [exact H5|].
  exact (no_coin_moves_before_effect noShuffle table3 r2 Hrun).
Defined.

(** ** Turn advance *)

(** The search of the [while] loop stops at the first living seat. *)
Lemma skipEliminated_first (players : list Player.t) (fuel s d : nat) (p : Player.t) :
  (s < length players)%nat → (d ≤ fuel)%nat →
  players !! ((s + d) mod length players)%nat = Some p → Player.alive p = true →
  (∀ d', (d' < d)%nat →
     ∃ q, players !! ((s + d') mod length players)%nat = Some q ∧ Player.alive q = false) →
  skipEliminated players fuel s = Some ((s + d) mod length players)%nat.
Proof.
  revert s d. induction fuel as [|fuel IH]; intros s d Hs Hd Hp Halive Hdead.
  - assert (d = 0)%nat as -> by lia.
    rewrite Nat.add_0_r, Nat.mod_small in * by done.
    simpl. by rewrite Hp, Halive.
  - destruct d as [|d].
    { rewrite Nat.add_0_r, Nat.mod_small in * by done. simpl. by rewrite Hp, Halive. }
    destruct (Hdead 0%nat) as (x & Hx & Hax); [lia|].
    rewrite Nat.add_0_r, Nat.mod_small in Hx by done.
    simpl. rewrite Hx, Hax.
    assert (∀ e, ((s + 1) mod length players + e) mod length players
                 = (s + S e) mod length players)%nat as Hshift.
    { intros e. rewrite Nat.Div0.add_mod_idemp_l. f_equal. lia. }
    rewrite <- (Hshift d). apply IH.
    + apply Nat.mod_upper_bound. lia.
    + lia.
    + by rewrite Hshift.
    + done.
    + intros d' Hd'. rewrite Hshift. apply Hdead. lia.
Qed.

Lemma first_true (f : nat → bool) (d0 : nat) :
  f d0 = true → ∃ d, (d ≤ d0)%nat ∧ f d = true ∧ ∀ d', (d' < d)%nat → f d' = false.
Proof.
  intros H0.
  assert ((∀ d', (d' < d0)%nat → f d' = false)
          ∨ ∃ d, (d < d0)%nat ∧ f d = true ∧ ∀ d', (d' < d)%nat → f d' = false) as [Hall|Hex].
  { clear H0. induction d0 as [|d0 [Hall|(d & Hd & Hf & Hleast)]].
    - left. lia.
    - destruct (f d0) eqn:Hf0.
      + right. exists d0. split; [lia|done].
      + left. intros d' Hd'. destruct (decide (d' = d0)) as [->|]; [done|]. apply Hall. lia.
    - right. exists d. split; [lia|done]. }
  - exists d0. split; [lia|done].
  - destruct Hex as (d & Hd & Hf & Hleast). exists d. split; [lia|done].
Qed.

Lemma first_alive (players : list Player.t) (s d0 : nat) (p : Player.t) :
  (0 < length players)%nat →
  players !! ((s + d0) mod length players)%nat = Some p → Player.alive p = true →
  ∃ d q, (d ≤ d0)%nat
    ∧ players !! ((s + d) mod length players)%nat = Some q ∧ Player.alive q = true
    ∧ ∀ d', (d' < d)%nat →
        ∃ q', players !! ((s + d') mod length players)%nat = Some q' ∧ Player.alive q' = false.
Proof.
  intros Hn Hp Halive.
  assert (∀ d, ∃ q, players !! ((s + d) mod length players)%nat = Some q) as Hseat.
  { intros d. apply lookup_lt_is_Some_2, Nat.mod_upper_bound. lia. }
  destruct (first_true
              (λ d, match players !! ((s + d) mod length players)%nat with
                    | Some q => Player.alive q
                    | None => false
                    end) d0) as (d & Hd & Hf & Hleast).
  { by rewrite Hp. }
  destruct (Hseat d) as [q Hq]. rewrite Hq in Hf.
  exists d, q. split; [done|]. split; [done|]. split; [done|].
  intros d' Hd'. destruct (Hseat d') as [q' Hq']. exists q'. split; [done|].
  specialize (Hleast d' Hd'). simpl in Hleast. by rewrite Hq' in Hleast.
Qed.

Lemma reach_seat_lt (n s j : nat) :
  (s < n)%nat → (j < n)%nat → ∃ d, (d < n)%nat ∧ ((s + d) mod n)%nat = j.
Proof.
  intros Hs Hj. destruct (decide (s ≤ j)%nat).
  - exists (j - s)%nat. split; [lia|].
    replace (s + (j - s))%nat with j by lia. by apply Nat.mod_small.
  - exists (j + n - s)%nat. split; [lia|].
    replace (s + (j + n - s))%nat with (j + 1 * n)%nat by lia.
    rewrite Nat.Div0.mod_add. by apply Nat.mod_small.
Qed.

Definition turnBlocked (r : Room.t) : bool :=
  existsb Player.mustChooseExchange (Room.players r)
  || existsb Player.mustRevealInfluence (Room.players r)
  || existsb Player.mustShowCardToExaminer (Room.players r).

(** [nextTurn] does nothing at all while a player still has to choose
    exchange cards, reveal an influence or show a card to an examiner. *)
Lemma nextTurn_waits_for_obligations (r : Room.t) :
  turnBlocked r = true → nextTurn r = Done tt r.
Proof.
  unfold turnBlocked, nextTurn. intros H. rewrite bind_get. cbv zeta.
  destruct (existsb Player.mustChooseExchange _); [done|].
  destruct (existsb Player.mustRevealInfluence _); [done|].
  destruct (existsb Player.mustShowCardToExaminer _); [done|discriminate H].
Qed.

(** Otherwise, as long as some player is alive, [nextTurn] returns and
    hands the turn to the first living player after the current seat. *)
Lemma nextTurn_first_living_player (r : Room.t) (j : nat) (p : Player.t) :
  turnBlocked r = false →
  Room.players r !! j = Some p → Player.alive p = true →
  let n := length (Room.players r) in
  ∃ d q,
    let next := ((Room.currentPlayerIndex r + 1 + d) mod n)%nat in
    (d < n)%nat
    ∧ nextTurn r
      = Done tt (Room.set_gameLog
                   (Room.gameLog r
                      ++ [LogEntry.mk ("--- " +:+ Player.name q +:+ "'s turn ---") "info" None None])
                   (Room.set_currentPlayerIndex next r))
    ∧ Room.players r !! next = Some q ∧ Player.alive q = true
    ∧ ∀ d', (d' < d)%nat →
        ∃ q', Room.players r !! ((Room.currentPlayerIndex r + 1 + d') mod n)%nat = Some q'
              ∧ Player.alive q' = false.
Proof.
  intros Hfree Hp Halive n. unfold turnBlocked in Hfree.
  apply orb_false_elim in Hfree as [Hfree Hshow].
  apply orb_false_elim in Hfree as [Hexchange Hreveal].
  assert (j < n)%nat as Hj by (by eapply lookup_lt_Some).
  set (s := ((Room.currentPlayerIndex r + 1) mod n)%nat).
  assert (s < n)%nat as Hs by (apply Nat.mod_upper_bound; lia).
  assert (∀ e, ((s + e) mod n = (Room.currentPlayerIndex r + 1 + e) mod n)%nat) as Hshift.
  { intros e. unfold s. by rewrite Nat.Div0.add_mod_idemp_l. }
  destruct (reach_seat_lt n s j Hs Hj) as (d0 & Hd0 & Hreach).
  destruct (first_alive (Room.players r) s d0 p) as (d & q & Hd & Hq & Hqa & Hdead);
    [lia | by fold n; rewrite Hreach | done |].
  fold n in Hq, Hdead.
  exists d, q. cbv zeta. rewrite <- Hshift.
  split; [lia|]. split; [|split; [done|split; [done|]]].
  - unfold nextTurn. rewrite bind_get. cbv zeta.
    rewrite Hexchange, Hreveal, Hshow. fold n. fold s.
    rewrite (skipEliminated_first (Room.players r) n s d q) by (done || lia).
    fold n. rewrite bind_deref_Some, bind_modify.
    by rewrite (bind_Done _ _ _ _ _
                  (readP_Some ((s + d) mod n) q
                     (Room.set_currentPlayerIndex ((s + d) mod n) r) Hq)).
  - intros d' Hd'. rewrite <- Hshift. by apply Hdead.
Qed.

(** X5: [nextTurn] either waits or hands the turn on. While a player still
    has to choose exchange cards, reveal an influence or show a card to an
    examiner, it changes nothing at all. Otherwise, as long as some player is
    alive, it returns and hands the turn to the next living player in seat
    order: the seat [d + 1] places after the current one (around the table),
    where every seat passed over on the way holds an eliminated player. It
    changes the turn pointer and appends the turn banner to the log, and
    nothing else. *)
Theorem nextTurn_waits_or_advances (r : Room.t) :
  (turnBlocked r = true → nextTurn r = Done tt r)
  ∧ (turnBlocked r = false →
     ∀ j p, Room.players r !! j = Some p → Player.alive p = true →
     let n := length (Room.players r) in
     ∃ d q,
       let next := ((Room.currentPlayerIndex r + 1 + d) mod n)%nat in
       (d < n)%nat
       ∧ nextTurn r
         = Done tt (Room.set_gameLog
                      (Room.gameLog r
                         ++ [LogEntry.mk ("--- " +:+ Player.name q +:+ "'s turn ---")
                                         "info" None None])
                      (Room.set_currentPlayerIndex next r))
       ∧ Room.players r !! next = Some q ∧ Player.alive q = true
       ∧ ∀ d', (d' < d)%nat →
           ∃ q', Room.players r !! ((Room.currentPlayerIndex r + 1 + d') mod n)%nat = Some q'
                 ∧ Player.alive q' = false).
Proof.
  split.
  - apply nextTurn_waits_for_obligations.
  - intros Hfree j p Hp Halive. by eapply nextTurn_first_living_player.
Qed.

(** Bob is out: after Alice's turn in [table3] the turn skips him and goes
    to Carol. *)
Lemma nextTurn_waits_or_advances_witness :
  ∃ r', nextTurn (Room.set_players [seated alice; Player.set_alive false (seated bob);
                                    seated carol] table3) = Done tt r'
        ∧ Room.currentPlayerIndex r' = 2%nat.
Proof.
  destruct (proj2 (nextTurn_waits_or_advances
                     (Room.set_players [seated alice; Player.set_alive false (seated bob);
                                        seated carol] table3))
              eq_refl 0%nat (seated alice) eq_refl eq_refl)
    as (d & q & Hd & H & Hq & Ha & Hdead).
  eexists. split; [exact H|]. cbn [Room.currentPlayerIndex Room.set_gameLog
                                   Room.set_currentPlayerIndex].
  destruct d as [|[|d]].
  - vm_compute in Hq. injection Hq as <-. discriminate Ha.
  - reflexivity.
  - destruct (Hdead 1%nat) as (q' & Hq' & Ha'); [lia|].
    vm_compute in Hq'. injection Hq' as <-. discriminate Ha'.
Defined.

(** ** The effects on the coin balances *)

Lemma bind_mutP_Some {B : Type} i g (f : unit → Engine B) r :
  (mutP (Some i) g ≫= f) r = f tt (Room.set_players (alter g i (Room.players r)) r).
Proof. reflexivity. Qed.

Lemma coins_alter (f : Player.t → Player.t) (g : Z → Z) k (players : list Player.t) :
  (∀ p, Player.coins (f p) = g (Player.coins p)) →
  Player.coins <$> alter f k players = alter g k (Player.coins <$> players).
Proof. intros H. apply list_fmap_alter, Forall_forall. auto. Qed.

Lemma coins_alter_same (f : Player.t → Player.t) k (players : list Player.t) :
  (∀ p, Player.coins (f p) = Player.coins p) →
  Player.coins <$> alter f k players = Player.coins <$> players.
Proof.
  intros H. rewrite (coins_alter f id) by done. by apply list_alter_id.
Qed.

(** Choosing the branch of a chain of comparisons of the action name. *)
Ltac pick_kind :=
  repeat match goal with
         | |- context [decide (?x = ?y)] =>
             destruct (decide (x = y)) as [E|E];
             [ first [discriminate E | clear E] | first [by destruct E | clear E] ]
         end.

(** What [resolveAction] does once the switch is over. *)
Definition settle (returned : bool) : Engine unit :=
  if returned then mret tt else clearActionAndTimeout;; nextTurn.

Ltac rest_keeps_coins :=
  etrans; [apply keeps_coinsOf; unfold settle; keeps_auto|].

Definition costOf (actionData : ActionData.t) : Z := default 0 (ActionData.cost actionData).

(** Up to the switch, [resolveAction] charges the cost to the initiator and
    touches no other balance. *)
Lemma resolveAction_charged (r : Room.t) (a : Action.t) (actionData : ActionData.t) (k : nat) :
  Room.actionInProgress r = Some a →
  ACTIONS (Action.action a) = Some actionData →
  getPlayerById r (Action.playerId a) = Some k →
  ∃ r1, resolveAction r
        = (applyEffect a (Some k)
             (if truthy (Action.targetId a) then Action.targetId a ≫= getPlayerById r else None)
           ≫= settle) r1
        ∧ coinsOf r1 = alter (λ c, c - costOf actionData) k (coinsOf r).
Proof.
  intros Ha Hdata Hk.
  destruct (getPlayerById_Some _ _ _ Hk) as (actor & Hactor & _).
  unfold resolveAction. rewrite bind_get, Ha, Hdata, bind_deref_Some. cbv zeta. rewrite Hk.
  assert (∃ r0, ∀ rest : unit → Engine unit,
             ((if ActionData.challengeable actionData
                  && bool_decide (is_Some (ActionData.card actionData))
               then a0 ← readP (Some k);
                    if holdsCard a0 (ActionData.card actionData)
                    then mutP (Some k) (bumpStat "claimsDefended" 1)
                    else mutP (Some k) (bumpStat "bluffsSucceeded" 1)
               else mret tt) ≫= rest) r = rest tt r0
             ∧ coinsOf r0 = coinsOf r) as (r0 & Hr0).
  { destruct (_ && _).
    - destruct (holdsCard actor (ActionData.card actionData)) eqn:Hholds;
        eexists; intros rest;
        rewrite bind_assoc, (bind_Done _ _ _ _ _ (readP_Some _ _ _ Hactor)), Hholds,
          bind_mutP_Some; (split; [reflexivity|]);
        unfold coinsOf; simpl; by apply coins_alter_same.
    - exists r. intros rest. by rewrite bind_ret. }
  destruct (Hr0 (λ _,
    match ActionData.cost actionData with
    | Some cost => mutP (Some k) (addCoins (- cost));; mutP (Some k) (bumpStat "coinsSpent" cost)
    | None => mret tt
    end;;
    returned ← applyEffect a (Some k)
      (if truthy (Action.targetId a) then Action.targetId a ≫= getPlayerById r else None);
    if returned : bool then mret tt else clearActionAndTimeout;; nextTurn)) as [Hrun Hc0].
  unfold costOf. destruct (ActionData.cost actionData) as [cost|]; simpl default.
  - eexists. split; [etrans; [apply Hrun|]; cbv beta; rewrite bind_assoc, !bind_mutP_Some; reflexivity|].
    unfold coinsOf in *. simpl. rewrite coins_alter_same by done.
    rewrite (coins_alter (addCoins (- cost)) (λ c, c - cost)) by (intros p; simpl; lia).
    by rewrite Hc0.
  - exists r0. split; [etrans; [apply Hrun|]; cbv beta; by rewrite bind_ret|].
    rewrite Hc0. symmetry. apply list_alter_id. intros c. lia.
Qed.

(** X6: resolving Income, Foreign Aid or Tax adds to the initiator's balance
    the amount the catalogue lists for the action, and leaves every other
    balance as it was. *)
Theorem resolveAction_pays (r : Room.t) (a : Action.t) (actionData : ActionData.t) (k : nat) :
  Room.actionInProgress r = Some a →
  getPlayerById r (Action.playerId a) = Some k →
  Action.action a ∈ ["income"; "foreignAid"; "tax"] →
  ACTIONS (Action.action a) = Some actionData →
  coinsOf (roomOf (resolveAction r))
  = alter (Z.add (default 0 (ActionData.coins actionData))) k (coinsOf r).
Proof.
  intros Ha Hk Hkind Hdata.
  destruct (resolveAction_charged r a actionData k Ha Hdata Hk) as (r1 & -> & Hr1).
  assert (costOf actionData = 0) as Hcost.
  { repeat (apply elem_of_cons in Hkind as [Hkind|Hkind];
            [rewrite Hkind in Hdata; injection Hdata as <-; reflexivity|]).
    by apply elem_of_nil in Hkind. }
  rewrite Hcost, list_alter_id in Hr1 by (intros; lia).
  unfold applyEffect. cbv zeta.
  repeat (apply elem_of_cons in Hkind as [Hkind|Hkind];
          [rewrite Hkind in *; pick_kind; injection Hdata as <-;
           rewrite !bind_assoc, bind_mutP_Some; rest_keeps_coins;
           rewrite <- Hr1; apply coins_alter; intros p; simpl; lia|]).
  by apply elem_of_nil in Hkind.
Qed.

(** X7: resolving a Steal moves [min 2 (the target's coins)] from the
    target to the initiator; no other balance changes. *)
Theorem resolveAction_steal (r : Room.t) (a : Action.t) (k j : nat) (target : Player.t) :
  Room.actionInProgress r = Some a →
  Action.action a = "steal" →
  getPlayerById r (Action.playerId a) = Some k →
  truthy (Action.targetId a) = true →
  Action.targetId a ≫= getPlayerById r = Some j →
  Room.players r !! j = Some target →
  let stolen := Z.min 2 (Player.coins target) in
  coinsOf (roomOf (resolveAction r))
  = alter (Z.add stolen) k (alter (λ c, c - stolen) j (coinsOf r)).
Proof.
  intros Ha Hkind Hk Htruthy Hj Htarget stolen.
  destruct (resolveAction_charged r a _ k Ha ltac:(by rewrite Hkind) Hk) as (r1 & -> & Hr1).
  rewrite list_alter_id in Hr1 by (intros; unfold costOf; simpl; lia).
  assert (∃ t, Room.players r1 !! j = Some t ∧ Player.coins t = Player.coins target)
    as (t & Ht & Hcoins).
  { assert (coinsOf r1 !! j = Some (Player.coins target)) as H
      by (rewrite Hr1; unfold coinsOf; by rewrite list_lookup_fmap, Htarget).
    unfold coinsOf in H. rewrite list_lookup_fmap in H.
    destruct (Room.players r1 !! j) as [t|]; simplify_eq/=. eauto. }
  rewrite Htruthy, Hj. unfold applyEffect. cbv zeta. rewrite Hkind. pick_kind.
  rewrite !bind_assoc, (bind_Done _ _ _ _ _ (readP_Some _ _ _ Ht)). cbv zeta.
  rewrite Hcoins. fold stolen. rewrite !bind_assoc, bind_mutP_Some, !bind_assoc, bind_mutP_Some.
  rest_keeps_coins. rewrite <- Hr1. unfold coinsOf. simpl Room.players.
  rewrite (coins_alter (addCoins stolen) (Z.add stolen)) by (intros p; simpl; lia).
  f_equal. apply coins_alter. intros p. simpl. lia.
Qed.

(** X8: resolving any other action (Assassinate, Coup, Exchange, Examine)
    takes the catalogue's cost from the initiator and moves no other coin:
    3 for an assassination, 7 for a coup, nothing for the other two. *)
Theorem resolveAction_charges_cost (r : Room.t) (a : Action.t) (actionData : ActionData.t) (k : nat) :
  Room.actionInProgress r = Some a →
  getPlayerById r (Action.playerId a) = Some k →
  Action.action a ∈ ["assassinate"; "coup"; "exchange"; "examine"] →
  ACTIONS (Action.action a) = Some actionData →
  coinsOf (roomOf (resolveAction r)) = alter (λ c, c - costOf actionData) k (coinsOf r).
Proof.
  intros Ha Hk Hkind Hdata.
  destruct (resolveAction_charged r a actionData k Ha Hdata Hk) as (r1 & -> & Hr1).
  rewrite <- Hr1. apply keeps_coinsOf. unfold applyEffect, settle. cbv zeta.
  repeat (apply elem_of_cons in Hkind as [Hkind|Hkind];
          [rewrite Hkind; pick_kind; keeps_auto|]).
  by apply elem_of_nil in Hkind.
Qed.
Definition stealDeclared : Room.t := roomOf (performAction "socket-a" "steal" (Some "b") table3).
Definition funded : Room.t :=
  Room.set_players (alter (addCoins 5) 0%nat (Room.players table3)) table3.
Definition assassinationDeclared : Room.t :=
  roomOf (performAction "socket-a" "assassinate" (Some "b") funded).

Lemma resolveAction_pays_witness :
  coinsOf (roomOf (resolveAction taxDeclared)) = alter (Z.add 3) 0%nat (coinsOf taxDeclared).
Proof.
  eapply (resolveAction_pays taxDeclared _
            (ActionData.mk (Some "Tax") (Some 3) None false None true (Some "Duke")) 0);
    [vm_compute; reflexivity | vm_compute; reflexivity
    | do 2 (apply elem_of_cons; right); apply elem_of_cons; left; vm_compute; reflexivity
    | vm_compute; reflexivity].
Defined.

Lemma resolveAction_steal_witness :
  coinsOf (roomOf (resolveAction stealDeclared))
  = alter (Z.add 2) 0%nat (alter (λ c, c - 2) 1%nat (coinsOf stealDeclared)).
Proof.
  eapply (resolveAction_steal stealDeclared _ 0 1 (seated bob)); vm_compute; reflexivity.
Defined.

Lemma resolveAction_charges_cost_witness :
  coinsOf (roomOf (resolveAction assassinationDeclared))
  = alter (λ c, c - 3) 0%nat (coinsOf assassinationDeclared).
Proof.
  eapply (resolveAction_charges_cost assassinationDeclared _
            (ActionData.mk (Some "Assassinate") None (Some 3) true (Some ["Contessa"]) true
                           (Some "Assassin")) 0);
    [vm_compute; reflexivity | vm_compute; reflexivity
    | apply elem_of_cons; left; vm_compute; reflexivity | vm_compute; reflexivity].
Defined.

(** ** Coin costs are taken when the effect is applied, not before *)

(** C6: the cost of an action is taken from the initiator when
    [resolveAction] applies the effect (3 for an assassination, 7 for a
    coup), and at no earlier step. Once the action has been declared and
    left pending, and along any run of steps that does not reach the effect,
    up to the cancellation of the action because the initiator was caught
    bluffing or because a block stands, every balance, and so the
    initiator's, is what it was at the declaration. *)
Theorem costs_deducted_at_effect shuffle :
  (∀ socketId action targetId r0 res r1 r',
     performAction socketId action targetId r0 = Done res r1 →
     is_Some (Room.actionInProgress r1) →
     rtc (withoutEffect shuffle) r1 r' →
     coinsOf r1 = coinsOf r0 ∧ coinsOf r' = coinsOf r0)
  ∧ (∀ r a k,
       Room.actionInProgress r = Some a →
       getPlayerById r (Action.playerId a) = Some k →
       (Action.action a = "assassinate" →
        coinsOf (roomOf (resolveAction r)) = alter (λ c, c - 3) k (coinsOf r))
       ∧ (Action.action a = "coup" →
          coinsOf (roomOf (resolveAction r)) = alter (λ c, c - 7) k (coinsOf r))).
Proof.
  split.
  - intros socketId action targetId r0 res r1 r' Hdeclared Hpending Hrun.
    assert (coinsOf r1 = coinsOf r0) as Hfirst.
    { destruct (spares_performAction _ _ _ _ _ _ Hdeclared) as [?|Hnone]; [done|].
      rewrite Hnone in Hpending. by destruct Hpending. }
    split; [done|]. rewrite <- Hfirst. clear Hdeclared Hpending Hfirst.
    induction Hrun as [|r1 r2 r' Hstep _ IH]; [done|].
    rewrite IH. by eapply withoutEffect_coins.
  - intros r a k Ha Hk. split; intros Hkind.
    + destruct (resolveAction_charged r a
                  (ActionData.mk (Some "Assassinate") None (Some 3) true (Some ["Contessa"])
                                 true (Some "Assassin")) k Ha)
        as (r1 & -> & Hr1); [by rewrite Hkind | done |].
      etrans; [|exact Hr1]. apply keeps_coinsOf. unfold applyEffect, settle. cbv zeta.
      rewrite Hkind. pick_kind. keeps_auto.
    + destruct (resolveAction_charged r a
                  (ActionData.mk (Some "Coup") None (Some 7) false None false None) k Ha)
        as (r1 & -> & Hr1); [by rewrite Hkind | done |].
      etrans; [|exact Hr1]. apply keeps_coinsOf. unfold applyEffect, settle. cbv zeta.
      rewrite Hkind. pick_kind. keeps_auto.
Qed.

(** Alice, with seven coins, declares the assassination of Bob; Bob blocks
    with the Contessa; Carol and Alice let the block stand. The action is
    cancelled and Alice still holds her seven coins. *)
Lemma costs_deducted_at_effect_witness :
  ∃ r1 r',
    performAction "socket-a" "assassinate" (Some "b") funded = Done succeeded r1
    ∧ rtc (withoutEffect noShuffle) r1 r'
    ∧ Room.actionInProgress r' = None
    ∧ coinsOf r' = [7; 2; 2].
Proof.
  assert (∃ r1 r2 r3 r4,
            performAction "socket-a" "assassinate" (Some "b") funded = Done succeeded r1
            ∧ is_Some (Room.actionInProgress r1)
            ∧ respondToAction noShuffle "socket-b" (block "Contessa") r1 = Done succeeded r2
            ∧ inBlockPhase r2 = true
            ∧ respondToAction noShuffle "socket-c" pass r2 = Done succeeded r3
            ∧ inBlockPhase r3 = true
            ∧ respondToAction noShuffle "socket-a" pass r3 = Done succeeded r4
            ∧ Room.actionInProgress r4 = None)
    as (r1 & r2 & r3 & r4 & H1 & Hp1 & H2 & Hb2 & H3 & Hb3 & H4 & Hnone).
  { eexists _, _, _, _. split; [vm_compute; reflexivity|].
    split; [vm_compute; eexists; reflexivity|].
    split; [vm_compute; reflexivity|]. split; [vm_compute; reflexivity|].
    split; [vm_compute; reflexivity|]. split; [vm_compute; reflexivity|].
    split; vm_compute; reflexivity. }
  assert (rtc (withoutEffect noShuffle) r1 r4) as Hrun.
  { eapply rtc_l; [exact (we_blocked noShuffle "socket-b" (block "Contessa") r1 succeeded r2
                            eq_refl H2)|].
    eapply rtc_l; [exact (we_block_passed noShuffle "socket-c" pass r2 succeeded r3
                            eq_refl Hb2 H3)|].
    eapply rtc_l; [|apply rtc_refl].
    exact (we_block_passed noShuffle "socket-a" pass r3 succeeded r4 eq_refl Hb3 H4). }
  exists r1, r4. split; [exact H1|]. split; [exact Hrun|]. split; [exact Hnone|].
  exact (proj2 (proj1 (costs_deducted_at_effect noShuffle) _ _ _ funded _ r1 r4 H1 Hp1 Hrun)).
Defined.

(** ** What a declaration leaves behind *)

Lemma room_eta (r : Room.t) :
  Room.set_responseTimeout (Room.responseTimeout r) (Room.set_timers (Room.timers r) r) = r.
Proof. by destruct r. Qed.

Lemma set_gameLog_eta (r : Room.t) : Room.set_gameLog (Room.gameLog r) r = r.
Proof. by destruct r. Qed.

Lemma declarationLog_room useInquisitor action name targetName r x r1 :
  declarationLog useInquisitor action name targetName r = Done x r1 →
  ∃ log, r1 = Room.set_gameLog log r.
Proof.
  unfold declarationLog. intros H.
  repeat match type of H with
         | (if ?b then _ else _) _ = _ => destruct b
         end;
    try destruct targetName as [t|]; try discriminate H;
    rewrite ?bind_deref_Some in H; unfold addLogToRoom, modify in H;
    injection H as _ <-; eauto.
  all: exists (Room.gameLog r); by rewrite set_gameLog_eta.
Qed.

(** The target of the declaration is disconnected. *)
Definition targetOffline (room : Room.t) (targetId : option string) : bool :=
  match lookupTarget room targetId with
  | Some t => Player.disconnected t
  | None => false
  end.

(** The validation of [performAction], read backwards from an accepted
    declaration. *)
Lemma performAction_declares socketId action targetId r res r' :
  performAction socketId action targetId r = Done res r' →
  success res = true →
  ∃ i player current actionData,
    getPlayerBySocketId r socketId = Some i ∧
    Room.players r !! i = Some player ∧
    Room.players r !! Room.currentPlayerIndex r = Some current ∧
    Player.socketId current = socketId ∧
    Room.actionInProgress r = None ∧
    turnBlocked r = false ∧
    existsb Player.mustChooseExamine (Room.players r) = false ∧
    ACTIONS action = Some actionData ∧
    (∀ cost, ActionData.cost actionData = Some cost → (cost ≤ Player.coins player)%Z) ∧
    ((10 ≤ Player.coins player)%Z → action = "coup") ∧
    (needsTarget action = true → is_Some (lookupTarget r targetId)) ∧
    declareAction player actionData action targetId (lookupTarget r targetId) r = Done res r'.
Proof.
  intros H Hs. unfold performAction in H. rewrite bind_get in H.
  destruct (getPlayerBySocketId r socketId) as [i|] eqn:Hi;
    [|injection H as <- _; discriminate Hs].
  destruct (getPlayerBySocketId_Some _ _ _ Hi) as (p & Hp & _).
  rewrite (bind_Done _ _ _ _ _ (readP_Some _ _ _ Hp)) in H.
  through_guards H; try (injection H as <- _; discriminate Hs).
  all: exists i, p; eexists _, _; repeat split; try eassumption.
  all: repeat match goal with
         | H : negb _ = false |- _ => apply negb_false_iff in H
         | H : bool_decide _ = true |- _ => apply bool_decide_eq_true in H
         | H : bool_decide _ = false |- _ => apply bool_decide_eq_false in H
         | H : _ && _ = false |- _ => apply andb_false_iff in H
         end; try done.
  all: try (destruct (Room.actionInProgress r); [exfalso; eauto|done]).
  all: try (unfold turnBlocked; by repeat (apply orb_false_iff; split)).
  - intros cost Hcost. rewrite Hcost in *.
    match goal with H : bool_decide _ = false |- _ => apply bool_decide_eq_false in H end. lia.
  - intros ?.
    match goal with H : bool_decide (_ >= _)%Z = false ∨ _ |- _ => destruct H as [Hc|Hc] end.
    + apply bool_decide_eq_false in Hc. lia.
    + by apply negb_false_iff, bool_decide_eq_true in Hc.
  - intros Hn.
    match goal with H : needsTarget _ = false ∨ _ |- _ => destruct H as [Hc|Hc] end.
    + congruence.
    + by apply negb_false_iff, bool_decide_eq_true in Hc.
Qed.

(** A declaration that is still in progress when [declareAction] returns
    is waiting for the living, connected players other than the initiator. *)
Lemma declareAction_pending player actionData action targetId targetPlayer r res r' a' :
  declareAction player actionData action targetId targetPlayer r = Done res r' →
  Room.actionInProgress r' = Some a' →
  let responders := List.filter (canRespond (Some (Player.id player))) (Room.players r) in
  let offline := match targetPlayer with Some t => Player.disconnected t | None => false end in
  (ActionData.challengeable actionData || ActionData.blockable actionData = true
   ∧ responders ≠ []
   ∧ Room.players r' = Room.players r
   ∧ Room.pendingResponses r' = list_to_set (Player.id <$> responders)
   ∧ Action.totalResponders a' = Z.of_nat (length responders)
   ∧ Action.respondedCount a' = 0
   ∧ Action.responses a' = ∅
   ∧ Action.phase a' = Waiting
   ∧ Action.action a' = action
   ∧ Action.playerId a' = Player.id player
   ∧ Action.targetId a' = targetId)
  ∧ Action.pausedForDisconnection a' = offline
  ∧ (if offline
     then Action.responseTimeout a' = None ∧ Room.responseTimeout r' = None
          ∧ Room.nextTimer r' = Room.nextTimer r
     else Action.responseTimeout a' = Some (Room.nextTimer r)
          ∧ Room.responseTimeout r' = Some (Room.nextTimer r)
          ∧ Room.timers r' !! Room.nextTimer r = Some ActionWindow).
Proof.
  intros H Ha' responders offline. unfold declareAction in H. rewrite bind_get in H.
  cbv zeta in H.
  assert (∃ T RT, (RT = None ∨ Room.responseTimeout r = None ∧ RT = None) ∧
            ∀ rest : unit → Engine Result,
              (match Room.responseTimeout r with
               | Some h => clearTimeout h;; modify (Room.set_responseTimeout None)
               | None => mret tt
               end ≫= rest) r
              = rest tt (Room.set_responseTimeout RT (Room.set_timers T r)))
    as (T & RT & HRT & Hclear).
  { destruct (Room.responseTimeout r) as [h|] eqn:Hh.
    - exists (delete h (Room.timers r)), None. split; [by left|]. intros rest.
      by rewrite bind_assoc, bind_clearTimeout, bind_modify.
    - exists (Room.timers r), None. split; [by left|]. intros rest.
      rewrite bind_ret. f_equal. rewrite <- Hh. by rewrite room_eta. }
  assert (RT = None) as -> by (by destruct HRT as [?|[_ ?]]). clear HRT.
  rewrite Hclear in H. clear Hclear. rewrite bind_modify in H.
  apply bind_Done_inv in H as (x & r1 & Hlog & H).
  apply declarationLog_room in Hlog as [log ->].
  destruct (ActionData.challengeable actionData || ActionData.blockable actionData) eqn:Hresp.
  2:{ apply bind_Done_inv in H as ([] & r2 & Hres & H). injection H as _ <-.
      apply resolveAction_clears in Hres. congruence. }
  fold responders in H.
  assert (∃ f : Action.t → Action.t,
             ((∀ a, Action.responses (f a) = Action.responses a)
              ∧ (∀ a, Action.phase (f a) = Action.phase a)
              ∧ (∀ a, Action.action (f a) = Action.action a)
              ∧ (∀ a, Action.playerId (f a) = Action.playerId a)
              ∧ (∀ a, Action.targetId (f a) = Action.targetId a)
              ∧ (∀ a, Action.pausedForDisconnection (f a) = Action.pausedForDisconnection a)
              ∧ (∀ a, Action.responseTimeout (f a) = Action.responseTimeout a)) ∧
             ∀ (rest : unit → Engine Result) r0,
               ((if ActionData.blockable actionData && truthy targetId
                 then setAction (Action.set_blockableByTarget true);;
                      setAction (Action.set_targetCanBlock targetId)
                 else mret tt) ≫= rest) r0
               = rest tt (Room.set_actionInProgress (f <$> Room.actionInProgress r0) r0))
    as (f & (Hf1 & Hf2 & Hf3 & Hf4 & Hf5 & Hf6 & Hf7) & Hmark).
  { destruct (ActionData.blockable actionData && truthy targetId).
    - exists (λ a, Action.set_targetCanBlock targetId (Action.set_blockableByTarget true a)).
      split; [done|]. intros rest r0. rewrite bind_assoc, !bind_setAction. simpl.
      by rewrite <- option_fmap_compose.
    - exists id. split; [done|]. intros rest r0. rewrite bind_ret, option_fmap_id.
      by destruct r0. }
  rewrite Hmark in H. clear Hmark. simpl in H.
  rewrite bind_modify, !bind_setAction in H. simpl in H.
  destruct (decide (length responders = 0%nat)) as [Hnone|Hsome].
  { apply bind_Done_inv in H as ([] & r2 & Hres & H). injection H as _ <-.
    apply resolveAction_clears in Hres. congruence. }
  assert (responders ≠ []) as Hne by (intros E; by rewrite E in Hsome).
  subst offline. destruct targetPlayer as [t|]; [destruct (Player.disconnected t)|].
  - rewrite bind_setAction, bind_addLogToRoom in H. injection H as _ <-.
    simpl in Ha'. injection Ha' as <-. simpl.
    by rewrite ?Hf1, ?Hf2, ?Hf3, ?Hf4, ?Hf5, ?Hf6, ?Hf7.
  - unfold setTimeout in H. rewrite bind_assoc, bind_get in H. cbv zeta in H.
    rewrite bind_assoc, bind_modify, bind_ret, bind_setAction, bind_modify in H.
    injection H as _ <-. simpl in Ha'. injection Ha' as <-. simpl.
    by rewrite lookup_insert_eq, ?Hf1, ?Hf2, ?Hf3, ?Hf4, ?Hf5, ?Hf6, ?Hf7.
  - unfold setTimeout in H. rewrite bind_assoc, bind_get in H. cbv zeta in H.
    rewrite bind_assoc, bind_modify, bind_ret, bind_setAction, bind_modify in H.
    injection H as _ <-. simpl in Ha'. injection Ha' as <-. simpl.
    by rewrite lookup_insert_eq, ?Hf1, ?Hf2, ?Hf3, ?Hf4, ?Hf5, ?Hf6, ?Hf7.
Qed.

(** A declaration that nobody may answer is handed to [resolveAction] as
    it was declared, with the table untouched. *)
Lemma declareAction_resolves player actionData action targetId targetPlayer r res r' :
  declareAction player actionData action targetId targetPlayer r = Done res r' →
  ActionData.challengeable actionData || ActionData.blockable actionData = false
  ∨ List.filter (canRespond (Some (Player.id player))) (Room.players r) = [] →
  ∃ r1 a,
    resolveAction r1 = Done tt r'
    ∧ Room.actionInProgress r1 = Some a
    ∧ Action.action a = action
    ∧ Action.playerId a = Player.id player
    ∧ Action.targetId a = targetId
    ∧ Room.players r1 = Room.players r
    ∧ Room.deck r1 = Room.deck r
    ∧ Room.currentPlayerIndex r1 = Room.currentPlayerIndex r
    ∧ Room.useInquisitor r1 = Room.useInquisitor r
    ∧ Room.nextTimer r1 = Room.nextTimer r.
Proof.
  intros H Hun. unfold declareAction in H. rewrite bind_get in H. cbv zeta in H.
  assert (∃ T, ∀ rest : unit → Engine Result,
              (match Room.responseTimeout r with
               | Some h => clearTimeout h;; modify (Room.set_responseTimeout None)
               | None => mret tt
               end ≫= rest) r
              = rest tt (Room.set_responseTimeout None (Room.set_timers T r)))
    as (T & Hclear).
  { destruct (Room.responseTimeout r) as [h|] eqn:Hh.
    - exists (delete h (Room.timers r)). intros rest.
      by rewrite bind_assoc, bind_clearTimeout, bind_modify.
    - exists (Room.timers r). intros rest.
      rewrite bind_ret. f_equal. rewrite <- Hh. by rewrite room_eta. }
  rewrite Hclear in H. clear Hclear. rewrite bind_modify in H.
  apply bind_Done_inv in H as (x & r1 & Hlog & H).
  apply declarationLog_room in Hlog as [log ->].
  destruct (ActionData.challengeable actionData || ActionData.blockable actionData) eqn:Hresp.
  2:{ apply bind_Done_inv in H as ([] & r2 & Hres & H). injection H as _ <-.
      eexists _, _. split; [exact Hres|]. by repeat split. }
  destruct Hun as [Hun|Hun]; [discriminate Hun|]. rewrite Hun in H.
  assert (∃ f : Action.t → Action.t,
             ((∀ a, Action.action (f a) = Action.action a)
              ∧ (∀ a, Action.playerId (f a) = Action.playerId a)
              ∧ (∀ a, Action.targetId (f a) = Action.targetId a)) ∧
             ∀ (rest : unit → Engine Result) r0,
               ((if ActionData.blockable actionData && truthy targetId
                 then setAction (Action.set_blockableByTarget true);;
                      setAction (Action.set_targetCanBlock targetId)
                 else mret tt) ≫= rest) r0
               = rest tt (Room.set_actionInProgress (f <$> Room.actionInProgress r0) r0))
    as (f & (Hf1 & Hf2 & Hf3) & Hmark).
  { destruct (ActionData.blockable actionData && truthy targetId).
    - exists (λ a, Action.set_targetCanBlock targetId (Action.set_blockableByTarget true a)).
      split; [done|]. intros rest r0. rewrite bind_assoc, !bind_setAction. simpl.
      by rewrite <- option_fmap_compose.
    - exists id. split; [done|]. intros rest r0. rewrite bind_ret, option_fmap_id.
      by destruct r0. }
  rewrite Hmark in H. clear Hmark. simpl in H.
  rewrite bind_modify, !bind_setAction in H. simpl in H.
  apply bind_Done_inv in H as ([] & r2 & Hres & H). injection H as _ <-.
  eexists _, _. split; [exact Hres|]. split; [simpl; reflexivity|]. simpl.
  rewrite Hf1, Hf2, Hf3. by repeat split.
Qed.

(** X9: [performAction] accepts a declaration only from the player whose
    turn it is, when no action is in progress and no player owes a reveal,
    an exchange or an examination, for a key that [ACTIONS[action]] finds
    (an action of the table, or a property the table inherits from
    [Object.prototype], such as [toString], which has no cost), whose cost
    the player can pay, that is a Coup if the player holds ten coins or
    more, and that names an existing target if it is one of the four
    targeted actions. *)
Theorem performAction_accepted socketId action (targetId : option string) r res r' :
  performAction socketId action targetId r = Done res r' →
  success res = true →
  ∃ i player current actionData,
    getPlayerBySocketId r socketId = Some i ∧
    Room.players r !! i = Some player ∧
    Room.players r !! Room.currentPlayerIndex r = Some current ∧
    Player.socketId current = socketId ∧
    Room.actionInProgress r = None ∧
    turnBlocked r = false ∧
    existsb Player.mustChooseExamine (Room.players r) = false ∧
    ACTIONS action = Some actionData ∧
    (∀ cost, ActionData.cost actionData = Some cost → (cost ≤ Player.coins player)%Z) ∧
    ((10 ≤ Player.coins player)%Z → action = "coup") ∧
    (needsTarget action = true → is_Some (lookupTarget r targetId)).
Proof.
  intros H Hs.
  destruct (performAction_declares _ _ _ _ _ _ H Hs)
    as (i & player & current & actionData & ? & ? & ? & ? & ? & ? & ? & ? & ? & ? & ? & _).
  by exists i, player, current, actionData.
Qed.

(** X10: a declaration that [performAction] leaves in progress waits for
    exactly the living, connected players other than the initiator: their
    ids are the pending responses, their number is [totalResponders], no
    response is recorded yet, and no player was touched. *)
Theorem performAction_awaits socketId action (targetId : option string) r res r' a' :
  performAction socketId action targetId r = Done res r' →
  success res = true →
  Room.actionInProgress r' = Some a' →
  ∃ i player,
    getPlayerBySocketId r socketId = Some i ∧
    Room.players r !! i = Some player ∧
    let responders := List.filter (canRespond (Some (Player.id player))) (Room.players r) in
    responders ≠ []
    ∧ Room.players r' = Room.players r
    ∧ Room.pendingResponses r' = list_to_set (Player.id <$> responders)
    ∧ Action.totalResponders a' = Z.of_nat (length responders)
    ∧ Action.respondedCount a' = 0
    ∧ Action.responses a' = ∅
    ∧ Action.phase a' = Waiting
    ∧ Action.action a' = action
    ∧ Action.playerId a' = Player.id player
    ∧ Action.targetId a' = targetId.
Proof.
  intros H Hs Ha'.
  destruct (performAction_declares _ _ _ _ _ _ H Hs)
    as (i & player & current & actionData & Hi & Hp & _ & _ & _ & _ & _ & _ & _ & _ & _ & Hd).
  destruct (declareAction_pending _ _ _ _ _ _ _ _ _ Hd Ha') as ((_ & Hrest) & _).
  by exists i, player.
Qed.

(** X11: the response window of a pending declaration. If the target is
    disconnected the action is paused and no timer is armed; otherwise the
    action is not paused and a fresh timer for the response window is armed
    and recorded both in the action and in the room. *)
Theorem performAction_window socketId action (targetId : option string) r res r' a' :
  performAction socketId action targetId r = Done res r' →
  success res = true →
  Room.actionInProgress r' = Some a' →
  Action.pausedForDisconnection a' = targetOffline r targetId
  ∧ (if targetOffline r targetId
     then Action.responseTimeout a' = None ∧ Room.responseTimeout r' = None
          ∧ Room.nextTimer r' = Room.nextTimer r
     else Action.responseTimeout a' = Some (Room.nextTimer r)
          ∧ Room.responseTimeout r' = Some (Room.nextTimer r)
          ∧ Room.timers r' !! Room.nextTimer r = Some ActionWindow).
Proof.
  intros H Hs Ha'.
  destruct (performAction_declares _ _ _ _ _ _ H Hs)
    as (i & player & current & actionData & _ & _ & _ & _ & _ & _ & _ & _ & _ & _ & _ & Hd).
  by destruct (declareAction_pending _ _ _ _ _ _ _ _ _ Hd Ha') as (_ & Hrest).
Qed.

(** X12: an accepted declaration that nobody may answer is resolved at
    once: when the action is neither challengeable nor blockable, or when no
    other living player is connected, the room [performAction] returns is
    the one [resolveAction] makes of the room in which the declared action is
    in progress (same action, initiator and target) and players, deck and
    turn are as they were at the declaration; no action is in progress any
    more. *)
Theorem performAction_unopposed socketId action (targetId : option string) r res r' i player
    actionData :
  performAction socketId action targetId r = Done res r' →
  success res = true →
  getPlayerBySocketId r socketId = Some i →
  Room.players r !! i = Some player →
  ACTIONS action = Some actionData →
  ActionData.challengeable actionData || ActionData.blockable actionData = false
  ∨ List.filter (canRespond (Some (Player.id player))) (Room.players r) = [] →
  ∃ r1 a,
    resolveAction r1 = Done tt r'
    ∧ Room.actionInProgress r1 = Some a
    ∧ Action.action a = action
    ∧ Action.playerId a = Player.id player
    ∧ Action.targetId a = targetId
    ∧ Room.players r1 = Room.players r
    ∧ Room.deck r1 = Room.deck r
    ∧ Room.currentPlayerIndex r1 = Room.currentPlayerIndex r
    ∧ Room.useInquisitor r1 = Room.useInquisitor r
    ∧ Room.actionInProgress r' = None.
Proof.
  intros H Hs Hi Hp Hdata Hun.
  destruct (performAction_declares _ _ _ _ _ _ H Hs)
    as (i' & player' & current & actionData' & Hi' & Hp' & _ & _ & _ & _ & _ & Hdata'
        & _ & _ & _ & Hd).
  simplify_eq.
  destruct (declareAction_resolves _ _ _ _ _ _ _ _ Hd Hun)
    as (r1 & a & Hres & Ha & Haction & Hplayer & Htarget & Hplayers & Hdeck & Hturn & Hmode & _).
  exists r1, a. repeat (split; [done|]). by eapply resolveAction_clears.
Qed.

(** Bob's connection has dropped. *)
Definition bobOffline : Room.t := roomOf (onDisconnect "socket-b" table3).

(** Alice declares [toString] in [table3]: the lookup finds the inherited
    function, the declaration is accepted, and the turn passes to Bob with
    no coin moved. *)
Lemma performAction_accepted_witness :
  ∃ r' actionData,
    performAction "socket-a" "toString" None table3 = Done succeeded r'
    ∧ ACTIONS "toString" = Some actionData
    ∧ ActionData.cost actionData = None
    ∧ Room.currentPlayerIndex r' = 1%nat
    ∧ coinsOf r' = coinsOf table3.
Proof.
  eexists. 
  edestruct (performAction_accepted "socket-a" "toString" None table3)
    as (i & player & current & actionData & _ & _ & _ & _ & _ & _ & _ & Hdata & _);
    [vm_compute; reflexivity | reflexivity |].
  exists actionData. split; [vm_compute; reflexivity|]. split; [exact Hdata|].
  split; [|split; vm_compute; reflexivity].
  vm_compute in Hdata. by injection Hdata as <-.
Defined.

Lemma performAction_awaits_witness :
  ∃ r' a', performAction "socket-a" "tax" None table3 = Done succeeded r'
    ∧ Room.actionInProgress r' = Some a'
    ∧ Action.totalResponders a' = 2.
Proof.
  eexists _, _. split; [vm_compute; reflexivity|]. split; [vm_compute; reflexivity|].
  edestruct (performAction_awaits "socket-a" "tax" None table3)
    as (i & player & Hi & Hp & _ & _ & _ & Hn & _);
    [vm_compute; reflexivity | reflexivity | vm_compute; reflexivity |].
  vm_compute in Hi. injection Hi as <-. vm_compute in Hp. injection Hp as <-.
  exact Hn.
Defined.

Lemma performAction_window_witness :
  ∃ r' a', performAction "socket-a" "steal" (Some "b") bobOffline = Done succeeded r'
    ∧ Room.actionInProgress r' = Some a'
    ∧ Action.pausedForDisconnection a' = true.
Proof.
  eexists _, _. split; [vm_compute; reflexivity|]. split; [vm_compute; reflexivity|].
  refine (proj1 (performAction_window "socket-a" "steal" (Some "b") bobOffline _ _ _ _ _ _));
    [vm_compute; reflexivity | reflexivity | vm_compute; reflexivity].
Defined.

(** Alice takes Income in [table3]: she holds three coins when
    [performAction] returns, and it is Bob's turn. *)
Lemma performAction_unopposed_witness :
  ∃ r', performAction "socket-a" "income" None table3 = Done succeeded r'
    ∧ Room.actionInProgress r' = None
    ∧ coinsOf r' = [3; 2; 2]
    ∧ Room.currentPlayerIndex r' = 1%nat.
Proof.
  eexists. split; [vm_compute; reflexivity|].
  split; [|split; vm_compute; reflexivity].
  match goal with
  | |- Room.actionInProgress ?r' = None =>
      destruct (performAction_unopposed "socket-a" "income" None table3 succeeded r' 0
                  (seated alice)
                  (ActionData.mk (Some "Income") (Some 1) None false None false None))
        as (r1 & a & _ & _ & _ & _ & _ & _ & _ & _ & _ & Hnone);
        [vm_compute; reflexivity | reflexivity | reflexivity | reflexivity
        | reflexivity | by left | exact Hnone]
  end.
Defined.

(** ** Disconnection *)

(** X13: a connection that drops during a game removes nobody and touches
    neither the action in progress, nor its timers, nor the set of awaited
    responses, nor the turn: the players differ at most in their
    [disconnected] flag. *)
Theorem onDisconnect_during_game (socketId : string) (r : Room.t) :
  Room.state r = Playing →
  let r' := roomOf (onDisconnect socketId r) in
  Room.actionInProgress r' = Room.actionInProgress r
  ∧ Room.pendingResponses r' = Room.pendingResponses r
  ∧ Room.timers r' = Room.timers r
  ∧ Room.responseTimeout r' = Room.responseTimeout r
  ∧ Room.currentPlayerIndex r' = Room.currentPlayerIndex r
  ∧ Room.deck r' = Room.deck r
  ∧ Player.set_disconnected true <$> Room.players r'
    = Player.set_disconnected true <$> Room.players r.
Proof.
  intros Hstate. unfold onDisconnect. rewrite bind_get.
  destruct (getPlayerBySocketId r socketId) as [i|] eqn:Hi.
  - destruct (getPlayerBySocketId_Some _ _ _ Hi) as (p & Hp & _).
    rewrite (bind_Done _ _ _ _ _ (readP_Some _ _ _ Hp)), Hstate.
    rewrite bool_decide_eq_true_2 by done. simpl andb.
    destruct (Player.hasLeft p); simpl; [done|].
    repeat split. apply list_eq. intros j. rewrite !list_lookup_fmap.
    destruct (decide (i = j)) as [->|Hne].
    + rewrite list_lookup_alter_eq. by destruct (Room.players r !! j).
    + by rewrite list_lookup_alter_ne.
  - by destruct (getSpectatorBySocketId r socketId).
Qed.

Lemma onDisconnect_during_game_witness :
  Room.actionInProgress (roomOf (onDisconnect "socket-b" taxDeclared))
  = Room.actionInProgress taxDeclared.
Proof. apply (onDisconnect_during_game "socket-b" taxDeclared). reflexivity. Defined.

(** ** Who may answer *)

(** X14: [respondToAction] accepts a response only from a player who is
    awaited and has not answered yet, never from the initiator of the
    action while it waits for responses nor from the blocker once it is
    blocked, and a block of an action aimed at a target only from that
    target. Nor does it accept one from a player whose id is a key that the
    object of the responses inherits: the lookup of the answer finds that
    key before any answer is given. *)
Theorem respondToAction_eligibility shuffle socketId response r res r' :
  respondToAction shuffle socketId response r = Done res r' →
  success res = true →
  ∃ i p a,
    getPlayerBySocketId r socketId = Some i ∧
    Room.players r !! i = Some p ∧
    Room.actionInProgress r = Some a ∧
    Player.id p ∈ Room.pendingResponses r ∧
    Action.responses a !! Player.id p = None ∧
    (Action.phase a = Waiting → Action.playerId a ≠ Player.id p) ∧
    (Action.phase a = Block → Action.blockerId a ≠ Some (Player.id p)) ∧
    (Response.type response = "block" → Action.blockableByTarget a = true →
     Action.targetCanBlock a = Some (Player.id p)) ∧
    Player.id p ∉ inheritedKeys.
Proof.
  intros H Hs. unfold respondToAction in H. rewrite bind_get in H.
  destruct (getPlayerBySocketId r socketId) as [i|] eqn:Hi;
    [|injection H as <- _; discriminate Hs].
  destruct (Room.actionInProgress r) as [a|] eqn:Ha;
    [|injection H as <- _; discriminate Hs].
  destruct (getPlayerBySocketId_Some _ _ _ Hi) as (p & Hp & _).
  rewrite (bind_Done _ _ _ _ _ (readP_Some _ _ _ Hp)) in H. cbv zeta in H.
  destruct (negb (bool_decide (Player.id p ∈ Room.pendingResponses r))) eqn:Hpending;
    [injection H as <- _; discriminate Hs|].
  destruct (bool_decide (is_Some (Action.responses a !! Player.id p))
            || bool_decide (Player.id p ∈ inheritedKeys)) eqn:Hanswered;
    [injection H as <- _; discriminate Hs|].
  apply orb_false_iff in Hanswered as [Hanswered Hkey].
  destruct (bool_decide (Action.phase a = Waiting)
            && bool_decide (Action.playerId a = Player.id p)) eqn:Hown;
    [injection H as <- _; discriminate Hs|].
  destruct (bool_decide (Action.phase a = Block)
            && bool_decide (Action.blockerId a = Some (Player.id p))) eqn:Hblocker;
    [injection H as <- _; discriminate Hs|].
  destruct (bool_decide (Response.type response = "block")
            && Action.blockableByTarget a
            && negb (bool_decide (Some (Player.id p) = Action.targetCanBlock a))) eqn:Htarget;
    [injection H as <- _; discriminate Hs|].
  exists i, p, a. repeat split; try done.
  - by apply negb_false_iff, bool_decide_eq_true in Hpending.
  - apply bool_decide_eq_false in Hanswered.
    destruct (Action.responses a !! Player.id p); [exfalso; eauto|done].
  - intros Hphase Hid. rewrite !bool_decide_eq_true_2 in Hown by done. done.
  - intros Hphase Hid. rewrite !bool_decide_eq_true_2 in Hblocker by done. done.
  - intros Hblock Hby. rewrite bool_decide_eq_true_2, Hby in Htarget by done.
    simpl in Htarget. by apply negb_false_iff, bool_decide_eq_true in Htarget.
  - by apply bool_decide_eq_false in Hkey.
Qed.

Lemma respondToAction_eligibility_witness :
  ∃ r', respondToAction noShuffle "socket-b" pass taxDeclared = Done succeeded r'
    ∧ "b" ∈ Room.pendingResponses taxDeclared.
Proof.
  eexists. split; [vm_compute; reflexivity|].
  edestruct (respondToAction_eligibility noShuffle "socket-b" pass taxDeclared)
    as (i & p & a & Hi & Hp & _ & Hin & _);
    [vm_compute; reflexivity | reflexivity |].
  vm_compute in Hi. injection Hi as <-. vm_compute in Hp. injection Hp as <-.
  exact Hin.
Defined.

(** ** The end of the game *)

Lemma insertByPlacement_Permutation e l : insertByPlacement e l ≡ₚ e :: l.
Proof.
  induction l as [|x l IH]; simpl; [done|].
  destruct (_ <=? _)%Z; [done|]. rewrite IH. apply Permutation_swap.
Qed.

Lemma sortByPlacement_Permutation l : sortByPlacement l ≡ₚ l.
Proof.
  induction l as [|x l IH]; simpl; [done|].
  unfold sortByPlacement in *. simpl. by rewrite insertByPlacement_Permutation, IH.
Qed.

Definition byPlacement (x y : Elimination.t) : Prop :=
  (Elimination.placement x ≤ Elimination.placement y)%Z.

Lemma insertByPlacement_Sorted e l :
  Sorted byPlacement l → Sorted byPlacement (insertByPlacement e l).
Proof.
  induction 1 as [|x l Hl IH Hx]; simpl; [by repeat constructor|].
  destruct (_ <=? _)%Z eqn:Hle.
  - constructor; [by constructor|]. constructor. unfold byPlacement. lia.
  - constructor; [done|].
    destruct Hx as [|y l Hxy]; simpl in *.
    + constructor. unfold byPlacement. lia.
    + destruct (_ <=? _)%Z; constructor; unfold byPlacement in *; lia.
Qed.

Lemma sortByPlacement_Sorted l : Sorted byPlacement (sortByPlacement l).
Proof.
  induction l as [|x l IH]; [constructor|]. by apply insertByPlacement_Sorted.
Qed.

(** Unless exactly one player is alive, [checkWinCondition] changes
    nothing. *)
Lemma checkWinCondition_continues (r : Room.t) :
  length (List.filter Player.alive (Room.players r)) ≠ 1%nat →
  checkWinCondition r = Done tt r.
Proof.
  intros Hn. unfold checkWinCondition. rewrite bind_get.
  by destruct (List.filter Player.alive (Room.players r)) as [|w [|w' l]].
Qed.

(** When a single player is left alive, [checkWinCondition] ends the game
    in that player's favour. *)
Lemma checkWinCondition_ends (r : Room.t) (winner : Player.t) :
  List.filter Player.alive (Room.players r) = [winner] →
  ∃ r', checkWinCondition r = Done tt r'
    ∧ Room.state r' = Ended
    ∧ Room.winnerId r' = Some (Player.id winner)
    ∧ Room.eliminationOrder r' ≡ₚ eliminationEntry winner 1 :: Room.eliminationOrder r
    ∧ Sorted byPlacement (Room.eliminationOrder r')
    ∧ Room.players r' = Room.players r
    ∧ Room.actionInProgress r' = Room.actionInProgress r.
Proof.
  intros Hw. unfold checkWinCondition. rewrite bind_get, Hw.
  eexists. split; [reflexivity|]. simpl. repeat split.
  - rewrite sortByPlacement_Permutation. by rewrite Permutation_app_comm.
  - apply sortByPlacement_Sorted.
Qed.

(** Bob has lost both cards and Alice is the last player alive. *)
Definition bobOut : Room.t :=
  Room.set_players
    (alter (λ p, Player.set_alive false
                   (Player.set_influences (reveal <$> Player.influences p) p)) 1%nat
           (Room.players table2)) table2.

(** X15: [checkWinCondition] ends the game exactly when a single player is
    left alive. Then the room is [Ended], the survivor is the winner, and
    the elimination order is the former one with the winner added in first
    place, sorted by placement. With no player or several players alive it
    changes nothing. The players and the action in progress are left as
    they were in both cases. *)
Theorem checkWinCondition_decides (r : Room.t) :
  ∃ r', checkWinCondition r = Done tt r'
    ∧ Room.players r' = Room.players r
    ∧ Room.actionInProgress r' = Room.actionInProgress r
    ∧ match List.filter Player.alive (Room.players r) with
      | [winner] =>
          Room.state r' = Ended
          ∧ Room.winnerId r' = Some (Player.id winner)
          ∧ Room.eliminationOrder r' ≡ₚ eliminationEntry winner 1 :: Room.eliminationOrder r
          ∧ Sorted byPlacement (Room.eliminationOrder r')
      | _ => r' = r
      end.
Proof.
  destruct (List.filter Player.alive (Room.players r)) as [|winner [|other alive]] eqn:Halive.
  - exists r. rewrite checkWinCondition_continues by (by rewrite Halive). done.
  - destruct (checkWinCondition_ends r winner Halive)
      as (r' & Hrun & Hstate & Hwinner & Hperm & Hsorted & Hplayers & Haction).
    by exists r'.
  - exists r. rewrite checkWinCondition_continues by (by rewrite Halive). done.
Qed.

Lemma checkWinCondition_decides_witness :
  ∃ r', checkWinCondition bobOut = Done tt r' ∧ Room.winnerId r' = Some "a".
Proof.
  destruct (checkWinCondition_decides bobOut) as (r' & Hrun & _ & _ & Hcase).
  simpl in Hcase. destruct Hcase as (_ & Hwinner & _).
  by exists r'.
Defined.

(** ** Losing influence *)

Lemma alter_lookup_insert {A : Type} (f : A → A) k (l : list A) x :
  l !! k = Some x → alter f k l = <[k := f x]> l.
Proof.
  intros H. apply list_eq. intros j. destruct (decide (k = j)) as [->|Hne].
  - rewrite list_lookup_alter_eq, H. simpl. symmetry. apply list_lookup_insert_eq.
    by eapply lookup_lt_Some.
  - by rewrite list_lookup_alter_ne, list_lookup_insert_ne.
Qed.

Lemma nextTurn_players r : Room.players (roomOf (nextTurn r)) = Room.players r.
Proof.
  unfold nextTurn. rewrite bind_get. cbv zeta.
  repeat match goal with
         | |- context [if ?b then _ else _] => destruct b; [reflexivity|]
         end.
  destruct (skipEliminated _ _ _) as [next|]; [|reflexivity].
  rewrite bind_deref_Some, bind_modify.
  destruct (Room.players (Room.set_currentPlayerIndex next r) !! next) as [p|] eqn:Hp.
  - by rewrite (bind_Done _ _ _ _ _ (readP_Some _ _ _ Hp)).
  - by rewrite (bind_Fault _ _ _ _ (readP_None _ _ Hp)).
Qed.

Lemma checkWinCondition_frame r :
  ∃ r', checkWinCondition r = Done tt r'
    ∧ Room.players r' = Room.players r
    ∧ Room.currentPlayerIndex r' = Room.currentPlayerIndex r
    ∧ Room.actionInProgress r' = Room.actionInProgress r.
Proof.
  unfold checkWinCondition. rewrite bind_get.
  destruct (List.filter Player.alive (Room.players r)) as [|w [|w' l]]; by eexists.
Qed.

(** What a player shows of their standing: the influence slots and whether
    they are still in the game. *)
Definition standing (p : Player.t) : list Influence.t * bool :=
  (Player.influences p, Player.alive p).

Lemma revealInfluence_run playerId cardIndex r res r' :
  revealInfluence playerId cardIndex r = Done res r' →
  success res = true →
  ∃ i p inf,
    getPlayerById r playerId = Some i ∧
    Room.players r !! i = Some p ∧
    Player.mustRevealInfluence p = true ∧
    Player.influences p !! Z.to_nat cardIndex = Some inf ∧
    (0 ≤ cardIndex)%Z ∧
    Influence.revealed inf = false.
Proof.
  intros H Hs. unfold revealInfluence in H. rewrite bind_get in H. cbv zeta in H.
  destruct (getPlayerById r playerId) as [i|] eqn:Hi; simpl in H;
    [|injection H as <- _; discriminate Hs].
  destruct (Room.players r !! i) as [p|] eqn:Hp; simpl in H;
    [|injection H as <- _; discriminate Hs].
  destruct (Player.mustRevealInfluence p) eqn:Hm; simpl in H;
    [|injection H as <- _; discriminate Hs].
  destruct (bool_decide (cardIndex < 0)%Z || _) eqn:Hrange;
    [injection H as <- _; discriminate Hs|].
  apply orb_false_iff in Hrange as [Hlo Hhi].
  apply bool_decide_eq_false in Hlo.
  destruct (Player.influences p !! Z.to_nat cardIndex) as [inf|] eqn:Hinf;
    [|discriminate H].
  rewrite bind_deref_Some in H.
  destruct (Influence.revealed inf) eqn:Hrev; [injection H as <- _; discriminate Hs|].
  exists i, p, inf. repeat split; try done. lia.
Qed.

Ltac room_nf :=
  cbn [Room.code Room.state Room.players Room.spectators Room.deck Room.currentPlayerIndex
       Room.actionInProgress Room.gameLog Room.pendingResponses Room.useInquisitor
       Room.allowSpectators Room.chatMode Room.password Room.ranked Room.anonymousMode
       Room.responseTimeout Room.timers Room.nextTimer Room.shuffles Room.eliminationOrder
       Room.winnerId Room.set_state Room.set_players Room.set_spectators Room.set_deck
       Room.set_currentPlayerIndex Room.set_actionInProgress Room.set_gameLog
       Room.set_pendingResponses Room.set_responseTimeout Room.set_timers Room.set_nextTimer
       Room.set_shuffles Room.set_eliminationOrder Room.set_winnerId].

Lemma fmap_alter_at {A B : Type} (proj : A → B) (f : A → A) k (l : list A) x :
  l !! k = Some x → proj <$> alter f k l = <[k := proj (f x)]> (proj <$> l).
Proof.
  intros H. rewrite (alter_lookup_insert f k l x H). by rewrite list_fmap_insert.
Qed.

Lemma alter_alter {A : Type} (f g : A → A) k (l : list A) :
  alter f k (alter g k l) = alter (f ∘ g) k l.
Proof.
  apply list_eq. intros j. destruct (decide (k = j)) as [->|Hne].
  - rewrite !list_lookup_alter_eq. by destruct (l !! j).
  - by rewrite !list_lookup_alter_ne.
Qed.

(** A write through a slot, read back slot by slot. *)
Lemma writeSlot_lookup (f : Influence.t → Influence.t) i p j :
  Player.influences (writeSlot f i p) !! j
  = (λ inf, if sameObject p i j then f inf else inf) <$> Player.influences p !! j.
Proof. unfold writeSlot. simpl. apply list_lookup_imap. Qed.

(** When the slots hold distinct objects, only the slot written changes. *)
Lemma writeSlot_distinct (f : Influence.t → Influence.t) i p :
  NoDup (Player.objects p) →
  Player.influences (writeSlot f i p) = alter f i (Player.influences p).
Proof.
  intros Hdistinct. apply list_eq. intros j. rewrite writeSlot_lookup.
  destruct (decide (i = j)) as [->|Hne].
  - rewrite list_lookup_alter_eq. unfold sameObject.
    by rewrite bool_decide_eq_true_2.
  - rewrite list_lookup_alter_ne by done. unfold sameObject.
    rewrite bool_decide_eq_false_2 by done. simpl.
    assert (match Player.objects p !! i, Player.objects p !! j with
            | Some a, Some b => bool_decide (a = b)
            | _, _ => false
            end = false) as ->; [|by destruct (Player.influences p !! j)].
    destruct (Player.objects p !! i) as [a|] eqn:Ha; [|done].
    destruct (Player.objects p !! j) as [b|] eqn:Hb; [|done].
    apply bool_decide_eq_false_2. intros ->. destruct Hne. by eapply NoDup_lookup.
Qed.

Lemma two_objects : NoDup [0; 1]%nat.
Proof.
  apply NoDup_cons. split; [|apply NoDup_singleton].
  rewrite list_elem_of_singleton. discriminate.
Qed.

Lemma revealInfluence_effect playerId cardIndex r i p inf :
  getPlayerById r playerId = Some i →
  Room.players r !! i = Some p →
  Player.mustRevealInfluence p = true →
  Player.influences p !! Z.to_nat cardIndex = Some inf →
  (0 ≤ cardIndex)%Z →
  Influence.revealed inf = false →
  let infs := Player.influences (writeSlot reveal (Z.to_nat cardIndex) p) in
  let r' := roomOf (revealInfluence playerId cardIndex r) in
  standing <$> Room.players r'
    = <[i := (infs, if existsb unrevealed infs then Player.alive p else false)]>
        (standing <$> Room.players r)
  ∧ (existsb unrevealed infs = false →
     Room.currentPlayerIndex r' = Room.currentPlayerIndex r
     ∧ Room.actionInProgress r' = Room.actionInProgress r).
Proof.
  intros Hi Hp Hm Hinf Hlo Hrev infs r'. subst r'.
  unfold revealInfluence. rewrite bind_get. cbv zeta. rewrite Hi. simpl.
  rewrite Hp. simpl. rewrite Hm. simpl.
  assert (Z.to_nat cardIndex < length (Player.influences p))%nat as Hlen
    by (by eapply lookup_lt_Some).
  rewrite (bool_decide_eq_false_2 (cardIndex < 0)%Z) by lia.
  rewrite (bool_decide_eq_false_2 (cardIndex >= _)%Z) by lia.
  change (false || false) with false. cbv iota.
  rewrite Hinf, bind_deref_Some, Hrev.
  rewrite bind_mutP_Some. room_nf. rewrite bind_mutP_Some. room_nf.
  rewrite bind_mutP_Some. room_nf. rewrite bind_addLogToRoom. room_nf.
  rewrite !alter_alter.
  match goal with
  | |- context [(readP (Some i) ≫= _) ?x] =>
      match eval cbn [Room.players Room.set_gameLog Room.set_players] in (Room.players x) with
      | alter ?g i (Room.players r) =>
          set (r1 := x);
          assert (Room.players r1 = alter g i (Room.players r)) as Hpl by reflexivity;
          assert (Room.players r1 !! i = Some (g p)) as Hp1
            by (by rewrite Hpl, list_lookup_alter_eq, Hp);
          assert (standing <$> Room.players r1
                  = <[i := (infs, Player.alive p)]> (standing <$> Room.players r)) as Hst
            by (by rewrite Hpl, (fmap_alter_at standing g i _ p Hp));
          assert (Room.currentPlayerIndex r1 = Room.currentPlayerIndex r) as Hcur
            by reflexivity;
          assert (Room.actionInProgress r1 = Room.actionInProgress r) as Hact by reflexivity;
          assert (Player.influences (g p) = infs) as Hinfs by reflexivity;
          generalize dependent (g p); intros p1 Hp1 Hinfs;
          clear Hpl; clearbody r1
      end
  end.
  rewrite (bind_Done _ _ _ _ _ (readP_Some _ _ _ Hp1)), Hinfs.
  destruct (existsb unrevealed infs) eqn:Hleft; cbn [negb]; cbv iota.
  - destruct (bool_decide (Player.influencesToLose p1 > 0)%Z).
    { simpl. split; [done|]. done. }
    rewrite bind_mutP_Some, bind_get. room_nf.
    assert (standing <$> alter (Player.set_mustRevealInfluence false) i (Room.players r1)
            = <[i := (infs, Player.alive p)]> (standing <$> Room.players r)) as Hst'
      by (by rewrite fmap_alter_same).
    split; [|done].
    destruct (negb (existsb Player.mustRevealInfluence _)).
    + rewrite bind_assoc, bind_modify, roomOf_then_ret, nextTurn_players. done.
    + done.
  - rewrite bind_mutP_Some. room_nf. rewrite bind_mutP_Some. room_nf.
    rewrite bind_mutP_Some. room_nf. rewrite bind_get. rewrite !alter_alter.
    match goal with
    | |- context [(readP (Some i) ≫= _) ?x] =>
        match eval cbn [Room.players Room.set_gameLog Room.set_players] in (Room.players x) with
        | alter ?h i (Room.players r1) =>
            set (r2 := x);
            assert (Room.players r2 = alter h i (Room.players r1)) as Hpl2 by reflexivity;
            assert (Room.players r2 !! i = Some (h p1)) as Hp2
              by (by rewrite Hpl2, list_lookup_alter_eq, Hp1);
            assert (standing <$> Room.players r2
                    = <[i := (infs, false)]> (standing <$> Room.players r)) as Hst2
              by (rewrite Hpl2, (fmap_alter_at standing h i _ p1 Hp1), Hst,
                    list_insert_insert_eq; unfold standing; simpl; by rewrite Hinfs);
            assert (Room.currentPlayerIndex r2 = Room.currentPlayerIndex r) as Hcur2
              by (by rewrite <- Hcur);
            assert (Room.actionInProgress r2 = Room.actionInProgress r) as Hact2
              by (by rewrite <- Hact);
            clear Hpl2; generalize dependent (h p1); intros p2 Hp2; clearbody r2
        end
    end.
    rewrite (bind_Done _ _ _ _ _ (readP_Some _ _ _ Hp2)), bind_modify.
    assert (∃ r3, ∀ rest : unit → Engine Result,
               ((if truthy (Player.influenceLossCausedBy p1)
                 then mutPIfAny (Player.influenceLossCausedBy p1 ≫= getPlayerById r2)
                                (bumpStat "playersEliminated" 1)
                 else mret tt) ≫= rest)
                 (Room.set_eliminationOrder
                    (Room.eliminationOrder r2
                     ++ [eliminationEntry p2
                           (Z.of_nat (length (List.filter
                              (λ q, Player.alive q
                                    && negb (bool_decide (Player.id q = Player.id p1)))
                              (Room.players r2))) + 1)]) r2)
               = rest tt r3
               ∧ standing <$> Room.players r3 = standing <$> Room.players r2
               ∧ Room.currentPlayerIndex r3 = Room.currentPlayerIndex r2
               ∧ Room.actionInProgress r3 = Room.actionInProgress r2) as (r3 & Hr3).
    { destruct (truthy _); [destruct (_ ≫= getPlayerById r2) as [k|]|]; simpl mutPIfAny;
        eexists; intros rest; rewrite ?bind_mutP_Some, ?bind_ret;
        (split; [reflexivity|]); room_nf; repeat split.
      by apply fmap_alter_same. }
    destruct (Hr3 (λ _,
      addLogToRoom (Player.name p1 +:+ " is eliminated from the game!") "info" None;;
      checkWinCondition;; mret succeeded)) as (-> & Hst3 & Hcur3 & Hact3).
    cbv beta. rewrite bind_addLogToRoom.
    match goal with
    | |- context [(checkWinCondition ≫= _) ?x] =>
        destruct (checkWinCondition_frame x) as (r4 & Hcw & Hpl4 & Hcur4 & Hact4);
        rewrite (bind_Done _ _ _ _ _ Hcw)
    end.
    simpl roomOf. rewrite Hpl4, Hcur4, Hact4. room_nf.
    rewrite Hst3, Hst2, Hcur3, Hcur2, Hact3, Hact2. done.
Qed.

(** X16: an accepted [revealInfluence] turns the object in the chosen slot
    of the player who owes the reveal face up, and with it every slot of the
    hand that holds that object. No other slot and no other player changes,
    and the player is out of the game exactly when no face-down card is
    left. When the slots of the hand hold distinct objects (as in a hand
    dealt by [startGame]), the chosen slot is the only one that changes. *)
Theorem revealInfluence_reveals playerId cardIndex r res r' :
  revealInfluence playerId cardIndex r = Done res r' →
  success res = true →
  ∃ i p inf infs,
    getPlayerById r playerId = Some i ∧
    Room.players r !! i = Some p ∧
    Player.mustRevealInfluence p = true ∧
    Player.influences p !! Z.to_nat cardIndex = Some inf ∧
    Influence.revealed inf = false ∧
    standing <$> Room.players r'
    = <[i := (infs, if existsb unrevealed infs then Player.alive p else false)]>
        (standing <$> Room.players r) ∧
    (∀ j, infs !! j
          = (λ slot, if sameObject p (Z.to_nat cardIndex) j then reveal slot else slot)
              <$> Player.influences p !! j) ∧
    (NoDup (Player.objects p) →
     infs = alter reveal (Z.to_nat cardIndex) (Player.influences p)).
Proof.
  intros H Hs.
  destruct (revealInfluence_run _ _ _ _ _ H Hs) as (i & p & inf & Hi & Hp & Hm & Hinf & Hlo & Hrev).
  exists i, p, inf, (Player.influences (writeSlot reveal (Z.to_nat cardIndex) p)).
  repeat (split; [done|]).
  destruct (revealInfluence_effect _ _ _ _ _ _ Hi Hp Hm Hinf Hlo Hrev) as [Hst _].
  rewrite H in Hst. split; [exact Hst|]. split.
  - intros j. apply writeSlot_lookup.
  - apply writeSlot_distinct.
Qed.

(** X17: when the reveal eliminates the player (the write through the
    chosen slot leaves no face-down card in the hand), [revealInfluence]
    neither passes the turn on nor touches the action in progress: the
    current player index and the action are as before. *)
Theorem revealInfluence_elimination_keeps_turn playerId cardIndex r res r' i p :
  revealInfluence playerId cardIndex r = Done res r' →
  success res = true →
  getPlayerById r playerId = Some i →
  Room.players r !! i = Some p →
  existsb unrevealed (Player.influences (writeSlot reveal (Z.to_nat cardIndex) p)) = false →
  Room.currentPlayerIndex r' = Room.currentPlayerIndex r
  ∧ Room.actionInProgress r' = Room.actionInProgress r.
Proof.
  intros H Hs Hi Hp Hout.
  destruct (revealInfluence_run _ _ _ _ _ H Hs)
    as (i' & p' & inf & Hi' & Hp' & Hm & Hinf & Hlo & Hrev).
  simplify_eq.
  destruct (revealInfluence_effect _ _ _ _ _ _ Hi Hp Hm Hinf Hlo Hrev) as [_ Hturn].
  rewrite H in Hturn. by apply Hturn.
Qed.

Lemma getPlayerById_alter (f : Player.t → Player.t) k r playerId :
  (∀ p, Player.id (f p) = Player.id p) →
  getPlayerById (Room.set_players (alter f k (Room.players r)) r) playerId
  = getPlayerById r playerId.
Proof.
  intros Hf. unfold getPlayerById. simpl.
  assert (∀ l : list Player.t,
            fst <$> list_find (λ p, Player.id p = playerId) l
            = fst <$> list_find (λ s : string, s = playerId) (Player.id <$> l)) as Hfind.
  { intros l. rewrite list_find_fmap. by destruct (list_find _ l) as [[??]|]. }
  by rewrite !Hfind, fmap_alter_same.
Qed.

Lemma loseInfluence_flags playerId (n : Z) (c : option string) r i p :
  getPlayerById r playerId = Some i →
  Room.players r !! i = Some p →
  List.filter unrevealed (Player.influences p) ≠ [] →
  loseInfluence playerId n c r
  = Done tt (Room.set_players
               (alter (λ p, Player.set_influenceLossCausedBy c
                              (Player.set_mustRevealInfluence true
                                 (Player.set_influencesToLose (Player.influencesToLose p + n) p)))
                      i (Room.players r)) r).
Proof.
  intros Hi Hp Hcards.
  assert ((0 <? length (List.filter unrevealed (Player.influences p)))%nat = true) as Hpos.
  { apply Nat.ltb_lt. destruct (List.filter _ _); [done|simpl; lia]. }
  unfold loseInfluence. rewrite bind_get, Hi.
  by rewrite (bind_Done _ _ _ _ _ (readP_Some _ _ _ Hp)), Hpos.
Qed.

(** X18: losses asked of the same player add up. Two calls of
    [loseInfluence] for a player who still holds a face-down card leave
    that player owing the sum of the two counts, with the second cause
    recorded. *)
Theorem loseInfluence_accumulates playerId (n m : Z) (c1 c2 : option string) r i p :
  getPlayerById r playerId = Some i →
  Room.players r !! i = Some p →
  List.filter unrevealed (Player.influences p) ≠ [] →
  (loseInfluence playerId n c1;; loseInfluence playerId m c2) r
  = Done tt (Room.set_players
               (<[i := Player.set_influenceLossCausedBy c2
                         (Player.set_mustRevealInfluence true
                            (Player.set_influencesToLose (Player.influencesToLose p + n + m) p))]>
                  (Room.players r)) r).
Proof.
  intros Hi Hp Hcards.
  rewrite (bind_Done _ _ _ _ _ (loseInfluence_flags playerId n c1 r i p Hi Hp Hcards)).
  erewrite loseInfluence_flags; [| |simpl; by rewrite list_lookup_alter_eq, Hp|done].
  - f_equal. room_nf. rewrite alter_alter. by rewrite (alter_lookup_insert _ _ _ _ Hp).
  - by rewrite getPlayerById_alter.
Qed.

(** Bob owes two influences; then he has revealed the first. *)
Definition bobOwesTwo : Room.t :=
  roomOf ((loseInfluence "b" 1 (Some "a");; loseInfluence "b" 1 (Some "a")) table2).
Definition bobLastCard : Room.t := roomOf (revealInfluence "b" 0 bobOwesTwo).

(** Alice has declared Exchange in [table3], Bob and Carol have passed, and
    she is offered the two cards drawn from the deck. *)
Definition offered : Room.t :=
  roomOf ((performAction "socket-a" "exchange" None;;
           respondToAction noShuffle "socket-b" pass;;
           respondToAction noShuffle "socket-c" pass) table3).

(** Alice has kept the card of slot 0 twice in her exchange, so that both
    slots of her hand hold the same object, and she owes an influence. *)
Definition keptTwice : Room.t :=
  roomOf ((completeExchange noShuffle "a" [0; 0];; loseInfluence "a" 1 (Some "b")) offered).

(** Bob, whose two cards are two objects, reveals slot 0 and keeps the
    other card face down. Alice reveals slot 0 of the hand she kept twice:
    both slots are face up, and she is out. *)
Lemma revealInfluence_reveals_witness :
  (∃ r', revealInfluence "b" 0 bobOwesTwo = Done succeeded r'
     ∧ standing <$> Room.players r'
       = <[1%nat := ([Influence.mk "Contessa" true; Influence.mk "Assassin" false], true)]>
           (standing <$> Room.players bobOwesTwo))
  ∧ (∃ r', revealInfluence "a" 0 keptTwice = Done succeeded r'
       ∧ standing <$> Room.players r'
         = <[0%nat := ([Influence.mk "Duke" true; Influence.mk "Duke" true], false)]>
             (standing <$> Room.players keptTwice)).
Proof.
  split.
  - eexists. split; [vm_compute; reflexivity|].
    edestruct (revealInfluence_reveals "b" 0 bobOwesTwo)
      as (i & p & inf & infs & Hi & Hp & _ & _ & _ & Hst & _ & Hdistinct);
      [vm_compute; reflexivity | reflexivity |].
    vm_compute in Hi. injection Hi as <-. vm_compute in Hp. injection Hp as <-.
    rewrite Hdistinct in Hst by exact two_objects.
    exact Hst.
  - eexists. split; [vm_compute; reflexivity|].
    edestruct (revealInfluence_reveals "a" 0 keptTwice)
      as (i & p & inf & infs & Hi & Hp & _ & _ & _ & Hst & Hslots & _);
      [vm_compute; reflexivity | reflexivity |].
    vm_compute in Hi. injection Hi as <-. vm_compute in Hp. injection Hp as <-.
    assert (infs = [Influence.mk "Duke" true; Influence.mk "Duke" true]) as ->.
    { apply list_eq. intros j. rewrite Hslots. by destruct j as [|[|j]]. }
    exact Hst.
Defined.

Lemma revealInfluence_elimination_keeps_turn_witness :
  ∃ r', revealInfluence "b" 1 bobLastCard = Done succeeded r'
    ∧ Room.currentPlayerIndex r' = Room.currentPlayerIndex bobLastCard.
Proof.
  eexists. split; [vm_compute; reflexivity|].
  refine (proj1 (revealInfluence_elimination_keeps_turn "b" 1 bobLastCard succeeded _ 1
                   (Player.set_influences
                      [Influence.mk "Contessa" true; Influence.mk "Assassin" false]
                      (Player.set_influenceLossCausedBy (Some "a")
                         (Player.set_mustRevealInfluence true
                            (Player.set_influencesToLose 1 (seated bob)))))
                   _ _ _ _ _));
    [vm_compute; reflexivity | reflexivity | vm_compute; reflexivity
    | vm_compute; reflexivity | reflexivity].
Defined.

Lemma loseInfluence_accumulates_witness :
  Player.influencesToLose <$> Room.players bobOwesTwo !! 1%nat = Some 2.
Proof.
  unfold bobOwesTwo.
  rewrite (loseInfluence_accumulates "b" 1 1 (Some "a") (Some "a") table2 1 (seated bob));
    [reflexivity | reflexivity | reflexivity | discriminate].
Defined.

(** ** Card conservation *)

Lemma omap_pairs {A : Type} (f : nat → bool) (pairs : list (nat * A)) :
  omap (λ '(i, x), if f i then Some x else None) pairs
  = snd <$> filter (λ ix, f ix.1 = true) pairs.
Proof.
  induction pairs as [|[i x] pairs IH]; [done|].
  rewrite filter_cons. simpl. destruct (f i); simpl.
  - destruct (decide (true = true)); [|done]. simpl. f_equal. exact IH.
  - destruct (decide (false = true)); [done|]. exact IH.
Qed.

Lemma omap_lookup_pairs {A : Type} (l : list A) (ks : list nat) :
  omap (l !!.) ks = snd <$> omap (λ k, pair k <$> l !! k) ks.
Proof.
  induction ks as [|k ks IH]; [done|]. simpl.
  destruct (l !! k); simpl; [f_equal|]; exact IH.
Qed.

Lemma elem_of_indexed {A : Type} (l : list A) i x :
  (i, x) ∈ imap pair l ↔ l !! i = Some x.
Proof.
  rewrite elem_of_lookup_imap. split.
  - intros (j & y & Heq & Hj). by simplify_eq.
  - intros H. by exists i, x.
Qed.

Lemma NoDup_indexed {A : Type} (l : list A) : NoDup (imap pair l).
Proof.
  apply (NoDup_fmap_1 fst). rewrite fmap_imap.
  rewrite (imap_ext _ (λ i _, (0 + i)%nat) l) by done.
  assert (∀ (l : list A) n, imap (λ i _, (n + i)%nat) l = seq n (length l)) as Hseq.
  { clear. induction l as [|x l IH]; intros n; [done|]. simpl. f_equal; [lia|].
    rewrite <- (IH (S n)). apply imap_ext. intros. simpl. lia. }
  rewrite (Hseq l 0%nat). apply NoDup_seq.
Qed.

(** Keeping the elements at distinct valid positions and returning those
    at the other positions splits the list. *)
Lemma keep_return_Permutation {A : Type} (l : list A) (ks : list nat) :
  NoDup ks →
  omap (l !!.) ks ++ filterByIndex (λ i, negb (bool_decide (i ∈ ks))) l ≡ₚ l.
Proof.
  intros Hks. unfold filterByIndex.
  rewrite omap_pairs, omap_lookup_pairs, <- fmap_app.
  transitivity (snd <$> imap pair l).
  2:{ rewrite fmap_imap. rewrite (imap_const id), list_fmap_id. done. }
  apply fmap_Permutation. apply NoDup_Permutation.
  - apply NoDup_app. split; [|split].
    + assert (∀ ks, NoDup ks → NoDup (omap (λ k, pair k <$> l !! k) ks)) as Hk.
      { clear. induction 1 as [|k ks Hk Hks IH]; simpl; [constructor|].
        destruct (l !! k) as [x|] eqn:Hx; simpl; [|done].
        constructor; [|done]. rewrite list_elem_of_omap. intros (k' & Hin & Heq).
        destruct (l !! k'); simplify_eq/=. done. }
      by apply Hk.
    + intros [i x]. rewrite list_elem_of_omap, list_elem_of_filter. simpl.
      intros (k & Hin & Heq) [Hout _].
      destruct (l !! k); simplify_eq/=.
      apply negb_true_iff, bool_decide_eq_false in Hout. done.
    + apply NoDup_filter, NoDup_indexed.
  - apply NoDup_indexed.
  - intros [i x]. rewrite elem_of_app, list_elem_of_omap, list_elem_of_filter,
      elem_of_indexed. simpl. split.
    + intros [(k & Hin & Heq)|[_ H]]; [|done].
      destruct (l !! k) eqn:Hk; simplify_eq/=. done.
    + intros Hx. destruct (decide (i ∈ ks)) as [Hin|Hout].
      * left. exists i. by rewrite Hx.
      * right. split; [|done]. by apply negb_true_iff, bool_decide_eq_false.
Qed.

(** The cards a player holds: the influence slots and a pending exchange
    offer. The cards of a room: the deck and those of the players. *)
Definition cardsOf (p : Player.t) : list Card :=
  (Influence.card <$> Player.influences p) ++ default [] (Player.exchangeCards p).

Definition roomCards (r : Room.t) : list Card :=
  Room.deck r ++ mjoin (cardsOf <$> Room.players r).

Lemma nextTurn_frame r :
  ∃ next log, roomOf (nextTurn r) = Room.set_gameLog log (Room.set_currentPlayerIndex next r).
Proof.
  assert (∃ next log, r = Room.set_gameLog log (Room.set_currentPlayerIndex next r)) as Hsame
    by (exists (Room.currentPlayerIndex r), (Room.gameLog r); by destruct r).
  unfold nextTurn. rewrite bind_get. cbv zeta.
  repeat match goal with
         | |- context [if ?b then _ else _] => destruct b; [exact Hsame|]
         end.
  destruct (skipEliminated _ _ _) as [next|]; [|exact Hsame].
  rewrite bind_deref_Some, bind_modify.
  destruct (Room.players (Room.set_currentPlayerIndex next r) !! next) as [p|] eqn:Hp.
  - rewrite (bind_Done _ _ _ _ _ (readP_Some _ _ _ Hp)). simpl. eauto.
  - rewrite (bind_Fault _ _ _ _ (readP_None _ _ Hp)). simpl.
    exists next, (Room.gameLog r). by destruct r.
Qed.

(** The cards of the players other than the one at position [i]. *)
Definition othersCards (i : nat) (players : list Player.t) : list Card :=
  mjoin (cardsOf <$> take i players) ++ mjoin (cardsOf <$> drop (S i) players).

Lemma cards_lookup i p (players : list Player.t) :
  players !! i = Some p →
  mjoin (cardsOf <$> players) ≡ₚ cardsOf p ++ othersCards i players.
Proof.
  intros Hp. unfold othersCards. rewrite <- (take_drop_middle _ _ _ Hp) at 1.
  rewrite fmap_app, fmap_cons, join_app. cbn [mjoin list_join].
  rewrite !app_assoc. apply Permutation_app_tail. apply Permutation_app_comm.
Qed.

Lemma cards_alter (f : Player.t → Player.t) i p (players : list Player.t) :
  players !! i = Some p →
  mjoin (cardsOf <$> alter f i players) ≡ₚ cardsOf (f p) ++ othersCards i players.
Proof.
  intros Hp.
  rewrite (cards_lookup i (f p)) by (by rewrite list_lookup_alter_eq, Hp).
  apply Permutation_app_head. unfold othersCards.
  rewrite take_alter_ge, drop_alter_lt by lia. done.
Qed.

Lemma omap_to_nat {A : Type} (l : list A) (keepIndices : list Z) :
  omap (λ idx, l !! Z.to_nat idx) keepIndices = omap (l !!.) (Z.to_nat <$> keepIndices).
Proof.
  induction keepIndices as [|z zs IH]; [done|]. simpl.
  destruct (l !! Z.to_nat z); [f_equal|]; exact IH.
Qed.

Lemma filterByIndex_ext {A : Type} (f g : nat → bool) (l : list A) :
  (∀ i, f i = g i) → filterByIndex f l = filterByIndex g l.
Proof.
  intros H. unfold filterByIndex.
  induction (imap pair l) as [|[i x] pairs IH]; [done|]. simpl. rewrite H.
  destruct (g i); [f_equal|]; exact IH.
Qed.

Section Conservation.
Variable shuffle : nat → list Card → list Card.
Hypothesis shuffle_Permutation : ∀ n deck, shuffle n deck ≡ₚ deck.

(** Looking up distinct positions of a list without duplicates gives no
    duplicates. *)
Lemma NoDup_omap_lookup {A : Type} (l : list A) (ks : list nat) :
  NoDup l → NoDup ks → NoDup (omap (l !!.) ks).
Proof.
  intros Hl. induction 1 as [|k ks Hk Hks IH]; simpl; [constructor|].
  destruct (l !! k) as [x|] eqn:Hx; [|done].
  constructor; [|done]. rewrite list_elem_of_omap. intros (k' & Hin & Hx').
  destruct Hk. by rewrite (NoDup_lookup l k k' x Hl Hx Hx').
Qed.

(** The objects created for the cards offered are new. *)
Lemma newObjects_fresh (objects : list nat) (n : nat) :
  NoDup objects → NoDup (objects ++ newObjects objects n).
Proof.
  intros Hobjects. apply NoDup_app. split; [done|]. split; [|apply NoDup_seq].
  intros x Hx. unfold newObjects. rewrite elem_of_seq.
  pose proof (max_list_elem_of_le x objects Hx). lia.
Qed.

(** X19: an exchange completed with distinct indices conserves the cards:
    the deck, the influence slots and the pending offers hold, after
    [completeExchange], the same cards as before, whatever the order in
    which the shuffles leave the deck. It also keeps the hands free of
    shared objects: if the slots of every hand held distinct objects, they
    still do. *)
Theorem completeExchange_conserves_cards playerId keepIndices r res r' :
  completeExchange shuffle playerId keepIndices r = Done res r' →
  success res = true →
  NoDup keepIndices →
  roomCards r' ≡ₚ roomCards r
  ∧ ((∀ i p, Room.players r !! i = Some p → NoDup (Player.objects p)) →
     ∀ i p, Room.players r' !! i = Some p → NoDup (Player.objects p)).
Proof.
  intros H Hs Hdistinct. unfold completeExchange in H. rewrite bind_get in H. cbv zeta in H.
  destruct (getPlayerById r playerId) as [i|] eqn:Hi; simpl in H;
    [|injection H as <- _; discriminate Hs].
  destruct (Room.players r !! i) as [p|] eqn:Hp; simpl in H;
    [|injection H as <- _; discriminate Hs].
  destruct (Player.mustChooseExchange p) eqn:Hm; simpl in H;
    [|injection H as <- _; discriminate Hs].
  destruct (Player.exchangeCards p) as [offer|] eqn:Hoffer; [|discriminate H].
  rewrite bind_deref_Some in H.
  destruct (negb (bool_decide (length keepIndices = length (Player.influences p))));
    [injection H as <- _; discriminate Hs|].
  destruct (existsb _ keepIndices) eqn:Hrange; [injection H as <- _; discriminate Hs|].
  assert (Forall (λ idx, 0 ≤ idx)%Z keepIndices) as Hnonneg.
  { apply Forall_forall. intros idx Hin.
    destruct (decide (0 ≤ idx)%Z) as [|Hneg]; [done|].
    assert (existsb (λ idx : Z,
              bool_decide (idx < 0)%Z
              || bool_decide (idx >= Z.of_nat (length (Player.influences p
                                                      ++ exchangeOffer offer)))%Z)
              keepIndices = true) as Habs; [|congruence].
    apply existsb_exists. exists idx. split; [by apply list_elem_of_In|].
    rewrite bool_decide_eq_true_2 by lia. done. }
  assert (NoDup (Z.to_nat <$> keepIndices)) as Hpositions.
  { apply NoDup_fmap_2_strong; [|done].
    intros x y Hx Hy Heq. rewrite Forall_forall in Hnonneg.
    pose proof (Hnonneg x Hx). pose proof (Hnonneg y Hy). lia. }
  rewrite bind_modify in H. unfold shuffleRoomDeck in H.
  rewrite bind_modify, !bind_mutP_Some, bind_addLogToRoom in H.
  apply (f_equal roomOf) in H. rewrite roomOf_then_ret in H. simpl in H. subst r'.
  match goal with
  | |- context [nextTurn ?x] => destruct (nextTurn_frame x) as (next & log & ->)
  end.
  split.
  - unfold roomCards at 1. room_nf. rewrite !alter_alter.
    rewrite (cards_alter _ _ _ _ Hp). unfold roomCards. rewrite (cards_lookup _ _ _ Hp).
    rewrite shuffle_Permutation, <- app_assoc. apply Permutation_app_head.
    rewrite app_assoc. apply Permutation_app_tail.
    unfold cardsOf at 2. rewrite Hoffer. unfold cardsOf. simpl. rewrite app_nil_r.
    rewrite omap_to_nat.
    rewrite (filterByIndex_ext _ (λ i, negb (bool_decide (i ∈ Z.to_nat <$> keepIndices)))).
    2:{ intros k. f_equal. apply bool_decide_ext. rewrite list_elem_of_fmap. split.
        - intros Hin. exists (Z.of_nat k). split; [lia|done].
        - intros (idx & -> & Hin). rewrite Forall_forall in Hnonneg.
          specialize (Hnonneg idx Hin). by rewrite Z2Nat.id. }
    rewrite Permutation_app_comm, <- fmap_app.
    rewrite keep_return_Permutation by done.
    rewrite fmap_app. apply Permutation_app_head. unfold exchangeOffer.
    rewrite <- list_fmap_compose. by rewrite list_fmap_id.
  - intros Hobjects j q. room_nf. rewrite !alter_alter.
    destruct (decide (i = j)) as [<-|Hne].
    + rewrite list_lookup_alter_eq, Hp. intros Hq. injection Hq as <-. simpl.
      rewrite omap_to_nat. apply NoDup_omap_lookup; [|done].
      apply newObjects_fresh. by eapply Hobjects.
    + rewrite list_lookup_alter_ne by done. apply Hobjects.
Qed.

Lemma last_removelast {A : Type} (l : list A) x :
  last l = Some x → l = (removelast l ++ [x])%list.
Proof.
  induction l as [|y [|z l] IH]; intros H; simplify_eq/=; [done|].
  f_equal. by apply IH.
Qed.

Lemma swap_Permutation {A : Type} (l : list A) k x y :
  l !! k = Some x → y :: l ≡ₚ x :: <[k := y]> l.
Proof.
  intros H. rewrite insert_take_drop by (by eapply lookup_lt_Some).
  rewrite <- (take_drop_middle l k x H) at 1.
  rewrite <- !Permutation_middle. apply perm_swap.
Qed.

Lemma findIndex_Some {A : Type} (f : A → bool) (l : list A) k :
  findIndex f l = Some k → ∃ x, l !! k = Some x ∧ f x = true.
Proof.
  unfold findIndex. intros H.
  destruct (list_find _ l) as [[j x]|] eqn:Hf; simplify_eq/=.
  apply list_find_Some in Hf as (? & ? & _). eauto.
Qed.

(** X20: showing a challenged card, returning it to the deck and drawing a
    replacement conserves the cards of the room, whether or not the
    claimant holds the card and whether or not the deck is empty, as long
    as the slots of the claimant's hand hold distinct objects (the card
    drawn is written into the object of the slot found, and would show in
    every slot holding that object). *)
Theorem returnAndRedraw_conserves_cards who card r :
  (∀ i p, who = Some i → Room.players r !! i = Some p → NoDup (Player.objects p)) →
  roomCards (roomOf (returnAndRedraw shuffle who card r)) ≡ₚ roomCards r.
Proof.
  intros Hdistinct. unfold returnAndRedraw.
  destruct (readP_cases who r) as [Hfault|(i & p & -> & Hp & Hread)].
  { by rewrite (bind_Fault _ _ _ _ Hfault). }
  specialize (Hdistinct i p eq_refl Hp).
  rewrite (bind_Done _ _ _ _ _ Hread), bind_get.
  destruct (findIndex (claimed card) (Player.influences p)) as [k|] eqn:Hk; [|done].
  destruct card as [c|]; [|done].
  destruct (findIndex_Some _ _ _ Hk) as (inf & Hinf & Hclaimed).
  apply andb_true_iff in Hclaimed as [_ Hcard]. apply bool_decide_eq_true in Hcard.
  injection Hcard as Hcard.
  destruct (0 <? length (Room.deck r))%nat; [|done].
  unfold popDeck. rewrite bind_assoc, bind_get.
  destruct (last (Room.deck r)) as [drawn|] eqn:Hlast; [|done].
  rewrite bind_assoc, bind_deref_Some, bind_assoc, bind_modify, bind_ret, bind_mutP_Some,
    bind_modify.
  unfold shuffleRoomDeck. rewrite bind_modify. simpl roomOf.
  unfold roomCards at 1. room_nf. rewrite shuffle_Permutation.
  rewrite (cards_alter _ _ _ _ Hp). unfold roomCards. rewrite (cards_lookup _ _ _ Hp).
  rewrite (last_removelast _ _ Hlast) at 2.
  assert (cardsOf (writeSlot (setCard drawn) k p)
          = (Influence.card <$> alter (setCard drawn) k (Player.influences p))
              ++ default [] (Player.exchangeCards p))%list as ->.
  { unfold cardsOf. by rewrite writeSlot_distinct. }
  unfold cardsOf.
  rewrite (list_fmap_alter Influence.card (setCard drawn) (λ _, drawn))
    by (apply Forall_forall; done).
  assert ((Influence.card <$> Player.influences p) !! k = Some c) as Hc
    by (by rewrite list_lookup_fmap, Hinf; simpl; rewrite Hcard).
  rewrite (alter_lookup_insert _ _ _ _ Hc).
  symmetry. rewrite <- !app_assoc. simpl. rewrite app_comm_cons.
  rewrite (swap_Permutation _ _ _ drawn Hc). simpl.
  by rewrite <- Permutation_middle.
Qed.

End Conservation.

Lemma completeExchange_conserves_cards_witness :
  ∃ r', completeExchange noShuffle "a" [0; 2] offered = Done succeeded r'
    ∧ roomCards r' ≡ₚ roomCards offered.
Proof.
  eexists. split; [vm_compute; reflexivity|].
  match goal with
  | |- roomCards ?r' ≡ₚ _ =>
      refine (proj1 (completeExchange_conserves_cards noShuffle (λ _ _, reflexivity _)
                       "a" [0; 2] offered succeeded r' _ _ _))
  end.
  - vm_compute; reflexivity.
  - reflexivity.
  - apply NoDup_cons. split; [|apply NoDup_singleton].
    rewrite list_elem_of_singleton. discriminate.
Defined.

Lemma returnAndRedraw_conserves_cards_witness :
  roomCards (roomOf (returnAndRedraw noShuffle (Some 0%nat) (Some "Duke") table3))
  ≡ₚ roomCards table3.
Proof.
  apply (returnAndRedraw_conserves_cards noShuffle (λ _ _, reflexivity _)).
  intros i p Hi Hp. injection Hi as <-. vm_compute in Hp. injection Hp as <-.
  exact two_objects.
Defined.

(** With one object in both slots the conservation fails: in the hand that
    Alice kept twice, the card drawn shows in both slots, and the room holds
    one card less than before. *)
Example returnAndRedraw_shared_object :
  let r := roomOf (completeExchange noShuffle "a" [0; 0] offered) in
  let r' := roomOf (returnAndRedraw noShuffle (Some 0%nat) (Some "Duke") r) in
  (Player.influences <$> Room.players r !! 0%nat)
  = Some [Influence.mk "Duke" false; Influence.mk "Duke" false]
  ∧ (Player.influences <$> Room.players r' !! 0%nat)
    = Some [Influence.mk "Contessa" false; Influence.mk "Contessa" false]
  ∧ length (roomCards r) = 16%nat
  ∧ length (filter (λ card, card = "Duke") (roomCards r)) = 4%nat
  ∧ length (filter (λ card, card = "Duke") (roomCards r')) = 3%nat.
Proof. vm_compute. repeat split. Qed.

(** * Starting a game *)

(** [player.anonymousName = v] *)
Definition withAnonymousName (v : option string) (p : Player.t) : Player.t :=
  {| Player.id := Player.id p; Player.socketId := Player.socketId p;
     Player.name := Player.name p; Player.anonymousName := v;
     Player.coins := Player.coins p; Player.influences := Player.influences p;
     Player.alive := Player.alive p; Player.disconnected := Player.disconnected p;
     Player.hasLeft := Player.hasLeft p;
     Player.mustRevealInfluence := Player.mustRevealInfluence p;
     Player.influencesToLose := Player.influencesToLose p;
     Player.influenceLossCausedBy := Player.influenceLossCausedBy p;
     Player.mustChooseExchange := Player.mustChooseExchange p;
     Player.exchangeCards := Player.exchangeCards p;
     Player.mustChooseExamine := Player.mustChooseExamine p;
     Player.mustShowCardToExaminer := Player.mustShowCardToExaminer p;
     Player.examineTargetId := Player.examineTargetId p;
     Player.examinedBy := Player.examinedBy p;
     Player.examinedCard := Player.examinedCard p;
     Player.examinedCardIndex := Player.examinedCardIndex p;
     Player.gameStats := Player.gameStats p; Player.objects := Player.objects p |}.

(** [list.forEach(f)] for an effectful [f]. *)
Fixpoint forEach {A : Type} (f : A → Engine unit) (l : list A) : Engine unit :=
  match l with
  | [] => mret tt
  | x :: l' => f x;; forEach f l'
  end.

(** The three copies of every role, in the order [shuffleDeck] pushes them. *)
Definition unshuffledDeck (useInquisitor : bool) : list Card :=
  mjoin ((λ card, replicate 3 card) <$> (if useInquisitor then INQUISITOR_CARDS else CARDS)).

(** What [startGame] gives to the player at position [idx]: two cards popped
    from the deck, two coins, fresh statistics. The deck of [shuffleDeck]
    holds fifteen cards and at most six players are dealt to, so these pops,
    which the code does not guard, never meet an empty deck. *)
Definition dealTo (idx : nat) : Engine unit :=
  card1 ← popDeck;
  card2 ← popDeck;
  mutP (Some idx) (λ p,
    Player.set_gameStats (Some initialStats)
      (Player.set_alive true
         (Player.set_coins 2
            (Player.set_objects [0; 1]%nat
               (Player.set_influences [Influence.mk card1 false; Influence.mk card2 false]
                                      p))))).

Section StartGame.

(** The three sources of randomness of [startGame]: the order of the
    players, the order of the deck, and the anonymous name generated for the
    player at each position. *)
Variable shufflePlayers : list Player.t → list Player.t.
Variable shuffleCards : list Card → list Card.
Variable generateAnonymousName : nat → string.

Definition shuffleDeck (useInquisitor : bool) : list Card :=
  shuffleCards (unshuffledDeck useInquisitor).

Definition startGame : Engine Result :=
  room ← get;
  if (length (Room.players room) <? 2)%nat || (6 <? length (Room.players room))%nat then
    mret (failed "Need 2-6 players")
  else
    (* randomize player order *)
    modify (λ room, Room.set_players (shufflePlayers (Room.players room)) room);;
    (if Room.anonymousMode room then
       modify (λ room,
         Room.set_players
           (imap (λ idx, withAnonymousName (Some (generateAnonymousName idx)))
                 (Room.players room)) room)
     else mret tt);;
    modify (Room.set_deck (shuffleDeck (Room.useInquisitor room)));;
    modify (Room.set_state Playing);;
    modify (Room.set_currentPlayerIndex 0);;
    (* deal 2 cards to each player *)
    room ← get;
    forEach dealTo (seq 0 (length (Room.players room)));;
    addLogToRoom "Game started! Each player has 2 influence cards and 2 coins." "info" None;;
    first ← readP (Some 0%nat);
    addLogToRoom (Player.name first +:+ " will go first!") "info" None;;
    addLogToRoom ("--- " +:+ Player.name first +:+ "'s turn ---") "info" None;;
    mret succeeded.

End StartGame.

(** The roles a player holds in the influence slots. *)
Definition hand (p : Player.t) : list Card := Influence.card <$> Player.influences p.

(** A player as [startGame] leaves them: two face-down cards in two
    distinct objects, two coins, alive, statistics at their initial values. *)
Definition ready (p : Player.t) : Prop :=
  Player.coins p = 2 ∧ Player.alive p = true
  ∧ Player.gameStats p = Some initialStats
  ∧ NoDup (Player.objects p)
  ∧ ∃ card1 card2, Player.influences p = [Influence.mk card1 false; Influence.mk card2 false].

Lemma last_is_Some {A : Type} (l : list A) : (0 < length l)%nat → is_Some (last l).
Proof.
  intros H. destruct l as [|x l] using rev_ind; [simpl in H; lia|].
  rewrite last_snoc. eauto.
Qed.

Lemma popDeck_run {B : Type} (f : Card → Engine B) r :
  (0 < length (Room.deck r))%nat →
  ∃ card rest, Room.deck r = (rest ++ [card])%list
    ∧ (popDeck ≫= f) r = f card (Room.set_deck rest r).
Proof.
  intros Hlen. destruct (last_is_Some _ Hlen) as [card Hlast].
  exists card, (removelast (Room.deck r)). split; [by apply last_removelast|].
  unfold popDeck. by rewrite bind_assoc, bind_get, Hlast, bind_assoc, bind_deref_Some,
    bind_assoc, bind_modify, bind_ret.
Qed.

Lemma forEach_dealTo r k m :
  (k + m)%nat = length (Room.players r) →
  (2 * m ≤ length (Room.deck r))%nat →
  ∃ players deck,
    forEach dealTo (seq k m) r = Done tt (Room.set_deck deck (Room.set_players players r))
    ∧ deck ++ mjoin (hand <$> drop k players) ≡ₚ Room.deck r
    ∧ take k players = take k (Room.players r)
    ∧ length players = length (Room.players r)
    ∧ Forall ready (drop k players)
    ∧ seat <$> players = seat <$> Room.players r.
Proof.
  revert r k. induction m as [|m IH]; intros r k Hk Hdeck.
  - exists (Room.players r), (Room.deck r). simpl.
    split; [by destruct r|].
    rewrite drop_ge by lia. simpl. rewrite app_nil_r. done.
  - simpl seq. cbn [forEach]. unfold dealTo at 2.
    destruct (popDeck_run
                (λ card1, (card2 ← popDeck;
                  mutP (Some k) (λ p,
                    Player.set_gameStats (Some initialStats)
                      (Player.set_alive true
                         (Player.set_coins 2
                            (Player.set_objects [0; 1]%nat
                               (Player.set_influences
                                  [Influence.mk card1 false; Influence.mk card2 false] p))))))
                 ≫= λ _, forEach dealTo (seq (S k) m)) r)
      as (card1 & deck1 & Hdeck1 & Hrun1); [lia|].
    rewrite !bind_assoc. rewrite !bind_assoc in Hrun1. rewrite Hrun1. clear Hrun1.
    assert (length (Room.deck r) = S (length deck1)) as Hlen1
      by (rewrite Hdeck1, length_app; simpl; lia).
    match goal with
    | |- context [(popDeck ≫= ?f) ?x] =>
        destruct (popDeck_run f x) as (card2 & deck2 & Hdeck2 & Hrun2); [simpl; lia|]
    end.
    rewrite Hrun2. clear Hrun2. simpl in Hdeck2.
    assert (length deck1 = S (length deck2)) as Hlen2
      by (rewrite Hdeck2, length_app; simpl; lia).
    rewrite bind_mutP_Some. room_nf.
    destruct (lookup_lt_is_Some_2 (Room.players r) k ltac:(lia)) as [p Hp].
    match goal with
    | |- context [forEach dealTo (seq (S k) m) ?x] =>
        destruct (IH x (S k)) as (players & deck & Hrun & Hcards & Htake & Hlen & Hready & Hseat);
          [simpl; rewrite length_alter; lia | simpl; lia |]
    end.
    simpl in Hcards, Htake, Hlen, Hseat.
    exists players, deck. rewrite Hrun. split; [done|].
    assert (players !! k
            = Some (Player.set_gameStats (Some initialStats)
                      (Player.set_alive true
                         (Player.set_coins 2
                            (Player.set_objects [0; 1]%nat
                               (Player.set_influences
                                  [Influence.mk card1 false; Influence.mk card2 false] p))))))
      as Hk'.
    { rewrite <- (lookup_take_lt _ (S k)) by lia.
      rewrite Htake, lookup_take_lt by lia. by rewrite list_lookup_alter_eq, Hp. }
    rewrite (drop_S _ _ _ Hk'). repeat split.
    + rewrite fmap_cons. cbn [mjoin list_join]. unfold hand at 1. simpl.
      rewrite Hdeck1, Hdeck2, <- Hcards.
      rewrite (Permutation_app_comm _ [card1]). simpl.
      rewrite (Permutation_app_comm _ [card2]). simpl.
      by rewrite <- !Permutation_middle.
    + replace k with (k `min` S k)%nat at 1 2 by lia.
      rewrite <- !take_take, Htake, take_take, take_alter_ge by lia.
      by rewrite <- take_take.
    + by rewrite Hlen, length_alter.
    + constructor; [|done]. repeat split; eauto.
      exact two_objects.
    + rewrite Hseat. by apply fmap_alter_same.
Qed.

Lemma unshuffledDeck_length useInquisitor : length (unshuffledDeck useInquisitor) = 15%nat.
Proof. by destruct useInquisitor. Qed.

Section StartGameProperties.
Variable shufflePlayers : list Player.t → list Player.t.
Variable shuffleCards : list Card → list Card.
Variable generateAnonymousName : nat → string.
Hypothesis shufflePlayers_Permutation : ∀ players, shufflePlayers players ≡ₚ players.
Hypothesis shuffleCards_Permutation : ∀ deck, shuffleCards deck ≡ₚ deck.

(** X21: with two to six players in the room, [startGame] succeeds and
    deals from a full deck. Afterwards the game is running with the first
    player to move, every player is alive with two face-down cards, two
    coins and fresh statistics, the players are the same as before, and the
    deck together with the hands holds exactly the three copies of each of
    the five roles. *)
Theorem startGame_deals (r : Room.t) :
  (2 ≤ length (Room.players r) ≤ 6)%nat →
  ∃ r', startGame shufflePlayers shuffleCards generateAnonymousName r = Done succeeded r'
    ∧ Room.state r' = Playing
    ∧ Room.currentPlayerIndex r' = 0%nat
    ∧ Forall ready (Room.players r')
    ∧ Room.deck r' ++ mjoin (hand <$> Room.players r') ≡ₚ unshuffledDeck (Room.useInquisitor r)
    ∧ length (Room.deck r') = (15 - 2 * length (Room.players r))%nat
    ∧ Player.id <$> Room.players r' ≡ₚ Player.id <$> Room.players r.
Proof.
  intros Hn. unfold startGame. rewrite bind_get.
  assert ((length (Room.players r) <? 2)%nat || (6 <? length (Room.players r))%nat = false)
    as -> by (apply orb_false_iff; split; apply Nat.ltb_ge; lia).
  rewrite bind_modify.
  assert (∃ players,
             length players = length (Room.players r)
             ∧ Player.id <$> players ≡ₚ Player.id <$> Room.players r
             ∧ ∀ rest : unit → Engine Result,
                 ((if Room.anonymousMode r then
                     modify (λ room,
                       Room.set_players
                         (imap (λ idx, withAnonymousName (Some (generateAnonymousName idx)))
                               (Room.players room)) room)
                   else mret tt) ≫= rest)
                   (Room.set_players (shufflePlayers (Room.players r)) r)
                 = rest tt (Room.set_players players r)) as (players & Hlen & Hids & Hrun).
  { destruct (Room.anonymousMode r).
    - eexists. split; [|split; [|intros rest; rewrite bind_modify; reflexivity]].
      + simpl. by rewrite length_imap, shufflePlayers_Permutation.
      + simpl. rewrite fmap_imap.
        rewrite (imap_ext _ (const Player.id) (shufflePlayers (Room.players r))) by done.
        by rewrite imap_const, shufflePlayers_Permutation.
    - exists (shufflePlayers (Room.players r)).
      split; [by rewrite shufflePlayers_Permutation|].
      split; [by rewrite shufflePlayers_Permutation|].
      intros rest. by rewrite bind_ret. }
  rewrite Hrun. clear Hrun. rewrite !bind_modify, bind_get. room_nf.
  match goal with
  | |- context [(forEach dealTo _ ≫= _) ?x] =>
      destruct (forEach_dealTo x 0 (length players))
        as (dealt & deck & Hdeal & Hcards & _ & Hlen' & Hready & Hseat);
        [done
        |simpl; unfold shuffleDeck;
         rewrite shuffleCards_Permutation, unshuffledDeck_length; lia
        |rewrite (bind_Done _ _ _ _ _ Hdeal)]
  end.
  simpl in Hcards, Hlen', Hseat. rewrite drop_0 in Hcards, Hready.
  rewrite bind_addLogToRoom.
  destruct (lookup_lt_is_Some_2 dealt 0) as [first Hfirst]; [lia|].
  match goal with
  | |- context [(readP (Some 0%nat) ≫= _) ?x] =>
      rewrite (bind_Done _ _ x _ _ (readP_Some 0 first x Hfirst))
  end.
  rewrite !bind_addLogToRoom. eexists. split; [reflexivity|]. room_nf.
  repeat split; try done.
  - rewrite Hcards. unfold shuffleDeck. apply shuffleCards_Permutation.
  - assert (length (deck ++ mjoin (hand <$> dealt)) = 15%nat) as Htotal.
    { rewrite Hcards. unfold shuffleDeck.
      by rewrite shuffleCards_Permutation, unshuffledDeck_length. }
    rewrite length_app in Htotal.
    assert (length (mjoin (hand <$> dealt)) = (2 * length dealt)%nat) as Hhands.
    { clear -Hready. induction Hready as [|p l (_ & _ & _ & _ & c1 & c2 & Hp) _ IH]; [done|].
      rewrite fmap_cons. cbn [mjoin list_join]. rewrite length_app.
      etrans; [apply (f_equal2 Nat.add); [reflexivity | exact IH]|].
      unfold hand. rewrite Hp. simpl. lia. }
    lia.
  - rewrite <- Hids.
    assert (Player.id <$> dealt = Player.id <$> players) as ->; [|done].
    assert (Player.id = fst ∘ seat) as -> by done.
    by rewrite !list_fmap_compose, Hseat.
Qed.

End StartGameProperties.

(** A lobby of three. *)
Definition lobby3 : Room.t :=
  Room.set_state Lobby
    (playing false
       ((λ p, Player.set_objects [] (Player.set_influences [] (seated p)))
          <$> [alice; bob; carol])
       []).

Lemma startGame_deals_witness :
  ∃ r', startGame id id (λ _, "Duke Anonymous") lobby3 = Done succeeded r'
    ∧ Room.state r' = Playing.
Proof.
  destruct (startGame_deals id id (λ _, "Duke Anonymous")
              (λ _, reflexivity _) (λ _, reflexivity _) lobby3)
    as (r' & Hrun & Hstate & _); [simpl; lia|].
  by exists r'.
Defined.

(** * What an observer is sent *)

Definition isChat (e : LogEntry.t) : bool := bool_decide (LogEntry.type e = "chat").

Lemma filter_filter_and {A : Type} (f g : A → bool) (l : list A) :
  List.filter f (List.filter g l) = List.filter (λ x, g x && f x) l.
Proof.
  induction l as [|x l IH]; [done|]. simpl.
  destruct (g x); simpl; [destruct (f x)|]; by rewrite IH.
Qed.

Lemma filter_ext_bool {A : Type} (f g : A → bool) (l : list A) :
  (∀ x, f x = g x) → List.filter f l = List.filter g l.
Proof.
  intros H. induction l as [|x l IH]; [done|]. simpl. by rewrite H, IH.
Qed.

Lemma filter_none {A : Type} (l : list A) : List.filter (λ _, false) l = [].
Proof. by induction l. Qed.

(** X22: the log sent to an observer keeps every entry that is not a chat
    message, in order. With chat mode "none" it holds no chat message at
    all, and with chat mode "separate" a player is sent only the chat
    messages written by players. *)
Theorem getPublicGameState_chat (room : Room.t) (socketId : string) (isSpectator : bool) :
  let shown := GameState.gameLog (getPublicGameState room socketId isSpectator) in
  List.filter (λ e, negb (isChat e)) shown = List.filter (λ e, negb (isChat e)) (Room.gameLog room)
  ∧ (Room.chatMode room = "none" → List.filter isChat shown = [])
  ∧ (Room.chatMode room = "separate" → isSpectator = false →
     List.filter isChat shown
     = List.filter (λ e, isChat e && bool_decide (LogEntry.isSpectator e = Some false))
                   (Room.gameLog room)).
Proof.
  simpl. rewrite !filter_filter_and. unfold visibleLog, isChat. repeat split.
  - apply filter_ext_bool. intros e.
    destruct (bool_decide (LogEntry.type e = "chat")); simpl; [by rewrite andb_false_r|done].
  - intros ->. rewrite <- (filter_none (Room.gameLog room)). apply filter_ext_bool.
    intros e. by destruct (bool_decide (LogEntry.type e = "chat")).
  - intros -> ->. apply filter_ext_bool. intros e.
    destruct (bool_decide (LogEntry.type e = "chat")); simpl; [|done].
    by destruct (bool_decide (LogEntry.isSpectator e = Some false)).
Qed.

(** Bob and a spectator have written into the chat of [taxDeclared]. *)
Definition chatting : Room.t :=
  Room.set_gameLog
    (Room.gameLog taxDeclared
       ++ [LogEntry.mk "Nice try" "chat" None (Some false);
           LogEntry.mk "She has the Duke" "chat" None (Some true)])
    taxDeclared.

(** Carol, a player, is sent Bob's message and not the spectator's. *)
Lemma getPublicGameState_chat_witness :
  Room.chatMode chatting = "separate"
  ∧ List.filter isChat (Room.gameLog chatting)
    = [LogEntry.mk "Nice try" "chat" None (Some false);
       LogEntry.mk "She has the Duke" "chat" None (Some true)]
  ∧ List.filter isChat (GameState.gameLog (getPublicGameState chatting "socket-c" false))
    = [LogEntry.mk "Nice try" "chat" None (Some false)].
Proof.
  split; [reflexivity|]. split; [vm_compute; reflexivity|].
  etrans; [apply (getPublicGameState_chat chatting "socket-c" false); reflexivity|].
  vm_compute. reflexivity.
Defined.

(** Two influence slots that look the same from outside: both face down,
    or both face up with the same role. *)
Definition sameFace (a b : Influence.t) : Prop :=
  Influence.revealed a = Influence.revealed b
  ∧ (Influence.revealed a = true → Influence.card a = Influence.card b).

(** [q] is [p] with other roles under the face-down cards (in whatever
    objects), another exchange offer and another examined card. *)
Definition sameButHidden (p q : Player.t) : Prop :=
  ∃ influences objects offer shown,
    q = Player.set_influences influences
          (Player.set_objects objects
             (Player.set_exchangeCards offer (Player.set_examinedCard shown p)))
    ∧ Forall2 sameFace (Player.influences p) influences.

(** Two seats an observer connected as [socketId] cannot tell apart: the
    observer's own seat is the same, another seat differs at most in what
    is hidden. *)
Definition looksAlike (socketId : string) (p q : Player.t) : Prop :=
  q = p ∨ (Player.socketId p ≠ socketId ∧ sameButHidden p q).

Lemma hideUnrevealed_sameFace (l1 l2 : list Influence.t) :
  Forall2 sameFace l1 l2 → hideUnrevealed <$> l1 = hideUnrevealed <$> l2.
Proof.
  induction 1 as [|a b l1 l2 [Hrev Hcard] _ IH]; [done|].
  rewrite !fmap_cons, IH. f_equal. unfold hideUnrevealed, faceUp.
  rewrite <- Hrev. destruct (Influence.revealed a); [|done].
  by rewrite Hcard.
Qed.

Lemma projectPlayer_looksAlike (r r' : Room.t) socketId p q :
  Room.anonymousMode r' = Room.anonymousMode r →
  Room.state r' = Room.state r →
  looksAlike socketId p q →
  projectPlayer r' socketId false q = projectPlayer r socketId false p.
Proof.
  intros Hanon Hstate [->|[Hother (influences & objects & offer & shown & -> & Hfaces)]];
    unfold projectPlayer; rewrite Hanon, Hstate; [done|].
  cbv zeta. simpl. rewrite (bool_decide_eq_false_2 _ Hother). simpl.
  rewrite (hideUnrevealed_sameFace _ _ Hfaces).
  by rewrite (Forall2_length _ _ _ Hfaces).
Qed.

(** X23: what a player is sent does not depend on what is hidden from
    them. If the roles under the other players' face-down cards, their
    exchange offers and examined cards, and the deck (but not its size) are
    replaced by others, [getPublicGameState] computes the same state for
    that player. *)
Theorem getPublicGameState_hides (r : Room.t) (socketId : string)
    (players : list Player.t) (deck : list Card) :
  Forall2 (looksAlike socketId) (Room.players r) players →
  length deck = length (Room.deck r) →
  getPublicGameState (Room.set_deck deck (Room.set_players players r)) socketId false
  = getPublicGameState r socketId false.
Proof.
  intros Hplayers Hdeck.
  assert (seat <$> players = seat <$> Room.players r) as Hseat.
  { clear -Hplayers. induction Hplayers as [|p q l1 l2 Hpq _ IH]; [done|].
    rewrite !fmap_cons, IH. f_equal.
    by destruct Hpq as [->|[_ (? & ? & ? & ? & -> & _)]]. }
  assert (projectPlayer (Room.set_deck deck (Room.set_players players r)) socketId false
            <$> players
          = projectPlayer r socketId false <$> Room.players r) as Hviews.
  { clear -Hplayers. induction Hplayers as [|p q l1 l2 Hpq _ IH]; [done|].
    rewrite !fmap_cons. f_equal; [by apply projectPlayer_looksAlike|].
    etrans; [|exact IH]. apply list_fmap_ext. intros _ x _.
    unfold projectPlayer. reflexivity. }
  assert (∀ i, Player.id <$> players !! i = Player.id <$> Room.players r !! i) as Hid.
  { intros i.
    assert ((seat <$> players) !! i = (seat <$> Room.players r) !! i) as H by (by rewrite Hseat).
    rewrite !list_lookup_fmap in H.
    destruct (players !! i), (Room.players r !! i); simplify_eq/=; [|done].
    congruence. }
  unfold getPublicGameState. cbv zeta. room_nf. rewrite Hdeck, Hviews, Hid.
  assert (getPlayerBySocketId (Room.set_deck deck (Room.set_players players r)) socketId
          = getPlayerBySocketId r socketId) as ->
    by (by apply getPlayerBySocketId_seat).
  destruct (getPlayerBySocketId r socketId) as [i|]; simpl; [|done].
  by rewrite Hid.
Qed.

Lemma getPublicGameState_hides_witness :
  getPublicGameState
    (Room.set_deck (reverse (Room.deck table2))
       (Room.set_players
          [seated alice; Player.set_influences [Influence.mk "Duke" false; Influence.mk "Duke" false]
                           (Player.set_exchangeCards None
                              (Player.set_examinedCard None (seated bob)))]
          table2)) "socket-a" false
  = getPublicGameState table2 "socket-a" false.
Proof.
  apply (getPublicGameState_hides table2 "socket-a").
  - constructor; [by left|]. constructor; [|constructor].
    right. split; [discriminate|].
    exists [Influence.mk "Duke" false; Influence.mk "Duke" false], [0; 1]%nat, None, None.
    split; [reflexivity|]. repeat constructor; simpl; discriminate.
  - reflexivity.
Defined.

(** * Timers *)

(** X24: [clearActionAndTimeout] disarms the response window. The handle
    recorded in the room and the one recorded in the action are no longer
    armed afterwards, so that a late firing of either does nothing; no
    timer is armed by it, and no action is left in progress. *)
Theorem clearActionAndTimeout_disarms (r : Room.t) (h : nat) :
  Room.responseTimeout r = Some h
  ∨ Room.actionInProgress r ≫= Action.responseTimeout = Some h →
  ∃ r', clearActionAndTimeout r = Done tt r'
    ∧ Room.actionInProgress r' = None
    ∧ Room.responseTimeout r' = None
    ∧ Room.timers r' !! h = None
    ∧ Room.timers r' ⊆ Room.timers r
    ∧ timerFires h r' = Done tt r'.
Proof.
  intros Hh.
  assert (∀ r', Room.timers r' !! h = None → timerFires h r' = Done tt r') as Hfire.
  { intros r' Hnone. unfold timerFires. by rewrite bind_get, Hnone. }
  unfold clearActionAndTimeout. rewrite bind_get.
  destruct (Room.responseTimeout r) as [h1|] eqn:H1;
    rewrite ?bind_assoc, ?bind_clearTimeout, ?bind_modify, ?bind_ret, bind_get; room_nf;
    destruct (Room.actionInProgress r ≫= Action.responseTimeout) as [h2|] eqn:H2;
    rewrite ?bind_assoc, ?bind_clearTimeout, ?bind_setAction, ?bind_ret;
    (eexists; split; [reflexivity|]); room_nf.
  - assert (delete h2 (delete h1 (Room.timers r)) !! h = None) as Hnone.
    { destruct Hh as [Hh|Hh]; simplify_eq.
      - destruct (decide (h2 = h)) as [->|]; [by rewrite lookup_delete_eq|].
        by rewrite lookup_delete_ne, lookup_delete_eq.
      - by rewrite lookup_delete_eq. }
    repeat split; try done.
    + etrans; apply delete_subseteq.
    + by apply Hfire.
  - destruct Hh as [Hh|Hh]; simplify_eq.
    assert (delete h (Room.timers r) !! h = None) as Hnone by apply lookup_delete_eq.
    repeat split; try done; [apply delete_subseteq | by apply Hfire].
  - destruct Hh as [Hh|Hh]; simplify_eq.
    assert (delete h (Room.timers r) !! h = None) as Hnone by apply lookup_delete_eq.
    repeat split; try done; [apply delete_subseteq | by apply Hfire].
  - destruct Hh as [Hh|Hh]; simplify_eq.
Qed.

Lemma clearActionAndTimeout_disarms_witness :
  ∃ r', clearActionAndTimeout taxDeclared = Done tt r' ∧ Room.timers r' !! 0%nat = None.
Proof.
  destruct (clearActionAndTimeout_disarms taxDeclared 0) as (r' & Hrun & _ & _ & Hnone & _);
    [left; reflexivity|].
  by exists r'.
Defined.

(** * Blocks *)

(** X25: a block that somebody can challenge opens the block phase.
    [handleBlock] records the blocker and the claimed card in the action,
    keeps the action, its initiator and the responses given so far, and
    waits for exactly the living, connected players other than the blocker.
    If one of the others is disconnected the action is paused and the timers
    are left as they are; otherwise a fresh timer for the block window is
    armed and recorded in the action and in the room. No player is
    touched. *)
Theorem handleBlock_opens_window blockerId (blockCard : option Card) r a k b :
  Room.actionInProgress r = Some a →
  getPlayerById r blockerId = Some k →
  Room.players r !! k = Some b →
  let challengers := List.filter (canRespond (Some blockerId)) (Room.players r) in
  let offline := existsb (awaitedOffline (Some blockerId)) (Room.players r) in
  challengers ≠ [] →
  ∃ r' a',
    handleBlock blockerId blockCard r = Done tt r'
    ∧ Room.actionInProgress r' = Some a'
    ∧ Room.players r' = Room.players r
    ∧ Room.pendingResponses r' = list_to_set (Player.id <$> challengers)
    ∧ Action.phase a' = Block
    ∧ Action.blockerId a' = Some blockerId
    ∧ Action.blockCard a' = blockCard
    ∧ Action.totalResponders a' = Z.of_nat (length challengers)
    ∧ Action.respondedCount a' = 0
    ∧ Action.action a' = Action.action a
    ∧ Action.playerId a' = Action.playerId a
    ∧ Action.responses a' = Action.responses a
    ∧ (if offline
       then Action.pausedForDisconnection a' = true
            ∧ Action.responseTimeout a' = Action.responseTimeout a
            ∧ Room.timers r' = Room.timers r
       else Action.pausedForDisconnection a' = Action.pausedForDisconnection a
            ∧ Action.responseTimeout a' = Some (Room.nextTimer r)
            ∧ Room.responseTimeout r' = Some (Room.nextTimer r)
            ∧ Room.timers r' !! Room.nextTimer r
              = Some (BlockWindow (Action.action a) blockCard)).
Proof.
  intros Ha Hk Hb challengers offline Hsome.
  unfold handleBlock. rewrite bind_get, Ha, bind_deref_Some. cbv zeta. rewrite Hk.
  rewrite (bind_Done _ _ _ _ _ (readP_Some _ _ _ Hb)).
  assert (∃ log, ∀ rest : unit → Engine unit,
            ((if decide (Action.action a = "foreignAid") then
                addLogToRoom (Player.name b +:+ " claims to be the " +:+ showCard blockCard
                                +:+ " and blocks Foreign Aid") "block" blockCard
              else
                addLogToRoom (Player.name b +:+ " claims to be the " +:+ showCard blockCard
                                +:+ " and blocks!") "block" blockCard) ≫= rest) r
            = rest tt (Room.set_gameLog log r)) as (log & ->).
  { destruct (decide _); eexists; intros rest; by rewrite bind_addLogToRoom. }
  rewrite !bind_setAction, bind_modify, !bind_setAction. room_nf. rewrite Ha. simpl fmap.
  fold challengers. fold offline.
  destruct (decide (length challengers = 0%nat)) as [Hnone|_].
  { destruct challengers; [done|discriminate Hnone]. }
  destruct offline.
  - rewrite bind_setAction. room_nf. eexists _, _.
    split; [reflexivity|]. simpl. done.
  - assert (∃ timers, ∀ rest : unit → Engine unit,
              (match Room.responseTimeout r with
               | Some h => clearTimeout h;; modify (Room.set_responseTimeout None)
               | None => mret tt
               end ≫= rest)
                (Room.set_actionInProgress
                   (Some (Action.set_respondedCount 0
                            (Action.set_totalResponders (Z.of_nat (length challengers))
                               (Action.set_blockCard blockCard
                                  (Action.set_blockerId (Some blockerId)
                                     (Action.set_phase Block a))))))
                   (Room.set_pendingResponses (list_to_set (Player.id <$> challengers))
                      (Room.set_gameLog log r)))
              = rest tt
                  (Room.set_responseTimeout None
                     (Room.set_timers timers
                        (Room.set_actionInProgress
                           (Some (Action.set_respondedCount 0
                                    (Action.set_totalResponders (Z.of_nat (length challengers))
                                       (Action.set_blockCard blockCard
                                          (Action.set_blockerId (Some blockerId)
                                             (Action.set_phase Block a))))))
                           (Room.set_pendingResponses (list_to_set (Player.id <$> challengers))
                              (Room.set_gameLog log r)))))) as (timers & Hclear).
    { destruct (Room.responseTimeout r) as [h|] eqn:Hh.
      - eexists. intros rest. rewrite bind_assoc, bind_clearTimeout, bind_modify.
        reflexivity.
      - exists (Room.timers r). intros rest. rewrite bind_ret. f_equal.
        destruct r. simpl in *. by subst. }
    eexists _, _. split.
    { etrans; [apply Hclear|]. cbv beta.
      unfold setTimeout. rewrite bind_assoc, bind_get. cbv zeta.
      rewrite bind_assoc, bind_modify, bind_ret, bind_setAction. reflexivity. }
    simpl. rewrite lookup_insert_eq. done.
Qed.

(** Alice has declared Foreign Aid in [table3]. *)
Definition aidDeclared : Room.t := roomOf (performAction "socket-a" "foreignAid" None table3).

Lemma handleBlock_opens_window_witness :
  ∃ r' a', handleBlock "b" (Some "Duke") aidDeclared = Done tt r'
    ∧ Room.actionInProgress r' = Some a'
    ∧ Action.phase a' = Block.
Proof.
  destruct (Room.actionInProgress aidDeclared) as [a|] eqn:Ha;
    [|vm_compute in Ha; discriminate Ha].
  destruct (handleBlock_opens_window "b" (Some "Duke") aidDeclared a 1 (seated bob))
    as (r' & a' & Hrun & Ha' & _ & _ & Hphase & _);
    [exact Ha | reflexivity | reflexivity | intros E; vm_compute in E; discriminate E |].
  by exists r', a'.
Defined.

(** * The last pass *)

(** X26: a pass in the waiting phase resolves the action exactly when it
    was the last answer awaited. While other answers are pending the pass
    is only recorded. Once nobody is awaited any more, and unless the target
    is disconnected, the room [respondToAction] returns is the one
    [resolveAction] makes of the room with the pass recorded (after the log
    line 'No one blocked Foreign Aid' for a Foreign Aid), and no action is in
    progress any more. *)
Theorem respondToAction_last_pass shuffle socketId r r' i p a :
  respondToAction shuffle socketId pass r = Done succeeded r' →
  getPlayerBySocketId r socketId = Some i →
  Room.players r !! i = Some p →
  Room.actionInProgress r = Some a →
  Action.phase a = Waiting →
  (Room.pendingResponses r ∖ {[Player.id p]} ≠ ∅ → r' = recorded (Player.id p) pass r)
  ∧ (Room.pendingResponses r ∖ {[Player.id p]} = ∅ →
     targetOffline r (Action.targetId a) = false →
     resolveAction
       (if decide (Action.action a = "foreignAid")
        then roomOf (addLogToRoom "No one blocked Foreign Aid" "info" None
                       (recorded (Player.id p) pass r))
        else recorded (Player.id p) pass r)
     = Done tt r'
     ∧ Room.actionInProgress r' = None).
Proof.
  intros H Hi Hp Ha Hphase.
  destruct (respondToAction_pass_accepted _ _ _ _ H) as (i' & p' & Hi' & Hp' & _ & Hall).
  simplify_eq. unfold allPassed in Hall. rewrite bind_get in Hall.
  assert (∃ a2, Room.actionInProgress (recorded (Player.id p) pass r) = Some a2
                ∧ Action.phase a2 = Action.phase a
                ∧ Action.targetId a2 = Action.targetId a
                ∧ Action.action a2 = Action.action a)
    as (a2 & Ha2 & Hphase2 & Htarget2 & Haction2).
  { unfold recorded. simpl. rewrite Ha. simpl. eauto. }
  rewrite Ha2, bind_deref_Some, Hphase2, Hphase, Htarget2, Haction2 in Hall.
  change (Room.pendingResponses (recorded (Player.id p) pass r))
    with (Room.pendingResponses r ∖ {[Player.id p]}) in Hall.
  change (lookupTarget (recorded (Player.id p) pass r) (Action.targetId a))
    with (lookupTarget r (Action.targetId a)) in Hall.
  split.
  - intros Hpending.
    destruct (decide (size _ = 0%nat)) as [Hsize|_] in Hall; [|by injection Hall as <-].
    apply size_empty_inv in Hsize. destruct Hpending. by apply leibniz_equiv.
  - intros Hpending Htarget.
    destruct (decide (size _ = 0%nat)) as [_|Hsize] in Hall.
    2:{ destruct Hsize. rewrite Hpending. apply size_empty. }
    unfold targetOffline in Htarget.
    assert (((if decide (Action.action a = "foreignAid")
              then addLogToRoom "No one blocked Foreign Aid" "info" None
              else mret tt);; resolveAction) (recorded (Player.id p) pass r) = Done tt r')
      as Hrun.
    { destruct (lookupTarget r (Action.targetId a)) as [t|]; [by rewrite Htarget in Hall|done]. }
    clear Hall.
    assert (resolveAction
              (if decide (Action.action a = "foreignAid")
               then roomOf (addLogToRoom "No one blocked Foreign Aid" "info" None
                              (recorded (Player.id p) pass r))
               else recorded (Player.id p) pass r) = Done tt r') as Hres.
    { destruct (decide (Action.action a = "foreignAid")); exact Hrun. }
    split; [exact Hres|]. by eapply resolveAction_clears.
Qed.

(** Bob and Carol have passed on Alice's Tax, in turn. *)
Definition bobPassed : Room.t :=
  roomOf (respondToAction noShuffle "socket-b" pass taxDeclared).

Lemma respondToAction_last_pass_witness :
  ∃ r', respondToAction noShuffle "socket-c" pass bobPassed = Done succeeded r'
    ∧ Room.actionInProgress r' = None
    ∧ coinsOf r' = [5; 2; 2]
    ∧ Room.currentPlayerIndex r' = 1%nat.
Proof.
  eexists. split; [vm_compute; reflexivity|].
  split; [|split; vm_compute; reflexivity].
  destruct (Room.actionInProgress bobPassed) as [a|] eqn:Ha;
    [|vm_compute in Ha; discriminate Ha].
  refine (proj2 (proj2 (respondToAction_last_pass noShuffle "socket-c" bobPassed _ 2
                          (seated carol) a _ _ _ Ha _) _ _)).
  - vm_compute; reflexivity.
  - reflexivity.
  - reflexivity.
  - vm_compute in Ha. by injection Ha as <-.
  - apply leibniz_equiv, size_empty_inv. vm_compute. reflexivity.
  - vm_compute in Ha. by injection Ha as <-.
Defined.

(** * A disconnected responder

    Who may answer a declaration is settled when it is made: the living,
    connected players other than the initiator. A declaration nobody may
    answer is resolved on the spot; only a disconnected target makes a
    declared action wait, paused and without a timer. A connection that
    drops later leaves a pending action and its timer as they are. *)

#[global] Instance timer_frame : Frame (λ _ : Player.t, tt) Room.nextTimer.
Proof. by split. Qed.

#[global] Instance timer_coin_frame : CoinFrame (λ _ : Player.t, tt).
Proof. by intros v p. Qed.








(** * Seats in the lobby *)

(** The part of the authenticated user that the seat shows. *)
Module User.
Record t := mk { username : string }.
End User.

(** [s || d] for a string [s] that may be undefined. *)
Definition orElse (s : option string) (d : string) : string :=
  if truthy s then default d s else d.

(** The player object [switchToPlayer] creates; the properties it leaves
    undefined read as [false], [0] or [null]. *)
Definition newPlayer (id socketId name : string) : Player.t :=
  {| Player.id := id; Player.socketId := socketId; Player.name := name;
     Player.anonymousName := None; Player.coins := 2; Player.influences := [];
     Player.alive := true; Player.disconnected := false; Player.hasLeft := false;
     Player.mustRevealInfluence := false; Player.influencesToLose := 0;
     Player.influenceLossCausedBy := None;
     Player.mustChooseExchange := false; Player.exchangeCards := None;
     Player.mustChooseExamine := false; Player.mustShowCardToExaminer := false;
     Player.examineTargetId := None; Player.examinedBy := None;
     Player.examinedCard := None; Player.examinedCardIndex := None;
     Player.gameStats := None; Player.objects := [] |}.

Definition switchToPlayer (socketId : string) (name persistentPlayerId : option string)
    (authenticatedUser : option User.t) : Engine Result :=
  room ← get;
  match getSpectatorBySocketId room socketId with
  | None => mret (failed "Spectator not found")
  | Some i =>
      spectator ← deref (Room.spectators room !! i);
      if (6 <=? length (Room.players room))%nat then
        mret (failed "Game is full (6 players max)")
      else if negb (bool_decide (Room.state room = Lobby)) then
        mret (failed "Cannot join as player during active game")
      else
        (* remove from spectators *)
        modify (λ room,
          Room.set_spectators
            (List.filter (λ s, negb (bool_decide (Spectator.socketId s = socketId)))
                         (Room.spectators room)) room);;
        (* add to players *)
        modify (λ room,
          Room.set_players
            (Room.players room
             ++ [newPlayer (orElse persistentPlayerId socketId) socketId
                   (match authenticatedUser with
                    | Some user => User.username user
                    | None => orElse name (Spectator.name spectator)
                    end)]) room);;
        mret succeeded
  end.

Definition switchToSpectator (socketId : string) : Engine Result :=
  room ← get;
  match getPlayerBySocketId room socketId with
  | None => mret (failed "Player not found")
  | Some i =>
      player ← readP (Some i);
      if negb (Room.allowSpectators room) then
        mret (failed "Spectators not allowed in this room")
      else if negb (bool_decide (Room.state room = Lobby)) then
        mret (failed "Cannot switch to spectator during active game")
      else
        (* remove from players *)
        modify (λ room,
          Room.set_players
            (List.filter (λ p, negb (bool_decide (Player.socketId p = socketId)))
                         (Room.players room)) room);;
        (* add to spectators *)
        modify (λ room,
          Room.set_spectators
            (Room.spectators room ++ [Spectator.mk socketId socketId (Player.name player)])
            room);;
        mret succeeded
  end.

Lemma getSpectatorBySocketId_Some r socketId i :
  getSpectatorBySocketId r socketId = Some i →
  ∃ s, Room.spectators r !! i = Some s ∧ Spectator.socketId s = socketId.
Proof.
  unfold getSpectatorBySocketId. intros H.
  destruct (list_find _ _) as [[j s]|] eqn:Hf; simplify_eq/=.
  apply list_find_Some in Hf as (? & ? & _). eauto.
Qed.

Lemma filter_length_le {A : Type} (f : A → bool) (l : list A) :
  (length (List.filter f l) ≤ length l)%nat.
Proof. induction l as [|x l IH]; simpl; [lia|]. destruct (f x); simpl; lia. Qed.

Lemma filter_In_not {A : Type} (f : A → bool) (l : list A) x :
  x ∈ List.filter f l → f x = true.
Proof. rewrite list_elem_of_In, filter_In. tauto. Qed.

(** X27: seats change hands only in the lobby, and the table is never
    overfilled. When [switchToPlayer] succeeds the room is in the lobby, it
    had fewer than six players, exactly one player was added at the end of
    the table, with two coins and no cards, and no spectator is left on
    that connection. When [switchToSpectator] succeeds the room is in the
    lobby and allows spectators, no player is left on that connection, and
    one spectator was added. A refused switch changes nothing. *)
Theorem switch_seats socketId name persistentPlayerId authenticatedUser r res r' :
  (switchToPlayer socketId name persistentPlayerId authenticatedUser r = Done res r' →
   if success res then
     Room.state r = Lobby
     ∧ (length (Room.players r') ≤ 6)%nat
     ∧ (∃ seatName,
          Room.players r'
          = (Room.players r
             ++ [newPlayer (orElse persistentPlayerId socketId) socketId seatName])%list)
     ∧ (∀ s, s ∈ Room.spectators r' → Spectator.socketId s ≠ socketId)
   else r' = r)
  ∧ (switchToSpectator socketId r = Done res r' →
     if success res then
       Room.state r = Lobby
       ∧ Room.allowSpectators r = true
       ∧ (∀ p, p ∈ Room.players r' → Player.socketId p ≠ socketId)
       ∧ (length (Room.players r') < length (Room.players r))%nat
       ∧ (∃ seatName,
            Room.spectators r'
            = (Room.spectators r ++ [Spectator.mk socketId socketId seatName])%list)
     else r' = r).
Proof.
  split; intros H.
  - unfold switchToPlayer in H. rewrite bind_get in H.
    destruct (getSpectatorBySocketId r socketId) as [i|] eqn:Hi; [|by injection H as <- <-].
    destruct (getSpectatorBySocketId_Some _ _ _ Hi) as (s & Hs & _).
    rewrite Hs, bind_deref_Some in H.
    destruct (6 <=? length (Room.players r))%nat eqn:Hfull; [by injection H as <- <-|].
    destruct (negb (bool_decide (Room.state r = Lobby))) eqn:Hstate; [by injection H as <- <-|].
    rewrite !bind_modify in H. injection H as <- <-. simpl.
    apply negb_false_iff, bool_decide_eq_true in Hstate. apply Nat.leb_gt in Hfull.
    repeat split; [done| |eauto|].
    + rewrite length_app. simpl. lia.
    + intros s' Hin Heq. apply filter_In_not in Hin.
      by rewrite bool_decide_eq_true_2 in Hin.
  - unfold switchToSpectator in H. rewrite bind_get in H.
    destruct (getPlayerBySocketId r socketId) as [i|] eqn:Hi; [|by injection H as <- <-].
    destruct (getPlayerBySocketId_Some _ _ _ Hi) as (p & Hp & Hsock).
    rewrite (bind_Done _ _ _ _ _ (readP_Some _ _ _ Hp)) in H.
    destruct (negb (Room.allowSpectators r)) eqn:Hallow; [by injection H as <- <-|].
    destruct (negb (bool_decide (Room.state r = Lobby))) eqn:Hstate; [by injection H as <- <-|].
    rewrite !bind_modify in H. injection H as <- <-. simpl.
    apply negb_false_iff, bool_decide_eq_true in Hstate. apply negb_false_iff in Hallow.
    repeat split; [done|done| | |eauto].
    + intros p' Hin Heq. apply filter_In_not in Hin.
      by rewrite bool_decide_eq_true_2 in Hin.
    + rewrite <- (take_drop_middle _ _ _ Hp). rewrite List.filter_app. simpl.
      rewrite bool_decide_eq_true_2 by done. simpl.
      rewrite !length_app. simpl.
      pose proof (filter_length_le
                    (λ p, negb (bool_decide (Player.socketId p = socketId)))
                    (take i (Room.players r))).
      pose proof (filter_length_le
                    (λ p, negb (bool_decide (Player.socketId p = socketId)))
                    (drop (S i) (Room.players r))).
      lia.
Qed.

Lemma filter_all {A : Type} (f : A → bool) (l : list A) :
  (∀ x, x ∈ l → f x = true) → List.filter f l = l.
Proof.
  induction l as [|x l IH]; intros H; [done|]. simpl.
  rewrite (H x) by constructor. f_equal. apply IH. intros y Hy. apply H. by constructor.
Qed.

Lemma filter_out_unique {A : Type} (f : A → bool) (l : list A) i x :
  l !! i = Some x → f x = false →
  (∀ j y, l !! j = Some y → f y = false → j = i) →
  List.filter f l = delete i l.
Proof.
  revert i. induction l as [|z l IH]; intros i Hx Hfx Huniq; [done|].
  destruct i as [|i]; simplify_eq/=.
  - rewrite Hfx. apply filter_all. intros y Hy.
    apply list_elem_of_lookup in Hy as [j Hj].
    destruct (f y) eqn:Hfy; [done|]. by specialize (Huniq (S j) y Hj Hfy).
  - destruct (f z) eqn:Hfz; [|by specialize (Huniq 0%nat z eq_refl Hfz)].
    f_equal. apply IH; [done..|]. intros j y Hj Hfy.
    specialize (Huniq (S j) y Hj Hfy). lia.
Qed.

(** X28: leaving one's seat and taking it again. In a lobby that allows
    spectators, a player who sits as [switchToPlayer] seats them, alone on
    their connection, and who switches to spectator and back with the same
    name and id, is a player again, now at the end of the table; the other
    players, the spectators and the rest of the room are as before. *)
Theorem switch_round_trip socketId r i p :
  Room.state r = Lobby →
  Room.allowSpectators r = true →
  Room.players r !! i = Some p →
  p = newPlayer (Player.id p) socketId (Player.name p) →
  Player.id p ≠ "" →
  (∀ j q, Room.players r !! j = Some q → Player.socketId q = socketId → j = i) →
  (∀ s, s ∈ Room.spectators r → Spectator.socketId s ≠ socketId) →
  (length (Room.players r) ≤ 6)%nat →
  (switchToSpectator socketId;;
   switchToPlayer socketId (Some (Player.name p)) (Some (Player.id p)) None) r
  = Done succeeded (Room.set_players (delete i (Room.players r) ++ [p]) r).
Proof.
  intros Hstate Hallow Hp Hfresh Hid Huniq Hspect Hlen.
  assert (Player.socketId p = socketId) as Hsock by (by rewrite Hfresh).
  assert (getPlayerBySocketId r socketId = Some i) as Hi.
  { unfold getPlayerBySocketId.
    destruct (list_find (λ p, Player.socketId p = socketId) (Room.players r))
      as [[j q]|] eqn:Hfind.
    - apply list_find_Some in Hfind as (Hj & Hq & _). simpl. f_equal. by eapply Huniq.
    - apply list_find_None in Hfind. rewrite Forall_forall in Hfind.
      destruct (Hfind p); [by eapply list_elem_of_lookup_2|done]. }
  unfold switchToSpectator. rewrite !bind_assoc, bind_get, Hi.
  rewrite !bind_assoc, (bind_Done _ _ _ _ _ (readP_Some _ _ _ Hp)), Hallow, Hstate.
  rewrite bool_decide_eq_true_2 by done. cbn [negb]. cbv iota.
  rewrite bind_assoc, bind_modify, bind_assoc, bind_modify, bind_ret. room_nf.
  rewrite (filter_out_unique _ _ i p Hp).
  2:{ by rewrite bool_decide_eq_true_2. }
  2:{ intros j q Hq Hf. apply negb_false_iff, bool_decide_eq_true in Hf. by eapply Huniq. }
  unfold switchToPlayer. rewrite bind_get.
  assert (getSpectatorBySocketId
            (Room.set_spectators
               (Room.spectators r ++ [Spectator.mk socketId socketId (Player.name p)])
               (Room.set_players (delete i (Room.players r)) r)) socketId
          = Some (length (Room.spectators r))) as ->.
  { unfold getSpectatorBySocketId. simpl.
    destruct (list_find _ _) as [[j s]|] eqn:Hfind.
    - apply list_find_Some in Hfind as (Hj & Hs & Hfirst). simpl. f_equal.
      destruct (decide (j < length (Room.spectators r))%nat) as [Hlt|Hge].
      + rewrite lookup_app_l in Hj by done.
        destruct (Hspect s); [by eapply list_elem_of_lookup_2|done].
      + apply lookup_lt_Some in Hj. rewrite length_app in Hj. simpl in Hj. lia.
    - apply list_find_None in Hfind. rewrite Forall_forall in Hfind.
      destruct (Hfind (Spectator.mk socketId socketId (Player.name p))); [|done].
      apply elem_of_app. right. constructor. }
  room_nf. rewrite lookup_app_r, Nat.sub_diag by lia. simpl lookup.
  rewrite bind_deref_Some.
  assert ((6 <=? length (delete i (Room.players r)))%nat = false) as ->.
  { apply Nat.leb_gt. rewrite length_delete by eauto. apply lookup_lt_Some in Hp. lia. }
  rewrite Hstate, bool_decide_eq_true_2 by done. cbn [negb Spectator.name]. cbv iota.
  rewrite !bind_modify. room_nf. unfold mret, Engine_ret. f_equal.
  rewrite List.filter_app. simpl. rewrite bool_decide_eq_true_2 by done. simpl.
  rewrite app_nil_r, filter_all.
  2:{ intros s Hs. apply negb_true_iff, bool_decide_eq_false. by apply Hspect. }
  assert (newPlayer (orElse (Some (Player.id p)) socketId) socketId
            (orElse (Some (Player.name p)) (Player.name p)) = p) as ->.
  { assert (orElse (Some (Player.id p)) socketId = Player.id p) as ->
      by (unfold orElse, truthy; by rewrite (bool_decide_eq_false_2 _ Hid)).
    assert (orElse (Some (Player.name p)) (Player.name p) = Player.name p) as ->
      by (unfold orElse, truthy; by destruct (bool_decide (Player.name p = ""))).
    by symmetry. }
  by destruct r.
Qed.

(** Carol waits in the lobby as [switchToPlayer] seated her. *)
Definition lobbyWithCarol : Room.t :=
  Room.set_state Lobby (playing false [newPlayer "c" "socket-c" "Carol"] []).

Lemma switch_seats_witness :
  ∃ r', switchToSpectator "socket-c" lobbyWithCarol = Done succeeded r'
    ∧ Room.allowSpectators lobbyWithCarol = true.
Proof.
  eexists. split; [vm_compute; reflexivity|].
  refine (proj1 (proj2 (proj2 (switch_seats "socket-c" None None None lobbyWithCarol
                                 succeeded _) _))).
  vm_compute; reflexivity.
Defined.

Lemma switch_round_trip_witness :
  (switchToSpectator "socket-c";; switchToPlayer "socket-c" (Some "Carol") (Some "c") None)
    lobbyWithCarol
  = Done succeeded lobbyWithCarol.
Proof.
  etrans; [apply (switch_round_trip "socket-c" lobbyWithCarol 0
                    (newPlayer "c" "socket-c" "Carol"))|reflexivity];
    try reflexivity; try discriminate.
  - intros [|j] q Hq _; [done|discriminate Hq].
  - intros s Hs. by apply elem_of_nil in Hs.
  - simpl. lia.
Defined.

(** * Effects that leave an obligation *)

(** The balance after the cost of the action has been taken. *)
Definition charge (actionData : ActionData.t) (coins : Z) : Z :=
  match ActionData.cost actionData with
  | Some cost => coins - cost
  | None => coins
  end.

(** Up to the switch, [resolveAction] touches the initiator only: the cost
    is taken and statistics are counted. *)
Lemma resolveAction_prefix (r : Room.t) (a : Action.t) (actionData : ActionData.t) (k : nat)
    (actor : Player.t) :
  Room.actionInProgress r = Some a →
  ACTIONS (Action.action a) = Some actionData →
  getPlayerById r (Action.playerId a) = Some k →
  Room.players r !! k = Some actor →
  ∃ stats,
    resolveAction r
    = (applyEffect a (Some k)
         (if truthy (Action.targetId a) then Action.targetId a ≫= getPlayerById r else None)
       ≫= settle)
        (Room.set_players
           (<[k := Player.set_gameStats stats
                     (Player.set_coins (charge actionData (Player.coins actor)) actor)]>
              (Room.players r)) r).
Proof.
  intros Ha Hdata Hk Hactor.
  unfold resolveAction. rewrite bind_get, Ha, Hdata, bind_deref_Some. cbv zeta. rewrite Hk.
  assert (∃ stats, ∀ rest : unit → Engine unit,
             ((if ActionData.challengeable actionData
                  && bool_decide (is_Some (ActionData.card actionData))
               then a0 ← readP (Some k);
                    if holdsCard a0 (ActionData.card actionData)
                    then mutP (Some k) (bumpStat "claimsDefended" 1)
                    else mutP (Some k) (bumpStat "bluffsSucceeded" 1)
               else mret tt) ≫= rest) r
             = rest tt (Room.set_players
                          (<[k := Player.set_gameStats stats actor]> (Room.players r)) r))
    as (stats0 & Hrun0).
  { destruct (_ && _).
    - destruct (holdsCard actor (ActionData.card actionData)) eqn:Hholds;
        eexists; intros rest;
        rewrite bind_assoc, (bind_Done _ _ _ _ _ (readP_Some _ _ _ Hactor)), Hholds,
          bind_mutP_Some, (alter_lookup_insert _ _ _ _ Hactor); reflexivity.
    - exists (Player.gameStats actor). intros rest. rewrite bind_ret.
      assert (Player.set_gameStats (Player.gameStats actor) actor = actor) as ->
        by (by destruct actor).
      rewrite list_insert_id by done. by destruct r. }
  assert (k < length (Room.players r))%nat as Hlt by (by eapply lookup_lt_Some).
  unfold charge. destruct (ActionData.cost actionData) as [cost|].
  - eexists. etrans; [apply Hrun0|]. cbv beta.
    rewrite bind_assoc, !bind_mutP_Some. room_nf.
    rewrite alter_alter.
    rewrite (alter_lookup_insert _ _ _ _ (list_lookup_insert_eq _ _ _ Hlt)).
    rewrite list_insert_insert_eq. reflexivity.
  - exists stats0. etrans; [apply Hrun0|]. cbv beta. by rewrite bind_ret.
Qed.

Lemma alter_insert_same {A : Type} (f : A → A) k (l : list A) x :
  (k < length l)%nat → alter f k (<[k := x]> l) = <[k := f x]> l.
Proof.
  intros Hlt. rewrite (alter_lookup_insert f k _ x) by (by apply list_lookup_insert_eq).
  by rewrite list_insert_insert_eq.
Qed.

Lemma cards_insert i p q (players : list Player.t) :
  players !! i = Some p →
  mjoin (cardsOf <$> <[i := q]> players) ≡ₚ cardsOf q ++ othersCards i players.
Proof.
  intros Hp. rewrite <- (cards_alter (λ _, q) i p) by done.
  by rewrite (alter_lookup_insert _ _ _ _ Hp).
Qed.

(** X29: resolving an Exchange hands the initiator the cards drawn from the
    end of the deck (one with the Inquisitor, two otherwise) as an offer
    and obliges them to choose. The action is over, the turn does not pass,
    and nothing else of the room changes but the log and the initiator's
    statistics; the cards of the room are conserved. *)
Theorem resolveAction_offers_exchange (r : Room.t) (a : Action.t) (k : nat) (actor : Player.t) :
  Room.actionInProgress r = Some a →
  Action.action a = "exchange" →
  getPlayerById r (Action.playerId a) = Some k →
  Room.players r !! k = Some actor →
  Player.exchangeCards actor = None →
  ((if Room.useInquisitor r then 1 else 2) ≤ length (Room.deck r))%nat →
  ∃ r' offer stats,
    resolveAction r = Done tt r'
    ∧ Room.actionInProgress r' = None
    ∧ Room.currentPlayerIndex r' = Room.currentPlayerIndex r
    ∧ length offer = (if Room.useInquisitor r then 1 else 2)%nat
    ∧ Room.deck r = (Room.deck r' ++ reverse offer)%list
    ∧ Room.players r'
      = <[k := Player.set_mustChooseExchange true
                 (Player.set_exchangeCards (Some offer) (Player.set_gameStats stats actor))]>
          (Room.players r)
    ∧ roomCards r' ≡ₚ roomCards r.
Proof.
  intros Ha Hkind Hk Hactor Hnone Hdeck.
  assert (k < length (Room.players r))%nat as Hlt by (by eapply lookup_lt_Some).
  destruct (resolveAction_prefix r a _ k actor Ha ltac:(by rewrite Hkind) Hk Hactor)
    as (stats0 & ->).
  unfold charge. simpl ActionData.cost. cbv iota.
  assert (Player.set_coins (Player.coins actor) actor = actor) as -> by (by destruct actor).
  unfold applyEffect. cbv zeta. rewrite Hkind. pick_kind.
  rewrite bind_assoc, bind_mutP_Some. cbv beta. rewrite bind_assoc, bind_get. room_nf.
  rewrite alter_insert_same by done.
  assert (∀ (offer : list Card) rest stats r',
            Room.deck r = (rest ++ reverse offer)%list →
            Room.actionInProgress r' = None →
            Room.currentPlayerIndex r' = Room.currentPlayerIndex r →
            Room.deck r' = rest →
            Room.players r'
            = <[k := Player.set_mustChooseExchange true
                       (Player.set_exchangeCards (Some offer)
                          (Player.set_gameStats stats actor))]> (Room.players r) →
            roomCards r' ≡ₚ roomCards r) as Hconserved.
  { intros offer rest stats r' Hd _ _ Hd' Hp'. unfold roomCards.
    rewrite Hd', Hp', Hd, (cards_insert _ _ _ _ Hactor), (cards_lookup _ _ _ Hactor).
    unfold cardsOf. simpl. rewrite Hnone. simpl. rewrite app_nil_r, reverse_Permutation.
    rewrite <- !app_assoc. apply Permutation_app_head.
    rewrite !app_assoc. apply Permutation_app_tail. apply Permutation_app_comm. }
  destruct (Room.useInquisitor r).
  - assert ((1 <=? length (Room.deck r))%nat = true) as -> by (by apply Nat.leb_le).
    rewrite bind_assoc.
    match goal with
    | |- context [(popDeck ≫= ?f) ?x] =>
        destruct (popDeck_run f x) as (card1 & deck1 & Hdeck1 & ->); [simpl; lia|]
    end.
    simpl in Hdeck1. cbv beta.
    rewrite bind_assoc, bind_mutP_Some. room_nf.
    rewrite bind_assoc, bind_mutP_Some. room_nf.
    rewrite !alter_alter, alter_insert_same by done. rewrite bind_assoc.
    match goal with
    | |- context [(readP (Some k) ≫= _) ?x] =>
        match x with
        | context [<[k := ?p']> (Room.players r)] =>
            rewrite (bind_Done _ _ x _ _ (readP_Some k p' x (list_lookup_insert_eq _ _ _ Hlt)))
        end
    end.
    rewrite bind_assoc, bind_addLogToRoom, bind_assoc, bind_modify, bind_ret. room_nf.
    eexists _, [card1], _. split; [reflexivity|]. room_nf.
    repeat split; [exact Hdeck1|].
    eapply (Hconserved [card1]); [exact Hdeck1|reflexivity..].
  - assert ((2 <=? length (Room.deck r))%nat = true) as -> by (by apply Nat.leb_le).
    rewrite bind_assoc.
    match goal with
    | |- context [(popDeck ≫= ?f) ?x] =>
        destruct (popDeck_run f x) as (card1 & deck1 & Hdeck1 & ->); [simpl; lia|]
    end.
    simpl in Hdeck1. cbv beta.
    rewrite bind_assoc.
    match goal with
    | |- context [(popDeck ≫= ?f) ?x] =>
        destruct (popDeck_run f x) as (card2 & deck2 & Hdeck2 & ->);
          [simpl; rewrite Hdeck1, length_app in Hdeck; simpl in Hdeck; lia|]
    end.
    simpl in Hdeck2. cbv beta.
    rewrite bind_assoc, bind_mutP_Some. room_nf.
    rewrite bind_assoc, bind_mutP_Some. room_nf.
    rewrite !alter_alter, alter_insert_same by done. rewrite bind_assoc.
    match goal with
    | |- context [(readP (Some k) ≫= _) ?x] =>
        match x with
        | context [<[k := ?p']> (Room.players r)] =>
            rewrite (bind_Done _ _ x _ _ (readP_Some k p' x (list_lookup_insert_eq _ _ _ Hlt)))
        end
    end.
    rewrite bind_assoc, bind_addLogToRoom, bind_assoc, bind_modify, bind_ret. room_nf.
    assert (Room.deck r = (deck2 ++ reverse [card1; card2])%list) as Hd
      by (by rewrite Hdeck1, Hdeck2, <- app_assoc).
    eexists _, [card1; card2], _. split; [reflexivity|]. room_nf.
    repeat split; [exact Hd|].
    eapply (Hconserved [card1; card2]); [exact Hd|reflexivity..].
Qed.

(** Alice has declared Exchange in [table3] and Bob has passed. *)
Definition exchangePending : Room.t :=
  roomOf ((performAction "socket-a" "exchange" None;;
           respondToAction noShuffle "socket-b" pass) table3).

Lemma resolveAction_offers_exchange_witness :
  ∃ r', resolveAction exchangePending = Done tt r'
    ∧ roomCards r' ≡ₚ roomCards exchangePending.
Proof.
  destruct (Room.actionInProgress exchangePending) as [a|] eqn:Ha;
    [|vm_compute in Ha; discriminate Ha].
  destruct (resolveAction_offers_exchange exchangePending a 0 (seated alice))
    as (r' & offer & stats & Hrun & _ & _ & _ & _ & _ & Hcards);
    [exact Ha | vm_compute in Ha; by injection Ha as <-
    | vm_compute in Ha; by injection Ha as <- | reflexivity | reflexivity
    | apply Nat.leb_le; vm_compute; reflexivity |].
  by exists r'.
Defined.

Lemma clearActionAndTimeout_frame r :
  ∃ r', clearActionAndTimeout r = Done tt r'
    ∧ Room.actionInProgress r' = None
    ∧ Room.players r' = Room.players r
    ∧ Room.currentPlayerIndex r' = Room.currentPlayerIndex r
    ∧ Room.deck r' = Room.deck r.
Proof.
  unfold clearActionAndTimeout, clearTimeout, setAction, modify, get, mbind, mret,
    Engine_bind, Engine_ret.
  destruct (Room.responseTimeout r) as [h|]; simpl;
    match goal with
    | |- context [match ?x with Some _ => _ | None => _ end] => destruct x
    end; eexists; repeat split.
Qed.

(** What the engine tracks of a player's duty to reveal. *)
Definition duty (p : Player.t) : string * list Influence.t * bool * Z * option string :=
  (Player.id p, Player.influences p, Player.mustRevealInfluence p,
   Player.influencesToLose p, Player.influenceLossCausedBy p).

Lemma getPlayerById_ids r r' playerId :
  Player.id <$> Room.players r' = Player.id <$> Room.players r →
  getPlayerById r' playerId = getPlayerById r playerId.
Proof.
  intros H. unfold getPlayerById.
  assert (∀ l : list Player.t,
            fst <$> list_find (λ p, Player.id p = playerId) l
            = fst <$> list_find (λ s : string, s = playerId) (Player.id <$> l)) as Hfind.
  { intros l. rewrite list_find_fmap. by destruct (list_find _ l) as [[??]|]. }
  by rewrite !Hfind, H.
Qed.

Lemma duty_ids (l1 l2 : list Player.t) :
  duty <$> l1 = duty <$> l2 → Player.id <$> l1 = Player.id <$> l2.
Proof.
  intros H. assert (Player.id = (λ d, d.1.1.1.1) ∘ duty) as -> by done.
  by rewrite !list_fmap_compose, H.
Qed.

Lemma duty_lookup (l1 l2 : list Player.t) j t :
  duty <$> l1 = duty <$> l2 → l2 !! j = Some t →
  ∃ t1, l1 !! j = Some t1 ∧ duty t1 = duty t.
Proof.
  intros H Ht.
  assert ((duty <$> l1) !! j = Some (duty t)) as Hj by (by rewrite H, list_lookup_fmap, Ht).
  rewrite list_lookup_fmap in Hj. destruct (l1 !! j) as [t1|]; [|discriminate Hj].
  simpl in Hj. exists t1. split; [done|]. congruence.
Qed.

(** The end of the Assassinate and Coup branches: the target is told to
    lose an influence, the action is cleared, and [nextTurn] waits. *)
Lemma oblige_tail (r1 : Room.t) (j : nat) (t1 : Player.t) (cause : option string)
    message type character :
  Room.players r1 !! j = Some t1 →
  getPlayerById r1 (Player.id t1) = Some j →
  List.filter unrevealed (Player.influences t1) ≠ [] →
  ∃ r', ((addLogToRoom message type character;;
          loseInfluence (Player.id t1) 1 cause;; mret false) ≫= settle) r1 = Done tt r'
    ∧ Room.actionInProgress r' = None
    ∧ Room.currentPlayerIndex r' = Room.currentPlayerIndex r1
    ∧ Room.deck r' = Room.deck r1
    ∧ Room.players r'
      = <[j := Player.set_influenceLossCausedBy cause
                 (Player.set_mustRevealInfluence true
                    (Player.set_influencesToLose (Player.influencesToLose t1 + 1) t1))]>
          (Room.players r1).
Proof.
  intros Ht1 Hj Hcards.
  rewrite bind_assoc, bind_addLogToRoom, bind_assoc.
  match goal with
  | |- context [(loseInfluence ?id ?n ?c ≫= ?f) ?x] =>
      rewrite (bind_Done _ f x _ _ (loseInfluence_flags id n c x j t1 Hj Ht1 Hcards))
  end.
  rewrite bind_ret. unfold settle. room_nf.
  match goal with
  | |- context [(clearActionAndTimeout ≫= _) ?x] =>
      destruct (clearActionAndTimeout_frame x) as (r2 & Hclear & Hact & Hpl & Hcur & Hdeck);
        rewrite (bind_Done _ _ _ _ _ Hclear)
  end.
  simpl in Hpl, Hcur, Hdeck. rewrite (alter_lookup_insert _ _ _ _ Ht1) in Hpl.
  exists r2. rewrite nextTurn_waits_for_obligations; [done|].
  unfold turnBlocked. rewrite Hpl.
  assert (existsb Player.mustRevealInfluence
            (<[j := Player.set_influenceLossCausedBy cause
                      (Player.set_mustRevealInfluence true
                         (Player.set_influencesToLose (Player.influencesToLose t1 + 1) t1))]>
               (Room.players r1)) = true) as ->; [|by rewrite orb_true_r].
  apply existsb_exists. eexists. split;
    [apply list_elem_of_In; eapply list_elem_of_lookup_2;
     apply list_lookup_insert_eq; by eapply lookup_lt_Some
    |reflexivity].
Qed.

(** X30: resolving an Assassinate or a Coup against a target who still
    holds a face-down card obliges the target to reveal: the target must
    reveal, owes one influence more, and the initiator is recorded as the
    cause. The action is over, but the turn does not pass before the
    reveal; the deck and the cards of the players are untouched. *)
Theorem resolveAction_obliges_target (r : Room.t) (a : Action.t) (k j : nat)
    (actor target : Player.t) :
  Room.actionInProgress r = Some a →
  Action.action a ∈ ["assassinate"; "coup"] →
  getPlayerById r (Action.playerId a) = Some k →
  Room.players r !! k = Some actor →
  truthy (Action.targetId a) = true →
  Action.targetId a ≫= getPlayerById r = Some j →
  Room.players r !! j = Some target →
  List.filter unrevealed (Player.influences target) ≠ [] →
  ∃ r' target',
    resolveAction r = Done tt r'
    ∧ Room.actionInProgress r' = None
    ∧ Room.currentPlayerIndex r' = Room.currentPlayerIndex r
    ∧ Room.deck r' = Room.deck r
    ∧ Player.influences <$> Room.players r' = Player.influences <$> Room.players r
    ∧ Room.players r' !! j = Some target'
    ∧ Player.mustRevealInfluence target' = true
    ∧ Player.influencesToLose target' = Player.influencesToLose target + 1
    ∧ Player.influenceLossCausedBy target' = Some (Action.playerId a).
Proof.
  intros Ha Hkind Hk Hactor Htruthy Hj Htarget Hcards.
  assert (k < length (Room.players r))%nat as Hlt by (by eapply lookup_lt_Some).
  destruct (getPlayerById_Some _ _ _ Hk) as (actor' & Hactor' & Hactor_id). simplify_eq.
  destruct (Action.targetId a) as [targetId|] eqn:Htid; [|discriminate Hj]. simpl in Hj.
  destruct (getPlayerById_Some _ _ _ Hj) as (target'' & Htarget' & Htarget_id). simplify_eq.
  assert (∃ actionData, ACTIONS (Action.action a) = Some actionData) as (actionData & Hdata).
  { repeat (apply elem_of_cons in Hkind as [->|Hkind]; [by eexists|]).
    by apply elem_of_nil in Hkind. }
  destruct (resolveAction_prefix r a _ k actor Ha Hdata Hk Hactor) as (stats0 & ->).
  rewrite Htid, Htruthy. simpl mbind. rewrite Hj.
  (* the room after the statistics of the switch *)
  assert (∀ (r1 : Room.t),
            duty <$> Room.players r1 = duty <$> Room.players r →
            Room.currentPlayerIndex r1 = Room.currentPlayerIndex r →
            Room.deck r1 = Room.deck r →
            ∀ message type character t1,
              Room.players r1 !! j = Some t1 →
              ∃ r' target',
                ((addLogToRoom message type character;;
                  loseInfluence (Player.id t1) 1 (Some (Action.playerId a));; mret false)
                 ≫= settle) r1 = Done tt r'
                ∧ Room.actionInProgress r' = None
                ∧ Room.currentPlayerIndex r' = Room.currentPlayerIndex r
                ∧ Room.deck r' = Room.deck r
                ∧ Player.influences <$> Room.players r' = Player.influences <$> Room.players r
                ∧ Room.players r' !! j = Some target'
                ∧ Player.mustRevealInfluence target' = true
                ∧ Player.influencesToLose target' = Player.influencesToLose target + 1
                ∧ Player.influenceLossCausedBy target' = Some (Action.playerId a)) as Htail.
  { intros r1 Hduty Hcur Hdeck message type character t1 Ht1.
    destruct (duty_lookup _ _ j target Hduty Htarget) as (t1' & Ht1' & Hd).
    rewrite Ht1 in Ht1'. injection Ht1' as <-.
    unfold duty in Hd. injection Hd as Hid Hinf Hmust Hlose Hcause.
    destruct (oblige_tail r1 j t1 (Some (Action.playerId a)) message type character Ht1)
      as (r' & Hrun & Hact & Hcur' & Hdeck' & Hpl).
    { rewrite Hid. rewrite (getPlayerById_ids r r1); [done|]. by apply duty_ids. }
    { by rewrite Hinf. }
    eexists r', _. split; [exact Hrun|]. rewrite Hpl.
    rewrite list_lookup_insert_eq by (by eapply lookup_lt_Some).
    repeat split; try congruence.
    - rewrite list_fmap_insert. simpl.
      rewrite list_insert_id by (by rewrite list_lookup_fmap, Ht1).
      assert (Player.influences = (λ d, d.1.1.1.2) ∘ duty) as -> by done.
      by rewrite !list_fmap_compose, Hduty.
    - simpl. by rewrite Hlose. }
  assert (duty <$> <[k := Player.set_gameStats stats0
                            (Player.set_coins (charge actionData (Player.coins actor)) actor)]>
                     (Room.players r)
          = duty <$> Room.players r) as Hduty0.
  { rewrite list_fmap_insert. apply list_insert_id. by rewrite list_lookup_fmap, Hactor. }
  unfold applyEffect. cbv zeta.
  apply elem_of_cons in Hkind as [Hkind|Hkind];
    [|apply elem_of_cons in Hkind as [Hkind|Hkind]; [|by apply elem_of_nil in Hkind]];
    rewrite Hkind; pick_kind.
  - rewrite bind_assoc, bind_mutP_Some. room_nf. rewrite bind_assoc, bind_mutP_Some. room_nf.
    rewrite alter_alter. rewrite bind_assoc.
    match goal with
    | |- context [(readP (Some j) ≫= _) ?x] =>
        assert (duty <$> Room.players x = duty <$> Room.players r) as Hduty1
          by (simpl; by rewrite fmap_alter_same);
        destruct (duty_lookup _ _ j target Hduty1 Htarget) as (t1 & Ht1 & _);
        rewrite (bind_Done _ _ x _ _ (readP_Some j t1 x Ht1));
        by apply Htail
    end.
  - rewrite bind_assoc, bind_mutP_Some. room_nf. rewrite bind_assoc, bind_mutP_Some. room_nf.
    rewrite alter_alter. rewrite bind_assoc.
    match goal with
    | |- context [(readP (Some k) ≫= _) ?x] =>
        assert (duty <$> Room.players x = duty <$> Room.players r) as Hduty1
          by (simpl; by rewrite fmap_alter_same);
        destruct (duty_lookup _ _ k actor Hduty1 Hactor) as (a1 & Ha1 & Hda);
        destruct (duty_lookup _ _ j target Hduty1 Htarget) as (t1 & Ht1 & _);
        rewrite (bind_Done _ _ x _ _ (readP_Some k a1 x Ha1)); rewrite bind_assoc;
        rewrite (bind_Done _ _ x _ _ (readP_Some j t1 x Ht1))
    end.
    unfold duty in Hda. injection Hda as Hid _ _ _ _. rewrite Hid, Hactor_id. by apply Htail.
Qed.

Lemma resolveAction_obliges_target_witness :
  ∃ r' target', resolveAction assassinationDeclared = Done tt r'
    ∧ Room.players r' !! 1%nat = Some target'
    ∧ Player.mustRevealInfluence target' = true.
Proof.
  destruct (Room.actionInProgress assassinationDeclared) as [a|] eqn:Ha;
    [|vm_compute in Ha; discriminate Ha].
  destruct (resolveAction_obliges_target assassinationDeclared a 0 1
              (Player.set_coins 7 (seated alice)) (seated bob))
    as (r' & target' & Hrun & _ & _ & _ & _ & Ht & Hm & _);
    [exact Ha
    | vm_compute in Ha; injection Ha as <-; apply elem_of_cons; by left
    | vm_compute in Ha; by injection Ha as <-
    | reflexivity
    | vm_compute in Ha; by injection Ha as <-
    | vm_compute in Ha; by injection Ha as <-
    | reflexivity
    | intros E; vm_compute in E; discriminate E |].
  by exists r', target'.
Defined.
